(** * claude-code-action: the file-operations tool server and the prepare pipeline

    A shallow embedding of

    - [src/mcp/github-file-ops-server.ts]: the [commit_files] and
      [delete_files] tool handlers (the atomic multi-file commit protocol),
      the issue and pull-request tools, and the start of the server;
    - [src/entrypoints/prepare.ts]: the trigger pipeline [run];
    - [src/mcp/install-mcp-server.ts]: [prepareMcpConfig].

    Both programs are straight-line asynchronous code whose only interesting
    behaviour is which outside calls they make, in which order, and what they
    do with the answers.  They are embedded as finite interaction programs
    ([Prog]) over a signature of outside calls; an interpreter ([exec]) runs a
    program against an arbitrary handler of those calls and records the trace
    of calls together with their answers. *)

From stdpp Require Import gmap strings list pretty.

Open Scope string_scope.

(* ================================================================== *)
(** * JavaScript values used by the sources *)
(* ================================================================== *)

Module JS.

(** [s.startsWith(p)] *)
Fixpoint has_prefix (p s : string) : bool :=
  match p, s with
  | EmptyString, _ => true
  | String a p', String b s' => Ascii.eqb a b && has_prefix p' s'
  | String _ _, EmptyString => false
  end.

Definition startsWith (s p : string) : bool := has_prefix p s.

(** [s.slice(n)] for a non-negative [n]: drop the first [n] code units. *)
Fixpoint slice (n : nat) (s : string) : string :=
  match n, s with
  | 0, _ => s
  | S n', String _ s' => slice n' s'
  | S _, EmptyString => EmptyString
  end.

(** Truthiness of a string: only the empty string is falsy. *)
Definition truthy (s : string) : bool := negb (String.eqb s "").

(** Truthiness of an optional string ([undefined] is falsy). *)
Definition truthy_opt (o : option string) : bool :=
  match o with
  | Some s => truthy s
  | None => false
  end.

(** [a || b] on an optional string with a string default. *)
Definition or_else (o : option string) (d : string) : string :=
  match o with
  | Some s => if truthy s then s else d
  | None => d
  end.

End JS.

#[local] Set Warnings "-register-all".

(** JSON values.  Objects keep their fields in source order. *)
Inductive json : Type :=
| JNull
| JBool (b : bool)
| JNum (n : N)
| JStr (s : string)
| JArr (items : list json)
| JObj (fields : list (string * json)).

(** Property access [v.k]; [None] is JavaScript's [undefined]. *)
Fixpoint assoc (k : string) (fields : list (string * json)) : option json :=
  match fields with
  | [] => None
  | (k', v) :: rest => if String.eqb k k' then Some v else assoc k rest
  end.

Definition get (k : string) (v : json) : option json :=
  match v with
  | JObj fields => assoc k fields
  | _ => None
  end.

(** Text handed to the outside.  [JSON.stringify(v, null, space)] is kept
    symbolic: the text records the value that is serialised ([space = 0] is
    the one-argument call). *)
Inductive Text : Type :=
| Lit (s : string)
| JSON_stringify (v : json) (space : N).

(* ================================================================== *)
(** * Interaction programs *)
(* ================================================================== *)

(** A thrown [Error], identified by its message. *)
Definition Error := string.

(** A settled promise: fulfilled with a value or rejected with an error. *)
Inductive Result (A : Type) : Type :=
| Ok (a : A)
| Err (e : Error).
Arguments Ok {A} a.
Arguments Err {A} e.

Definition is_ok {A} (r : Result A) : bool :=
  match r with Ok _ => true | Err _ => false end.

Section Programs.

(** The signature of outside calls: [E T] is a call answered by a [T]. *)
Context {E : Type → Type}.

Inductive Prog (A : Type) : Type :=
| Ret (a : A)
| Throw (e : Error)
| Vis {T : Type} (c : E T) (k : Result T → Prog A).

Global Arguments Ret {A} a.
Global Arguments Throw {A} e.
Global Arguments Vis {A T} c k.

Fixpoint bind {A B} (p : Prog A) (f : A → Prog B) : Prog B :=
  match p with
  | Ret a => f a
  | Throw e => Throw e
  | Vis c k => Vis c (λ r, bind (k r) f)
  end.

(** [try { p } catch (error) { handler error }] *)
Fixpoint try_catch {A} (p : Prog A) (handler : Error → Prog A) : Prog A :=
  match p with
  | Ret a => Ret a
  | Throw e => handler e
  | Vis c k => Vis c (λ r, try_catch (k r) handler)
  end.

(** [await c]: a rejection is rethrown at the await. *)
Definition await {T} (c : E T) : Prog T :=
  Vis c (λ r, match r with Ok v => Ret v | Err e => Throw e end).

(** A call whose completion the caller does not look at
    ([console.log], [core.setFailed]). *)
Definition perform {T} (c : E T) : Prog unit :=
  Vis c (λ _, Ret tt).

(** [if (b) throw new Error(e)] *)
Definition throw_if (b : bool) (e : Error) : Prog unit :=
  if b then Throw e else Ret tt.

(** ** [Promise.all(xs.map(async x => ... await c x ...))]

    Every mapped function runs up to its await, so every call is issued, in
    list order, before any answer is looked at.  [Promise.all] then fulfils
    with the results in list order, or rejects.  Which rejection wins when
    several calls fail depends on completion times; the model takes the
    first one in list order. *)
Fixpoint issue_all {T} (cs : list (E T)) : Prog (list (Result T)) :=
  match cs with
  | [] => Ret []
  | c :: cs' => Vis c (λ r, bind (issue_all cs') (λ rs, Ret (r :: rs)))
  end.

Fixpoint gather {T} (rs : list (Result T)) : Result (list T) :=
  match rs with
  | [] => Ok []
  | Ok v :: rs' =>
      match gather rs' with
      | Ok vs => Ok (v :: vs)
      | Err e => Err e
      end
  | Err e :: _ => Err e
  end.

Definition Promise_all {T} (cs : list (E T)) : Prog (list T) :=
  bind (issue_all cs)
       (λ rs, match gather rs with Ok vs => Ret vs | Err e => Throw e end).

(** ** Local variables that survive a throw

    A [let] variable declared before a [try] block and assigned inside it
    keeps its last value when the block throws.  [Local S A] is a program
    over such variables [S]: it returns their values together with either
    its result or the error it threw. *)
Definition Local (S A : Type) : Type := S → Prog (S * Result A).

Fixpoint lift {S A} (p : Prog A) : Local S A :=
  λ s,
    match p with
    | Ret a => Ret (s, Ok a)
    | Throw e => Ret (s, Err e)
    | Vis c k => Vis c (λ r, lift (k r) s)
    end.

Definition local_ret {S A} (a : A) : Local S A := λ s, Ret (s, Ok a).

Definition local_bind {S A B} (m : Local S A) (f : A → Local S B)
  : Local S B :=
  λ s, bind (m s)
         (λ sr, match sr with
                | (s', Ok a) => f a s'
                | (s', Err e) => Ret (s', Err e)
                end).

(** [x = v] *)
Definition assign {S} (v : S) : Local S unit := λ _, Ret (v, Ok tt).

(** Reading the variables. *)
Definition current {S} : Local S S := λ s, Ret (s, Ok s).

(** [try { body } catch (error) { handler error }] over local variables. *)
Definition local_try {S A} (body : Local S A) (handler : Error → Local S A)
  : Local S A :=
  λ s, bind (body s)
         (λ sr, match sr with
                | (s', Ok a) => Ret (s', Ok a)
                | (s', Err e) => handler e s'
                end).

(** [let x = s0; m; ... x ...]: the block [m] run from the initial values,
    giving the final values; an error that leaves the block is rethrown. *)
Definition with_locals {S A} (s0 : S) (m : Local S A) : Prog (S * A) :=
  bind (m s0)
       (λ sr, match sr with
              | (s', Ok a) => Ret (s', a)
              | (_, Err e) => Throw e
              end).

(** ** Running a program *)

(** One entry of a trace: a call and the answer it got. *)
Record Event : Type := event {
  ev_type : Type;
  ev_call : E ev_type;
  ev_result : Result ev_type
}.

(** The outside world: it answers every call and moves to a new state. *)
Definition Handler (W : Type) : Type := ∀ T, E T → W → W * Result T.

Record Run (W A : Type) : Type := mkRun {
  final : W;
  trace : list Event;
  outcome : Result A
}.
Global Arguments mkRun {W A} _ _ _.
Global Arguments final {W A} _.
Global Arguments trace {W A} _.
Global Arguments outcome {W A} _.

(** The value a run returned, if it returned one. *)
Definition outcome_value {W A} (r : Run W A) : option A :=
  match outcome r with
  | Ok a => Some a
  | Err _ => None
  end.

(** The events [tr] followed by the run [r] of what comes next. *)
Definition after_events {W A} (tr : list Event) (r : Run W A) : Run W A :=
  let 'mkRun w t o := r in mkRun w (tr ++ t) o.

Fixpoint exec {W A} (h : Handler W) (p : Prog A) (w : W) : Run W A :=
  match p with
  | Ret a => mkRun w [] (Ok a)
  | Throw e => mkRun w [] (Err e)
  | Vis c k =>
      let '(w1, r) := h _ c w in
      after_events [event _ c r] (exec h (k r) w1)
  end.

End Programs.

Global Arguments Prog E A : clear implicits.
Global Arguments Event E : clear implicits.
Global Arguments Handler E W : clear implicits.

Global Instance Prog_ret {E} : MRet (Prog E) := λ A a, Ret a.
Global Instance Prog_bind {E} : MBind (Prog E) := λ A B f p, bind p f.
Global Instance Local_ret {E S} : MRet (@Local E S) := λ A a, local_ret a.
Global Instance Local_bind {E S} : MBind (@Local E S) :=
  λ A B f m, local_bind m f.

(* ================================================================== *)
(** * Reading traces *)
(* ================================================================== *)

(** [precedes p q tr]: every event of [tr] that satisfies [q] comes after an
    event that satisfies [p]. *)
Fixpoint precedes_from {X} (seen : bool) (p q : X → bool) (tr : list X)
  : bool :=
  match tr with
  | [] => true
  | x :: tr' => (if q x then seen else true)
                && precedes_from (seen || p x) p q tr'
  end.

Definition precedes {X} (p q : X → bool) (tr : list X) : bool :=
  precedes_from false p q tr.

(** The number of events that satisfy [p]. *)
Fixpoint count {X} (p : X → bool) (tr : list X) : nat :=
  match tr with
  | [] => 0
  | x :: tr' => (if p x then 1 else 0) + count p tr'
  end.

(** The first thing [f] finds in a trace. *)
Definition first_of {X Y} (f : X → option Y) (tr : list X) : option Y :=
  head (omap f tr).

(* ================================================================== *)
(** * The file-operations tool server ([github-file-ops-server.ts]) *)
(* ================================================================== *)

Module FileOps.

(** ** What the server talks to *)

Inductive Method : Type := GET | POST | PATCH.

Definition Method_eqb (a b : Method) : bool :=
  match a, b with
  | GET, GET | POST, POST | PATCH, PATCH => true
  | _, _ => false
  end.

(** The argument of [fetch(url, { method, headers, body })]. *)
Record Request : Type := {
  url : string;
  method : Method;
  headers : list (string * string);
  body : option Text
}.

(** What the handlers read of a fetch response: [.ok], [.status],
    [await .text()] and [await .json()]. *)
Record Response : Type := {
  ok : bool;
  status : N;
  text : string;
  json_body : json
}.

(** The two outside calls of the handlers. *)
Inductive Call : Type → Type :=
| Fetch (req : Request) : Call Response
| ReadFile (path : string) (encoding : string) : Call string.

(** The response types the source declares. *)
Record GitHubRef : Type := { object_sha : string }.
Record GitHubCommit : Type := { tree_sha : string }.
Record GitHubTree : Type := { sha : string }.
Record GitHubNewCommit : Type := {
  new_sha : string;
  new_message : string;
  author_name : string;
  author_date : string
}.

Definition get_str (k : string) (v : json) : option string :=
  match get k v with
  | Some (JStr s) => Some s
  | _ => None
  end.

(** [(await response.json()) as T] followed by the field reads of the
    source.  The cast trusts the host; for a body that is not of the
    declared type the model raises the [TypeError] that reading a field of
    [undefined] raises. *)
Definition decode {E A} (o : option A) : Prog E A :=
  match o with
  | Some a => Ret a
  | None => Throw "Cannot read properties of undefined"
  end.

Definition as_GitHubRef (v : json) : option GitHubRef :=
  o ← get "object" v; s ← get_str "sha" o; Some {| object_sha := s |}.

Definition as_GitHubCommit (v : json) : option GitHubCommit :=
  t ← get "tree" v; s ← get_str "sha" t; Some {| tree_sha := s |}.

Definition as_GitHubTree (v : json) : option GitHubTree :=
  s ← get_str "sha" v; Some {| sha := s |}.

Definition as_GitHubNewCommit (v : json) : option GitHubNewCommit :=
  s ← get_str "sha" v;
  m ← get_str "message" v;
  a ← get "author" v;
  n ← get_str "name" a;
  d ← get_str "date" a;
  Some {| new_sha := s; new_message := m; author_name := n; author_date := d |}.

(** The value a request carries in its body. *)
Definition sent (req : Request) : json :=
  match body req with
  | Some (JSON_stringify v _) => v
  | _ => JNull
  end.

(** ** Process environment *)

(** [GITHUB_API_URL] is imported from [../github/api/config], and [join]
    from node's [path]; both are taken as given. *)
Record Env : Type := {
  GITHUB_API_URL : string;
  REPO_OWNER : string;
  REPO_NAME : string;
  BRANCH_NAME : string;
  env_REPO_DIR : option string;
  env_GITHUB_TOKEN : option string;
  cwd : string;
  join : string → string → string
}.

(** [process.env.REPO_DIR || process.cwd()] *)
Definition REPO_DIR (env : Env) : string :=
  JS.or_else (env_REPO_DIR env) (cwd env).

(** ** Tool results *)

Record ContentItem : Type := { type_ : string; text_ : Text }.

(** The object a tool handler returns; a success object has no [error]
    and no [isError] field. *)
Record ToolResult : Type := {
  content : list ContentItem;
  error : option string;
  isError : bool
}.

(** A tree entry as the handlers build it. *)
Inductive EntryData : Type :=
| content_ (c : string)
| sha_null.

Record TreeEntry : Type := {
  path : string;
  mode : string;
  type : string;
  data : EntryData
}.

Definition TreeEntry_json (e : TreeEntry) : json :=
  JObj [ ("path", JStr (path e));
         ("mode", JStr (mode e));
         ("type", JStr (type e));
         match data e with
         | content_ c => ("content", JStr c)
         | sha_null => ("sha", JNull)
         end ].

Definition path_json (p : string) : json := JObj [("path", JStr p)].

(** ** The tool handlers *)

Section Handlers.

Variable env : Env.

(** [const githubToken = process.env.GITHUB_TOKEN;
     if (!githubToken) throw new Error(...)] *)
Definition required_token : Prog Call string :=
  if JS.truthy_opt (env_GITHUB_TOKEN env)
  then Ret (default "" (env_GITHUB_TOKEN env))
  else Throw "GITHUB_TOKEN environment variable is required".

(** The header objects of the GET requests and of the POST and PATCH
    requests. *)
Definition read_headers (githubToken : string) : list (string * string) :=
  [ ("Accept", "application/vnd.github+json");
    ("Authorization", "Bearer " +:+ githubToken);
    ("X-GitHub-Api-Version", "2022-11-28") ].

Definition write_headers (githubToken : string) : list (string * string) :=
  [ ("Accept", "application/vnd.github+json");
    ("Authorization", "Bearer " +:+ githubToken);
    ("X-GitHub-Api-Version", "2022-11-28");
    ("Content-Type", "application/json") ].

(** The object returned from the [catch] block of every handler. *)
Definition error_result (errorMessage : string) : ToolResult :=
  {| content := [ {| type_ := "text";
                     text_ := Lit ("Error: " +:+ errorMessage) |} ];
     error := Some errorMessage;
     isError := true |}.

(** The object returned at the end of the [try] block. *)
Definition success_result (simplifiedResult : json) : ToolResult :=
  {| content := [ {| type_ := "text";
                     text_ := JSON_stringify simplifiedResult 2 |} ];
     error := None;
     isError := false |}.

Definition repo_url (owner repo : string) : string :=
  GITHUB_API_URL env +:+ "/repos/" +:+ owner +:+ "/" +:+ repo.

(** [files.map(filePath => filePath.startsWith("/") ? filePath.slice(1) : filePath)] *)
Definition strip_leading_slash (filePath : string) : string :=
  if JS.startsWith filePath "/" then JS.slice 1 filePath else filePath.

(** [filePath.startsWith("/") ? filePath : join(REPO_DIR, filePath)] *)
Definition fullPath (filePath : string) : string :=
  if JS.startsWith filePath "/" then filePath
  else join env (REPO_DIR env) filePath.

Definition blob_entry (filePath content : string) : TreeEntry :=
  {| path := filePath; mode := "100644"; type := "blob";
     data := content_ content |}.

Definition deletion_entry (p : string) : TreeEntry :=
  {| path := p; mode := "100644"; type := "blob"; data := sha_null |}.

(** [server.tool("commit_files", ..., async ({ files, message }) => ...)] *)
Definition commit_files (files : list string) (message : string)
  : Prog Call ToolResult :=
  let owner := REPO_OWNER env in
  let repo := REPO_NAME env in
  let branch := BRANCH_NAME env in
  try_catch
    (githubToken ← required_token;
     let processedFiles := strip_leading_slash <$> files in
     (* 1. Get the branch reference *)
     let refUrl := repo_url owner repo +:+ "/git/refs/heads/" +:+ branch in
     refResponse ← await (Fetch {| url := refUrl; method := GET;
                                    headers := read_headers githubToken;
                                    body := None |});
     throw_if (negb (ok refResponse))
       ("Failed to get branch reference: " +:+ pretty (status refResponse));;
     refData ← decode (as_GitHubRef (json_body refResponse));
     let baseSha := object_sha refData in
     (* 2. Get the base commit *)
     let commitUrl := repo_url owner repo +:+ "/git/commits/" +:+ baseSha in
     commitResponse ← await (Fetch {| url := commitUrl; method := GET;
                                       headers := read_headers githubToken;
                                       body := None |});
     throw_if (negb (ok commitResponse))
       ("Failed to get base commit: " +:+ pretty (status commitResponse));;
     commitData ← decode (as_GitHubCommit (json_body commitResponse));
     let baseTreeSha := tree_sha commitData in
     (* 3. Create tree entries for all files *)
     contents ← Promise_all
       ((λ filePath, ReadFile (fullPath filePath) "utf-8") <$> processedFiles);
     let treeEntries := zip_with blob_entry processedFiles contents in
     (* 4. Create a new tree *)
     let treeUrl := repo_url owner repo +:+ "/git/trees" in
     treeResponse ← await (Fetch {|
       url := treeUrl; method := POST;
       headers := write_headers githubToken;
       body := Some (JSON_stringify
                 (JObj [ ("base_tree", JStr baseTreeSha);
                         ("tree", JArr (TreeEntry_json <$> treeEntries)) ]) 0) |});
     throw_if (negb (ok treeResponse))
       ("Failed to create tree: " +:+ pretty (status treeResponse)
          +:+ " - " +:+ text treeResponse);;
     treeData ← decode (as_GitHubTree (json_body treeResponse));
     (* 5. Create a new commit *)
     let newCommitUrl := repo_url owner repo +:+ "/git/commits" in
     newCommitResponse ← await (Fetch {|
       url := newCommitUrl; method := POST;
       headers := write_headers githubToken;
       body := Some (JSON_stringify
                 (JObj [ ("message", JStr message);
                         ("tree", JStr (sha treeData));
                         ("parents", JArr [JStr baseSha]) ]) 0) |});
     throw_if (negb (ok newCommitResponse))
       ("Failed to create commit: " +:+ pretty (status newCommitResponse)
          +:+ " - " +:+ text newCommitResponse);;
     newCommitData ← decode (as_GitHubNewCommit (json_body newCommitResponse));
     (* 6. Update the reference to point to the new commit *)
     let updateRefUrl := repo_url owner repo +:+ "/git/refs/heads/" +:+ branch in
     updateRefResponse ← await (Fetch {|
       url := updateRefUrl; method := PATCH;
       headers := write_headers githubToken;
       body := Some (JSON_stringify
                 (JObj [ ("sha", JStr (new_sha newCommitData));
                         ("force", JBool false) ]) 0) |});
     throw_if (negb (ok updateRefResponse))
       ("Failed to update reference: " +:+ pretty (status updateRefResponse)
          +:+ " - " +:+ text updateRefResponse);;
     let simplifiedResult :=
       JObj [ ("commit", JObj [ ("sha", JStr (new_sha newCommitData));
                                ("message", JStr (new_message newCommitData));
                                ("author", JStr (author_name newCommitData));
                                ("date", JStr (author_date newCommitData)) ]);
              ("files", JArr (path_json <$> processedFiles));
              ("tree", JObj [ ("sha", JStr (sha treeData)) ]) ] in
     Ret (success_result simplifiedResult))
    (λ errorMessage, Ret (error_result errorMessage)).

(** The callback of [paths.map] in [delete_files]; [Err] is its [throw]. *)
Definition relative_to_cwd (filePath : string) : Result string :=
  if JS.startsWith filePath "/" then
    if JS.startsWith filePath (cwd env) then
      (* Strip CWD from absolute path *)
      Ok (JS.slice (String.length (cwd env) + 1) filePath)
    else
      Err ("Path '" +:+ filePath +:+
           "' must be relative to repository root or within current working directory")
  else Ok filePath.

(** A synchronous [xs.map(f)] whose callback may throw: the first throw, in
    list order, ends the map. *)
Definition map_or_throw {A B} (f : A → Result B) (xs : list A)
  : Prog Call (list B) :=
  match gather (f <$> xs) with
  | Ok ys => Ret ys
  | Err e => Throw e
  end.

(** [server.tool("delete_files", ..., async ({ paths, message }) => ...)] *)
Definition delete_files (paths : list string) (message : string)
  : Prog Call ToolResult :=
  let owner := REPO_OWNER env in
  let repo := REPO_NAME env in
  let branch := BRANCH_NAME env in
  try_catch
    (githubToken ← required_token;
     (* Convert absolute paths to relative if they match CWD *)
     processedPaths ← map_or_throw relative_to_cwd paths;
     (* 1. Get the branch reference *)
     let refUrl := repo_url owner repo +:+ "/git/refs/heads/" +:+ branch in
     refResponse ← await (Fetch {| url := refUrl; method := GET;
                                    headers := read_headers githubToken;
                                    body := None |});
     throw_if (negb (ok refResponse))
       ("Failed to get branch reference: " +:+ pretty (status refResponse));;
     refData ← decode (as_GitHubRef (json_body refResponse));
     let baseSha := object_sha refData in
     (* 2. Get the base commit *)
     let commitUrl := repo_url owner repo +:+ "/git/commits/" +:+ baseSha in
     commitResponse ← await (Fetch {| url := commitUrl; method := GET;
                                       headers := read_headers githubToken;
                                       body := None |});
     throw_if (negb (ok commitResponse))
       ("Failed to get base commit: " +:+ pretty (status commitResponse));;
     commitData ← decode (as_GitHubCommit (json_body commitResponse));
     let baseTreeSha := tree_sha commitData in
     (* 3. Create tree entries for file deletions (setting SHA to null) *)
     let treeEntries := deletion_entry <$> processedPaths in
     (* 4. Create a new tree with deletions *)
     let treeUrl := repo_url owner repo +:+ "/git/trees" in
     treeResponse ← await (Fetch {|
       url := treeUrl; method := POST;
       headers := write_headers githubToken;
       body := Some (JSON_stringify
                 (JObj [ ("base_tree", JStr baseTreeSha);
                         ("tree", JArr (TreeEntry_json <$> treeEntries)) ]) 0) |});
     throw_if (negb (ok treeResponse))
       ("Failed to create tree: " +:+ pretty (status treeResponse)
          +:+ " - " +:+ text treeResponse);;
     treeData ← decode (as_GitHubTree (json_body treeResponse));
     (* 5. Create a new commit *)
     let newCommitUrl := repo_url owner repo +:+ "/git/commits" in
     newCommitResponse ← await (Fetch {|
       url := newCommitUrl; method := POST;
       headers := write_headers githubToken;
       body := Some (JSON_stringify
                 (JObj [ ("message", JStr message);
                         ("tree", JStr (sha treeData));
                         ("parents", JArr [JStr baseSha]) ]) 0) |});
     throw_if (negb (ok newCommitResponse))
       ("Failed to create commit: " +:+ pretty (status newCommitResponse)
          +:+ " - " +:+ text newCommitResponse);;
     newCommitData ← decode (as_GitHubNewCommit (json_body newCommitResponse));
     (* 6. Update the reference to point to the new commit *)
     let updateRefUrl := repo_url owner repo +:+ "/git/refs/heads/" +:+ branch in
     updateRefResponse ← await (Fetch {|
       url := updateRefUrl; method := PATCH;
       headers := write_headers githubToken;
       body := Some (JSON_stringify
                 (JObj [ ("sha", JStr (new_sha newCommitData));
                         ("force", JBool false) ]) 0) |});
     throw_if (negb (ok updateRefResponse))
       ("Failed to update reference: " +:+ pretty (status updateRefResponse)
          +:+ " - " +:+ text updateRefResponse);;
     let simplifiedResult :=
       JObj [ ("commit", JObj [ ("sha", JStr (new_sha newCommitData));
                                ("message", JStr (new_message newCommitData));
                                ("author", JStr (author_name newCommitData));
                                ("date", JStr (author_date newCommitData)) ]);
              ("deletedFiles", JArr (path_json <$> processedPaths));
              ("tree", JObj [ ("sha", JStr (sha treeData)) ]) ] in
     Ret (success_result simplifiedResult))
    (λ errorMessage, Ret (error_result errorMessage)).

(** ** The protocol in the words of the specification

    Section 4.1 describes one six-step protocol for both operations.
    [commit_protocol] follows that description; step 3, which produces the
    tree entries, is the part in which the write path and the delete path
    differ.  [key] names the list of affected paths in the result. *)
Definition commit_protocol (githubToken : string)
    (step3 : Prog Call (list TreeEntry)) (message : string)
    (key : string) (affected : list string) : Prog Call ToolResult :=
  (* 1. resolve the branch to its current tip *)
  refResponse ← await (Fetch {|
    url := repo_url (REPO_OWNER env) (REPO_NAME env)
             +:+ "/git/refs/heads/" +:+ BRANCH_NAME env;
    method := GET; headers := read_headers githubToken; body := None |});
  throw_if (negb (ok refResponse))
    ("Failed to get branch reference: " +:+ pretty (status refResponse));;
  refData ← decode (as_GitHubRef (json_body refResponse));
  let baseSha := object_sha refData in
  (* 2. resolve the tip to its tree *)
  commitResponse ← await (Fetch {|
    url := repo_url (REPO_OWNER env) (REPO_NAME env)
             +:+ "/git/commits/" +:+ baseSha;
    method := GET; headers := read_headers githubToken; body := None |});
  throw_if (negb (ok commitResponse))
    ("Failed to get base commit: " +:+ pretty (status commitResponse));;
  commitData ← decode (as_GitHubCommit (json_body commitResponse));
  let baseTreeSha := tree_sha commitData in
  (* 3. the tree entries *)
  treeEntries ← step3;
  (* 4. submit the base tree plus the entries *)
  treeResponse ← await (Fetch {|
    url := repo_url (REPO_OWNER env) (REPO_NAME env) +:+ "/git/trees";
    method := POST; headers := write_headers githubToken;
    body := Some (JSON_stringify
              (JObj [ ("base_tree", JStr baseTreeSha);
                      ("tree", JArr (TreeEntry_json <$> treeEntries)) ]) 0) |});
  throw_if (negb (ok treeResponse))
    ("Failed to create tree: " +:+ pretty (status treeResponse)
       +:+ " - " +:+ text treeResponse);;
  treeData ← decode (as_GitHubTree (json_body treeResponse));
  (* 5. create the commit on top of the tip *)
  newCommitResponse ← await (Fetch {|
    url := repo_url (REPO_OWNER env) (REPO_NAME env) +:+ "/git/commits";
    method := POST; headers := write_headers githubToken;
    body := Some (JSON_stringify
              (JObj [ ("message", JStr message);
                      ("tree", JStr (sha treeData));
                      ("parents", JArr [JStr baseSha]) ]) 0) |});
  throw_if (negb (ok newCommitResponse))
    ("Failed to create commit: " +:+ pretty (status newCommitResponse)
       +:+ " - " +:+ text newCommitResponse);;
  newCommitData ← decode (as_GitHubNewCommit (json_body newCommitResponse));
  (* 6. advance the branch, fast-forward only *)
  updateRefResponse ← await (Fetch {|
    url := repo_url (REPO_OWNER env) (REPO_NAME env)
             +:+ "/git/refs/heads/" +:+ BRANCH_NAME env;
    method := PATCH; headers := write_headers githubToken;
    body := Some (JSON_stringify
              (JObj [ ("sha", JStr (new_sha newCommitData));
                      ("force", JBool false) ]) 0) |});
  throw_if (negb (ok updateRefResponse))
    ("Failed to update reference: " +:+ pretty (status updateRefResponse)
       +:+ " - " +:+ text updateRefResponse);;
  Ret (success_result
         (JObj [ ("commit", JObj [ ("sha", JStr (new_sha newCommitData));
                                   ("message", JStr (new_message newCommitData));
                                   ("author", JStr (author_name newCommitData));
                                   ("date", JStr (author_date newCommitData)) ]);
                 (key, JArr (path_json <$> affected));
                 ("tree", JObj [ ("sha", JStr (sha treeData)) ]) ])).

(** Step 3 of the write path: every file is read from local storage. *)
Definition read_entries (processedFiles : list string)
  : Prog Call (list TreeEntry) :=
  contents ← Promise_all
    ((λ filePath, ReadFile (fullPath filePath) "utf-8") <$> processedFiles);
  Ret (zip_with blob_entry processedFiles contents).

(** Step 3 of the delete path: no reads, the entries come from the paths. *)
Definition deletion_entries (processedPaths : list string)
  : Prog Call (list TreeEntry) :=
  Ret (deletion_entry <$> processedPaths).

(** The write path and the delete path as instances of the protocol. *)
Definition write_path (files : list string) (message : string)
  : Prog Call ToolResult :=
  try_catch
    (githubToken ← required_token;
     let processedFiles := strip_leading_slash <$> files in
     commit_protocol githubToken (read_entries processedFiles) message
       "files" processedFiles)
    (λ errorMessage, Ret (error_result errorMessage)).

Definition delete_path (paths : list string) (message : string)
  : Prog Call ToolResult :=
  try_catch
    (githubToken ← required_token;
     processedPaths ← map_or_throw relative_to_cwd paths;
     commit_protocol githubToken (deletion_entries processedPaths) message
       "deletedFiles" processedPaths)
    (λ errorMessage, Ret (error_result errorMessage)).

(** The two tools of the commit engine, as the server registers them. *)
Inductive ToolCall : Type :=
| call_commit_files (files : list string) (message : string)
| call_delete_files (paths : list string) (message : string).

Definition invoke (c : ToolCall) : Prog Call ToolResult :=
  match c with
  | call_commit_files files message => commit_files files message
  | call_delete_files paths message => delete_files paths message
  end.

End Handlers.

(** ** Reading the traces of the tool handlers *)

Definition request_of (ev : Event Call) : option Request :=
  match ev_call ev with
  | Fetch req => Some req
  | ReadFile _ _ => None
  end.

Definition response_of (ev : Event Call) : option Response :=
  match ev with
  | event _ c r =>
      match c in Call T return Result T → option Response with
      | Fetch _ => λ r, match r with Ok x => Some x | Err _ => None end
      | ReadFile _ _ => λ _, None
      end r
  end.

Definition is_fetch (ev : Event Call) : bool :=
  match ev_call ev with Fetch _ => true | ReadFile _ _ => false end.

Definition is_read (ev : Event Call) : bool :=
  match ev_call ev with Fetch _ => false | ReadFile _ _ => true end.

Definition settled (ev : Event Call) : bool := is_ok (ev_result ev).

(** The path and the content of a local read that succeeded. *)
Definition read_content (ev : Event Call) : option (string * string) :=
  match ev with
  | event _ c r =>
      match c in Call T return Result T → option (string * string) with
      | ReadFile p _ => λ r, match r with
                             | Ok content => Some (p, content)
                             | Err _ => None
                             end
      | Fetch _ => λ _, None
      end r
  end.

(** A local read that failed. *)
Definition read_failed (ev : Event Call) : bool :=
  is_read ev && negb (settled ev).

(** A request with method [m]. *)
Definition sends (m : Method) (ev : Event Call) : bool :=
  match request_of ev with
  | Some req => Method_eqb (method req) m
  | None => false
  end.

(** A request that asks the host to change something: a tree creation, a
    commit creation or a ref update. *)
Definition is_write (ev : Event Call) : bool :=
  sends POST ev || sends PATCH ev.

(** The ref update of step 6. *)
Definition is_ref_update (ev : Event Call) : bool := sends PATCH ev.

(** The host answered the request with a response that is [ok]. *)
Definition answered_ok (ev : Event Call) : bool :=
  match response_of ev with
  | Some resp => ok resp
  | None => false
  end.

(** The host answered the request with a response that is not [ok]. *)
Definition answered_not_ok (ev : Event Call) : bool :=
  match response_of ev with
  | Some resp => negb (ok resp)
  | None => false
  end.

Definition refused_update (ev : Event Call) : bool :=
  is_ref_update ev && answered_not_ok ev.

Definition accepted_update (ev : Event Call) : bool :=
  is_ref_update ev && answered_ok ev.

(** The [force] flag a ref update carries. *)
Definition force_flag (req : Request) : option bool :=
  match get "force" (sent req) with
  | Some (JBool b) => Some b
  | _ => None
  end.

(** If the event is a ref update, it carries [force: false]. *)
Definition not_forced (ev : Event Call) : bool :=
  match request_of ev with
  | Some req =>
      if Method_eqb (method req) PATCH
      then bool_decide (force_flag req = Some false)
      else true
  | None => true
  end.

(** The error a handler reports for a ref update that was refused. *)
Definition refusal_message (ev : Event Call) : string :=
  match response_of ev with
  | Some resp =>
      "Failed to update reference: " +:+ pretty (status resp)
        +:+ " - " +:+ text resp
  | None => ""
  end.

(** The tree request of step 4 and what it carries. *)
Definition is_tree_request (ev : Event Call) : bool :=
  sends POST ev
  && match request_of ev with
     | Some req => match get "base_tree" (sent req) with
                   | Some _ => true
                   | None => false
                   end
     | None => false
     end.

Definition submitted_tree (ev : Event Call) : option (list json) :=
  match request_of ev with
  | Some req =>
      match get "tree" (sent req) with
      | Some (JArr entries) => Some entries
      | _ => None
      end
  | None => None
  end.

Definition submitted_paths (ev : Event Call) : option (list string) :=
  match submitted_tree ev with
  | Some entries => Some (omap (get_str "path") entries)
  | None => None
  end.



(** The events after the first one that satisfies [p]. *)
Fixpoint after {X} (p : X → bool) (tr : list X) : list X :=
  match tr with
  | [] => []
  | x :: tr' => if p x then tr' else after p tr'
  end.

End FileOps.

(* ================================================================== *)
(** * The prepare pipeline ([prepare.ts], [install-mcp-server.ts]) *)
(* ================================================================== *)

Module Prepare.

(** ** Data *)

Record Repository : Type := { owner : string; repo : string }.

(** The parsed event, as far as [run] reads it. *)
Record Context : Type := {
  repository : Repository;
  entityNumber : N;
  isPR : bool;
  actor : string;
  payload : json
}.

(** [createOctokit(githubToken)] *)
Record Octokits : Type := { auth : string }.

Definition createOctokit (githubToken : string) : Octokits :=
  {| auth := githubToken |}.

(** The snapshot [fetchGitHubData] returns; [run] only passes it on. *)
Definition GitHubData : Type := json.

Record BranchInfo : Type := {
  defaultBranch : string;
  currentBranch : string;
  claudeBranch : option string
}.

Record PullRequest : Type := { number : N }.

(** ** The collaborators of [run]

    None of them is in the sources of this development; [run] is embedded
    over their calls, and a handler decides what each of them does. *)
Inductive Call : Type → Type :=
| setupGitHubToken : Call string
| parseGitHubContext : Call Context
| checkWritePermissions (octokit : Octokits) (context : Context) : Call bool
| checkTriggerAction (context : Context) : Call bool
| checkHumanActor (octokit : Octokits) (context : Context) : Call unit
| createInitialComment (octokit : Octokits) (context : Context) : Call N
| fetchGitHubData (octokits : Octokits) (repository : string)
    (prNumber : string) (isPR : bool) : Call GitHubData
| setupBranch (octokit : Octokits) (githubData : GitHubData)
    (context : Context) : Call BranchInfo
| pulls_list (owner repo head state : string) : Call (list PullRequest)
| issues_createComment (owner repo : string) (issue_number : N)
    (body : string) : Call N
| core_exportVariable (name value : string) : Call unit
| updateTrackingComment (octokit : Octokits) (context : Context)
    (commentId : N) (branch : string) : Call unit
| createPrompt (finalCommentId : N) (defaultBranch : string)
    (claudeBranch : option string) (githubData : GitHubData)
    (context : Context) : Call unit
| core_setOutput (name : string) (value : Text) : Call unit
| core_setFailed (message : string) : Call unit
| console_log (message : string) : Call unit.

(** The process environment [prepareMcpConfig] reads. *)
Record ProcessEnv : Type := {
  GITHUB_ACTION_PATH : option string;
  GITHUB_WORKSPACE : option string;
  process_cwd : string
}.

(** How the process of [run] ends: it runs to its end, or it is stopped by
    [process.exit(code)]. *)
Inductive Termination : Type :=
| Completed
| Exited (code : N).

Definition dquote : string := String (Ascii.ascii_of_nat 34) EmptyString.
Definition newline : string := String (Ascii.ascii_of_nat 10) EmptyString.

(** The body of the comment created on a discovered pull request. *)
Definition working_body : string :=
  "🤖 Claude is working on this..." +:+ newline +:+ newline
  +:+ "<img src=" +:+ dquote
  +:+ "https://github.com/user-attachments/assets/5ac382c7-e004-429b-8e35-7feb3e8f9c6f"
  +:+ dquote +:+ " width=" +:+ dquote +:+ "14px" +:+ dquote
  +:+ " height=" +:+ dquote +:+ "14px" +:+ dquote
  +:+ " style=" +:+ dquote +:+ "vertical-align: middle; margin-left: 4px;"
  +:+ dquote +:+ " />".

(** A value interpolated into a template string: [undefined] prints as
    itself. *)
Definition interpolate (o : option string) : string := default "undefined" o.

(** [`${error}`] for a thrown [Error]. *)
Definition String_of_error (e : Error) : string := "Error: " +:+ e.

Section Pipeline.

Variable penv : ProcessEnv.

(** [prepareMcpConfig] of [install-mcp-server.ts].  Its [try] block builds
    an object literal and serialises it, which cannot throw, so the [catch]
    block is not reachable. *)
Definition prepareMcpConfig (githubToken owner repo branch : string) : Text :=
  let mcpConfig :=
    JObj [ ("mcpServers", JObj [
      ("github_file_ops", JObj [
         ("command", JStr "bun");
         ("args", JArr [ JStr "run";
                         JStr (interpolate (GITHUB_ACTION_PATH penv)
                               +:+ "/src/mcp/github-file-ops-server.ts") ]);
         ("env", JObj [
            ("GITHUB_TOKEN", JStr githubToken);
            ("REPO_OWNER", JStr owner);
            ("REPO_NAME", JStr repo);
            ("BRANCH_NAME", JStr branch);
            ("REPO_DIR", JStr (JS.or_else (GITHUB_WORKSPACE penv)
                                          (process_cwd penv))) ]) ]) ]) ] in
  JSON_stringify mcpConfig 2.

(** Step 9 of [run]: the block that may replace [finalCommentId]. *)
Definition redirect (octokit : Octokits) (context : Context)
    (branchInfo : BranchInfo) : Local N unit :=
  (* If we created a new branch for an issue and there's a PR, create a new
     comment on the PR *)
  if JS.truthy_opt (claudeBranch branchInfo) && negb (isPR context) then
    (* Check if a PR exists for this branch *)
    local_try
      (prs ← lift (await (pulls_list
                 (owner (repository context))
                 (repo (repository context))
                 (owner (repository context) +:+ ":"
                    +:+ interpolate (claudeBranch branchInfo))
                 "open"));
       match prs with
       | pr0 :: _ =>
           (* PR exists, create a new comment on the PR *)
           let prNumber := number pr0 in
           lift (perform (console_log
             ("Found PR #" +:+ pretty prNumber +:+ " for branch "
                +:+ interpolate (claudeBranch branchInfo)
                +:+ ", creating new comment")));;
           prCommentResponse_data_id ← lift (await (issues_createComment
               (owner (repository context))
               (repo (repository context))
               prNumber
               working_body));
           assign prCommentResponse_data_id;;
           finalCommentId ← current;
           lift (perform (console_log
             ("✅ Created new PR comment with ID: " +:+ pretty finalCommentId)));;
           (* Update environment variable for downstream steps *)
           lift (await (core_exportVariable "CLAUDE_COMMENT_ID"
                          (pretty finalCommentId)))
       | [] => mret tt
       end)
      (λ error,
         lift (perform (console_log
           ("No PR found for branch "
              +:+ interpolate (claudeBranch branchInfo)
              +:+ ", using original comment"))))
  else mret tt.

(** [async function run()] *)
Definition run : Prog Call Termination :=
  try_catch
    ((* Step 1: Setup GitHub token *)
     githubToken ← await setupGitHubToken;
     let octokit := createOctokit githubToken in
     (* Step 2: Parse GitHub context (once for all operations) *)
     context ← await parseGitHubContext;
     (* Step 3: Check write permissions *)
     hasWritePermissions ← await (checkWritePermissions octokit context);
     throw_if (negb hasWritePermissions)
       "Actor does not have write permissions to the repository";;
     (* Step 4: Check trigger conditions *)
     containsTrigger ← await (checkTriggerAction context);
     if negb containsTrigger then
       perform (console_log "No trigger found, skipping remaining steps");;
       Ret Completed
     else
     (* Step 5: Check if actor is human *)
     await (checkHumanActor octokit context);;
     (* Step 6: Create initial tracking comment *)
     commentId ← await (createInitialComment octokit context);
     (* Step 7: Fetch GitHub data (once for both branch setup and prompt creation) *)
     githubData ← await (fetchGitHubData octokit
                    (owner (repository context) +:+ "/"
                       +:+ repo (repository context))
                    (pretty (entityNumber context))
                    (isPR context));
     (* Step 8: Setup branch *)
     branchInfo ← await (setupBranch octokit githubData context);
     (* Step 9: Determine the correct comment ID to use *)
     '(finalCommentId, _) ← with_locals commentId
                              (redirect octokit context branchInfo);
     (* Step 10: Update initial comment with branch link (only for issues that
        created a new branch) *)
     (if JS.truthy_opt (claudeBranch branchInfo)
         && N.eqb finalCommentId commentId
      then
        (* Only update the original comment if we didn't create a new PR
           comment *)
        await (updateTrackingComment octokit context commentId
                 (interpolate (claudeBranch branchInfo)))
      else Ret tt);;
     (* Step 11: Create prompt file *)
     await (createPrompt finalCommentId (defaultBranch branchInfo)
              (claudeBranch branchInfo) githubData context);;
     (* Step 11: Get MCP configuration *)
     let mcpConfig := prepareMcpConfig githubToken
                        (owner (repository context))
                        (repo (repository context))
                        (currentBranch branchInfo) in
     await (core_setOutput "mcp_config" mcpConfig);;
     Ret Completed)
    (λ error,
       perform (core_setFailed
         ("Prepare step failed with error: " +:+ String_of_error error));;
       Ret (Exited 1)).

End Pipeline.

End Prepare.

(* ================================================================== *)
(** * A reference world for the tool server *)
(* ================================================================== *)

Module World.

Import FileOps.

(** [strip_prefix p s] is the rest of [s] after its prefix [p]. *)
Fixpoint strip_prefix (p s : string) : option string :=
  match p, s with
  | EmptyString, _ => Some s
  | String a p', String b s' =>
      if Ascii.eqb a b then strip_prefix p' s' else None
  | String _ _, EmptyString => None
  end.

Record CommitObject : Type := {
  c_tree : string;
  c_parents : list string;
  c_message : string
}.

(** Modelled from the spec: the repository host behind [fetch], which is
    not part of the sources.  It keeps the branch refs, the commit objects
    and the trees (a tree maps a path to its content); a tree request merges
    its entries into the base tree, an entry with a null content reference
    removing its path; a ref update that is not forced is accepted only if
    the new commit's recorded parent equals the ref's current value.
    [inbox] is the schedule of the other writers of the repository: before
    the host serves a request, the next slot of the schedule is played, and a
    slot [Some (b, s)] moves branch [b] to commit [s]. *)
Record GitHost : Type := {
  api_root : string;
  h_owner : string;
  h_repo : string;
  refs : gmap string string;
  commits : gmap string CommitObject;
  trees : gmap string (gmap string string);
  minted : N;
  committer : string;
  clock : string;
  inbox : list (option (string * string))
}.

Definition with_refs (r : gmap string string) (g : GitHost) : GitHost :=
  {| api_root := api_root g; h_owner := h_owner g; h_repo := h_repo g;
     refs := r; commits := commits g; trees := trees g;
     minted := minted g; committer := committer g; clock := clock g;
     inbox := inbox g |}.

Definition with_inbox (i : list (option (string * string))) (g : GitHost)
  : GitHost :=
  {| api_root := api_root g; h_owner := h_owner g; h_repo := h_repo g;
     refs := refs g; commits := commits g; trees := trees g;
     minted := minted g; committer := committer g; clock := clock g;
     inbox := i |}.

Definition add_tree (id : string) (t : gmap string string) (g : GitHost)
  : GitHost :=
  {| api_root := api_root g; h_owner := h_owner g; h_repo := h_repo g;
     refs := refs g; commits := commits g; trees := <[id := t]> (trees g);
     minted := N.succ (minted g); committer := committer g; clock := clock g;
     inbox := inbox g |}.

Definition add_commit (id : string) (c : CommitObject) (g : GitHost)
  : GitHost :=
  {| api_root := api_root g; h_owner := h_owner g; h_repo := h_repo g;
     refs := refs g; commits := <[id := c]> (commits g); trees := trees g;
     minted := N.succ (minted g); committer := committer g; clock := clock g;
     inbox := inbox g |}.

(** The other writers' turn. *)
Definition arrive (g : GitHost) : GitHost :=
  match inbox g with
  | [] => g
  | None :: rest => with_inbox rest g
  | Some (b, s) :: rest => with_inbox rest (with_refs (<[b := s]> (refs g)) g)
  end.

Inductive Endpoint : Type :=
| RefOf (branch : string)
| CommitOf (sha : string)
| Commits
| Trees
| Unknown.

Definition route (g : GitHost) (u : string) : Endpoint :=
  match strip_prefix (api_root g +:+ "/repos/" +:+ h_owner g +:+ "/"
                        +:+ h_repo g +:+ "/git/") u with
  | Some rest =>
      match strip_prefix "refs/heads/" rest with
      | Some b => RefOf b
      | None =>
          match strip_prefix "commits/" rest with
          | Some s => CommitOf s
          | None =>
              if String.eqb rest "commits" then Commits
              else if String.eqb rest "trees" then Trees
              else Unknown
          end
      end
  | None => Unknown
  end.

Definition reply (code : N) (v : json) : Response :=
  {| ok := true; status := code; text := ""; json_body := v |}.

Definition refuse (code : N) (why : string) : Response :=
  {| ok := false; status := code; text := why;
     json_body := JObj [("message", JStr why)] |}.

(** One entry of a tree request merged into a tree. *)
Definition merge_entry (t : option (gmap string string)) (e : json)
  : option (gmap string string) :=
  t ← t;
  p ← get_str "path" e;
  match get "content" e, get "sha" e with
  | Some (JStr c), _ => Some (<[p := c]> t)
  | None, Some JNull => Some (delete p t)
  | _, _ => None
  end.

Definition fast_forward (cur : string) (c : CommitObject) : bool :=
  existsb (String.eqb cur) (c_parents c).

Definition strings_of (v : json) : list string :=
  match v with
  | JArr items =>
      omap (λ i, match i with JStr s => Some s | _ => None end) items
  | _ => []
  end.

(** The host's answer to one request, in the state the other writers left. *)
Definition respond (g : GitHost) (req : Request) : GitHost * Response :=
  match method req, route g (url req) with
  | GET, RefOf b =>
      match refs g !! b with
      | Some s =>
          (g, reply 200 (JObj [ ("ref", JStr ("refs/heads/" +:+ b));
                                ("object", JObj [("sha", JStr s)]) ]))
      | None => (g, refuse 404 "Not Found")
      end
  | GET, CommitOf s =>
      match commits g !! s with
      | Some c =>
          (g, reply 200 (JObj [ ("sha", JStr s);
                                ("tree", JObj [("sha", JStr (c_tree c))]);
                                ("message", JStr (c_message c)) ]))
      | None => (g, refuse 404 "Not Found")
      end
  | POST, Trees =>
      match get "tree" (sent req) with
      | Some (JArr entries) =>
          let base := b ← get_str "base_tree" (sent req); trees g !! b in
          match foldl merge_entry base entries with
          | Some t =>
              let id := "tree-" +:+ pretty (minted g) in
              (add_tree id t g, reply 201 (JObj [("sha", JStr id)]))
          | None => (g, refuse 422 "Invalid tree")
          end
      | _ => (g, refuse 422 "Invalid request")
      end
  | POST, Commits =>
      match get_str "message" (sent req), get_str "tree" (sent req),
            get "parents" (sent req) with
      | Some m, Some t, Some ps =>
          match trees g !! t with
          | Some _ =>
              let id := "commit-" +:+ pretty (minted g) in
              let c := {| c_tree := t; c_parents := strings_of ps;
                          c_message := m |} in
              (add_commit id c g,
               reply 201 (JObj [ ("sha", JStr id);
                                 ("message", JStr m);
                                 ("author", JObj [ ("name", JStr (committer g));
                                                   ("date", JStr (clock g)) ]) ]))
          | None => (g, refuse 422 "Tree SHA does not exist")
          end
      | _, _, _ => (g, refuse 422 "Invalid request")
      end
  | PATCH, RefOf b =>
      match get_str "sha" (sent req), get "force" (sent req) with
      | Some s, Some (JBool force) =>
          match refs g !! b, commits g !! s with
          | Some cur, Some c =>
              if force || fast_forward cur c then
                (with_refs (<[b := s]> (refs g)) g,
                 reply 200 (JObj [ ("ref", JStr ("refs/heads/" +:+ b));
                                   ("object", JObj [("sha", JStr s)]) ]))
              else (g, refuse 422 "Update is not a fast forward")
          | None, _ => (g, refuse 422 "Reference does not exist")
          | _, None => (g, refuse 422 "Object does not exist")
          end
      | _, _ => (g, refuse 422 "Invalid request")
      end
  | _, _ => (g, refuse 404 "Not Found")
  end.

(** The host serves the repository the tool server is configured for. *)
Definition serves (env : Env) (g : GitHost) : Prop :=
  api_root g = GITHUB_API_URL env
  ∧ h_owner g = REPO_OWNER env
  ∧ h_repo g = REPO_NAME env.

(** The host after [n] turns of the other writers and no request at all. *)
Definition others_only (n : nat) (g : GitHost) : GitHost :=
  Nat.iter n arrive g.

(** The world of a tool call: the host and the local disk of the server. *)
Record world : Type := {
  host : GitHost;
  disk : gmap string string
}.

Definition serve : Handler Call world :=
  λ T c,
    match c in Call T return world → world * Result T with
    | Fetch req => λ w,
        let '(g, resp) := respond (arrive (host w)) req in
        ({| host := g; disk := disk w |}, Ok resp)
    | ReadFile p _ => λ w,
        match disk w !! p with
        | Some c => (w, Ok c)
        | None =>
            (w, Err ("ENOENT: no such file or directory, open '" +:+ p +:+ "'"))
        end
    end.

End World.

(* ================================================================== *)
(** * Concrete worlds *)
(* ================================================================== *)

Module Demo.

Import FileOps World.

Definition env : Env :=
  {| GITHUB_API_URL := "https://api.github.com";
     REPO_OWNER := "octo";
     REPO_NAME := "demo";
     BRANCH_NAME := "claude/issue-7";
     env_REPO_DIR := Some "/work";
     env_GITHUB_TOKEN := Some "t0ken";
     cwd := "/work";
     join := λ a b, a +:+ "/" +:+ b |}.

(** A repository whose branch points at commit [c0] with tree [t0]. *)
Definition quiet : GitHost :=
  {| api_root := "https://api.github.com";
     h_owner := "octo";
     h_repo := "demo";
     refs := {[ "claude/issue-7" := "c0" ]};
     commits := {[ "c0" := {| c_tree := "t0"; c_parents := [];
                              c_message := "init" |};
                   "c9" := {| c_tree := "t0"; c_parents := ["c0"];
                              c_message := "someone else" |} ]};
     trees := {[ "t0" := {[ "README.md" := "hello" ]} ]};
     minted := 1;
     committer := "claude";
     clock := "2025-01-01T00:00:00Z";
     inbox := [] |}.

(** The same repository with another writer who moves the branch to [c9]
    after this server has read the ref and the base commit. *)
Definition raced : GitHost :=
  with_inbox [None; None; Some ("claude/issue-7", "c9")] quiet.

Definition on_disk : gmap string string :=
  {[ "/work/src/a.ts" := "export {}" ]}.

Definition calm : world := {| host := quiet; disk := on_disk |}.
Definition busy : world := {| host := raced; disk := on_disk |}.

(** A commit of one file while the other writer moves the branch. *)
Definition raced_commit : Run world ToolResult :=
  exec serve (invoke env (call_commit_files ["src/a.ts"] "msg")) busy.

(** A commit of two files, the second of which is not on the disk. *)
Definition missing_file_commit : Run world ToolResult :=
  exec serve (commit_files env ["src/a.ts"; "missing.ts"] "msg") calm.

(** A commit of a file named with a leading separator. *)
Definition rooted_commit : Run world ToolResult :=
  exec serve (commit_files env ["/src/a.ts"] "msg") calm.

(** A commit of no file. *)
Definition empty_commit : Run world ToolResult :=
  exec serve (commit_files env [] "msg") calm.


Definition outside_delete : Run world ToolResult :=
  exec serve (delete_files env ["/a.txt"] "msg") calm.

Definition absent_delete : Run world ToolResult :=
  exec serve (delete_files env ["nothere.txt"] "msg") calm.

End Demo.

(* ================================================================== *)
(** * Scripted collaborators for the pipeline *)
(* ================================================================== *)

Module Script.

Import Prepare.

(** What each collaborator answers in one run of the pipeline. *)
Record Answers : Type := {
  token : Result string;
  parsed : Result Context;
  writer : Result bool;
  triggered : Result bool;
  human : Result unit;
  posted : Result N;
  fetched : Result GitHubData;
  branched : Result BranchInfo;
  open_prs : Result (list PullRequest);
  pr_comment : Result N;
  exported : Result unit;
  linked : Result unit;
  prompted : Result unit;
  output : Result unit
}.

Definition answer (a : Answers) : Handler Call unit :=
  λ T c,
    match c in Call T return unit → unit * Result T with
    | setupGitHubToken => λ w, (w, token a)
    | parseGitHubContext => λ w, (w, parsed a)
    | checkWritePermissions _ _ => λ w, (w, writer a)
    | checkTriggerAction _ => λ w, (w, triggered a)
    | checkHumanActor _ _ => λ w, (w, human a)
    | createInitialComment _ _ => λ w, (w, posted a)
    | fetchGitHubData _ _ _ _ => λ w, (w, fetched a)
    | setupBranch _ _ _ => λ w, (w, branched a)
    | pulls_list _ _ _ _ => λ w, (w, open_prs a)
    | issues_createComment _ _ _ _ => λ w, (w, pr_comment a)
    | core_exportVariable _ _ => λ w, (w, exported a)
    | updateTrackingComment _ _ _ _ => λ w, (w, linked a)
    | createPrompt _ _ _ _ _ => λ w, (w, prompted a)
    | core_setOutput _ _ => λ w, (w, output a)
    | core_setFailed _ => λ w, (w, Ok tt)
    | console_log _ => λ w, (w, Ok tt)
    end.

Definition penv : ProcessEnv :=
  {| GITHUB_ACTION_PATH := Some "/action";
     GITHUB_WORKSPACE := Some "/work";
     process_cwd := "/work" |}.

Definition issue7 : Context :=
  {| repository := {| owner := "octo"; repo := "demo" |};
     entityNumber := 7;
     isPR := false;
     actor := "alice";
     payload := JNull |}.


Definition new_branch : BranchInfo :=
  {| defaultBranch := "main";
     currentBranch := "claude/issue-7";
     claudeBranch := Some "claude/issue-7" |}.


(** An issue event, a new branch, and an open pull request #12 for it. *)
Definition with_open_pr : Answers :=
  {| token := Ok "t0ken";
     parsed := Ok issue7;
     writer := Ok true;
     triggered := Ok true;
     human := Ok tt;
     posted := Ok 100%N;
     fetched := Ok JNull;
     branched := Ok new_branch;
     open_prs := Ok [ {| number := 12 |} ];
     pr_comment := Ok 200%N;
     exported := Ok tt;
     linked := Ok tt;
     prompted := Ok tt;
     output := Ok tt |}.



Definition set_posted (r : Result N) (a : Answers) : Answers :=
  {| token := token a; parsed := parsed a; writer := writer a;
     triggered := triggered a; human := human a; posted := r;
     fetched := fetched a; branched := branched a; open_prs := open_prs a;
     pr_comment := pr_comment a; exported := exported a; linked := linked a;
     prompted := prompted a; output := output a |}.

Definition set_gates (w t : Result bool) (a : Answers) : Answers :=
  {| token := token a; parsed := parsed a; writer := w;
     triggered := t; human := human a; posted := posted a;
     fetched := fetched a; branched := branched a; open_prs := open_prs a;
     pr_comment := pr_comment a; exported := exported a; linked := linked a;
     prompted := prompted a; output := output a |}.





(** Creating the initial tracking comment fails. *)
Definition initial_comment_down : Answers :=
  set_posted (Err "Resource not accessible by integration") with_open_pr.


(** The actor may write, the trigger phrase is absent. *)
Definition no_trigger : Answers := set_gates (Ok true) (Ok false) with_open_pr.

(** The actor may not write, and the trigger phrase is absent as well. *)
Definition no_permission : Answers :=
  set_gates (Ok false) (Ok false) with_open_pr.

(** The pipeline played against the answers [a]. *)
Definition play (a : Answers) : Run unit Termination :=
  exec (answer a) (run penv) tt.

End Script.

(* ================================================================== *)
(** * A reference comment service for the pipeline *)
(* ================================================================== *)

Module Board.

Import Prepare Script.








End Board.

(* ================================================================== *)
(** * Reading the traces of the pipeline *)
(* ================================================================== *)

Module PipelineTrace.

Import Prepare.

(** The answer of a gate that answers yes or no. *)
Definition gate_answer (ev : Event Call) : option bool :=
  match ev with
  | event _ c r =>
      match c in Call T return Result T → option bool with
      | checkWritePermissions _ _ | checkTriggerAction _ =>
          λ r, match r with Ok b => Some b | Err _ => None end
      | _ => λ _, None
      end r
  end.

Definition is_permission_check (ev : Event Call) : bool :=
  match ev_call ev with checkWritePermissions _ _ => true | _ => false end.

Definition is_trigger_check (ev : Event Call) : bool :=
  match ev_call ev with checkTriggerAction _ => true | _ => false end.

Definition permission_granted (ev : Event Call) : bool :=
  is_permission_check ev && bool_decide (gate_answer ev = Some true).

Definition permission_denied (ev : Event Call) : bool :=
  is_permission_check ev && bool_decide (gate_answer ev = Some false).

Definition trigger_absent (ev : Event Call) : bool :=
  is_trigger_check ev && bool_decide (gate_answer ev = Some false).

(** The steps after the trigger gate: the human-actor check, the tracking
    comment, the data fetch, the branch setup, the redirect, the link, the
    prompt and the MCP configuration. *)
Definition downstream (ev : Event Call) : bool :=
  match ev_call ev with
  | checkHumanActor _ _ | createInitialComment _ _ | fetchGitHubData _ _ _ _
  | setupBranch _ _ _ | pulls_list _ _ _ _ | issues_createComment _ _ _ _
  | core_exportVariable _ _ | updateTrackingComment _ _ _ _
  | createPrompt _ _ _ _ _ | core_setOutput _ _ => true
  | _ => false
  end.

Definition is_failure_report (ev : Event Call) : bool :=
  match ev_call ev with core_setFailed _ => true | _ => false end.

Definition rejected (ev : Event Call) : bool := negb (is_ok (ev_result ev)).


Definition is_initial_comment (ev : Event Call) : bool :=
  match ev_call ev with createInitialComment _ _ => true | _ => false end.

Definition is_pr_comment (ev : Event Call) : bool :=
  match ev_call ev with issues_createComment _ _ _ _ => true | _ => false end.

Definition is_link (ev : Event Call) : bool :=
  match ev_call ev with updateTrackingComment _ _ _ _ => true | _ => false end.

Definition is_prompt (ev : Event Call) : bool :=
  match ev_call ev with createPrompt _ _ _ _ _ => true | _ => false end.

(** A comment is created: the initial one or the one on a pull request. *)
Definition creates_comment (ev : Event Call) : bool :=
  is_initial_comment ev || is_pr_comment ev.

(** A comment is created or edited. *)
Definition writes_comment (ev : Event Call) : bool :=
  creates_comment ev || is_link ev.



(** What the collaborators answered. *)
Definition parsed_context (ev : Event Call) : option Context :=
  match ev with
  | event _ c r =>
      match c in Call T return Result T → option Context with
      | parseGitHubContext =>
          λ r, match r with Ok x => Some x | Err _ => None end
      | _ => λ _, None
      end r
  end.

Definition resolved_branch (ev : Event Call) : option BranchInfo :=
  match ev with
  | event _ c r =>
      match c in Call T return Result T → option BranchInfo with
      | setupBranch _ _ _ =>
          λ r, match r with Ok x => Some x | Err _ => None end
      | _ => λ _, None
      end r
  end.

Definition initial_comment_id (ev : Event Call) : option N :=
  match ev with
  | event _ c r =>
      match c in Call T return Result T → option N with
      | createInitialComment _ _ =>
          λ r, match r with Ok x => Some x | Err _ => None end
      | _ => λ _, None
      end r
  end.

Definition pr_comment_id (ev : Event Call) : option N :=
  match ev with
  | event _ c r =>
      match c in Call T return Result T → option N with
      | issues_createComment _ _ _ _ =>
          λ r, match r with Ok x => Some x | Err _ => None end
      | _ => λ _, None
      end r
  end.


(** The log line of the [catch] block of the redirect step. *)
Definition is_fallback_log (ev : Event Call) : bool :=
  match ev_call ev with
  | console_log m => JS.startsWith m "No PR found for branch "
  | _ => false
  end.

(** The failure annotation [m] is set. *)
Definition reports (m : string) (ev : Event Call) : bool :=
  match ev_call ev with
  | core_setFailed m' => String.eqb m' m
  | _ => false
  end.

(** The failure annotation of a run stopped at the permission gate. *)
Definition denial : string :=
  "Prepare step failed with error: Error: Actor does not have write permissions to the repository".

(** A call of kind [k] that was rejected. *)
Definition failed (k : Event Call → bool) (ev : Event Call) : bool :=
  k ev && rejected ev.

(** The comment id handed to the prompt step. *)
Definition handed_off (ev : Event Call) : option N :=
  match ev_call ev with
  | createPrompt id _ _ _ _ => Some id
  | _ => None
  end.

End PipelineTrace.

(* ================================================================== *)
(** * The issue and pull-request tools ([github-file-ops-server.ts]) *)
(* ================================================================== *)

Module IssueTools.

Import FileOps.

(** ** Values typed [any]

    The response bodies of these tools are typed [any], so every property
    read is a run-time read.  [None] is [undefined]. *)

Global Instance Result_ret : MRet Result := λ A a, Ok a.
Global Instance Result_bind : MBind Result :=
  λ A B f r, match r with Ok a => f a | Err e => Err e end.

(** [v.k]: reading a property of [null] throws a [TypeError]; an object has
    the property or not; a number, a string, a boolean and an array have none
    of the properties these tools read. *)
Definition prop (k : string) (v : json) : Result (option json) :=
  match v with
  | JNull => Err ("Cannot read properties of null (reading '" +:+ k +:+ "')")
  | _ => Ok (get k v)
  end.

(** [v.k1.k2] *)
Definition prop2 (k1 k2 : string) (v : json) : Result (option json) :=
  u ← prop k1 v;
  match u with
  | Some u => prop k2 u
  | None =>
      Err ("Cannot read properties of undefined (reading '" +:+ k2 +:+ "')")
  end.

(** [v.map(f)]: only an array has [map]; the first callback that throws ends
    the map. *)
Definition map_any {B} (name : string) (f : json → Result B) (v : option json)
  : Result (list B) :=
  match v with
  | Some (JArr items) => gather (f <$> items)
  | Some JNull =>
      Err "Cannot read properties of null (reading 'map')"
  | None =>
      Err "Cannot read properties of undefined (reading 'map')"
  | Some _ => Err (name +:+ ".map is not a function")
  end.

(** An object literal as [JSON.stringify] writes it: a property whose value
    is [undefined] is left out. *)
Definition literal (fields : list (string * option json)) : json :=
  JObj (omap (λ kv, match kv.2 with
                    | Some v => Some (kv.1, v)
                    | None => None
                    end) fields).

(** An array as [JSON.stringify] writes it: [undefined] is written [null]. *)
Definition array (items : list (option json)) : json :=
  JArr (default JNull <$> items).

(** A synchronous expression that may throw, inside an [async] function. *)
Definition eval {A} (r : Result A) : Prog Call A :=
  match r with
  | Ok a => Ret a
  | Err e => Throw e
  end.

(** Truthiness of a number: zero is falsy. *)
Definition truthy_number (n : N) : bool := negb (N.eqb n 0).

(** ** [URLSearchParams]

    The parameters in the order they were appended; [toString] is the
    [application/x-www-form-urlencoded] serialisation of the bytes of each
    name and value: letters, digits, [*], [-], [.] and [_] stand for
    themselves, a space is written [+], and every other byte is written [%]
    and two upper-case hexadecimal digits. *)
Definition URLSearchParams : Type := list (string * string).

Definition is_form_safe (c : Ascii.ascii) : bool :=
  let n := Ascii.N_of_ascii c in
  (N.leb 48 n && N.leb n 57) || (N.leb 65 n && N.leb n 90)
  || (N.leb 97 n && N.leb n 122)
  || N.eqb n 42 || N.eqb n 45 || N.eqb n 46 || N.eqb n 95.

Definition hex_digit (n : N) : Ascii.ascii :=
  Ascii.ascii_of_N (if N.ltb n 10 then 48 + n else 55 + n).

Definition form_encode_byte (c : Ascii.ascii) : string :=
  let n := Ascii.N_of_ascii c in
  if is_form_safe c then String c EmptyString
  else if N.eqb n 32 then "+"
  else String (Ascii.ascii_of_nat 37)
         (String (hex_digit (n / 16))
            (String (hex_digit (n mod 16)) EmptyString)).

Fixpoint form_encode (s : string) : string :=
  match s with
  | EmptyString => EmptyString
  | String c s' => form_encode_byte c +:+ form_encode s'
  end.

Fixpoint join_with (sep : string) (parts : list string) : string :=
  match parts with
  | [] => ""
  | [p] => p
  | p :: rest => p +:+ sep +:+ join_with sep rest
  end.

Definition URLSearchParams_toString (params : URLSearchParams) : string :=
  join_with "&"
    ((λ kv, form_encode kv.1 +:+ "=" +:+ form_encode kv.2) <$> params).

(** [if (value) params.append(name, value)] *)
Definition append_if_set (name : string) (value : option string)
    (params : URLSearchParams) : URLSearchParams :=
  match value with
  | Some v => if JS.truthy v then (params ++ [(name, v)])%list else params
  | None => params
  end.

(** [if (value) params.append(name, value.toString())] for a number. *)
Definition append_if_nonzero (name : string) (value : option N)
    (params : URLSearchParams) : URLSearchParams :=
  match value with
  | Some n => if truthy_number n then (params ++ [(name, pretty n)])%list else params
  | None => params
  end.

(** [if (value) requestBody[name] = value], on the fields of the body. *)
Definition set_if {A} (truthy : A → bool) (name : string) (as_json : A → json)
    (value : option A) (fields : list (string * json))
  : list (string * json) :=
  match value with
  | Some v => if truthy v then (fields ++ [(name, as_json v)])%list else fields
  | None => fields
  end.

Definition strings_json (xs : list string) : json := JArr (JStr <$> xs).

Section Handlers.

Variable env : Env.

(** The result of a tool that answers with a fixed text. *)
Definition text_result (s : string) : ToolResult :=
  {| content := [ {| type_ := "text"; text_ := Lit s |} ];
     error := None;
     isError := false |}.

(** [server.tool("create_issue", ...,
      async ({ owner, repo, title, body, assignees, labels, milestone }) => ...)] *)
Definition create_issue (owner repo title body : string)
    (assignees labels : option (list string)) (milestone : option N)
  : Prog Call ToolResult :=
  try_catch
    (githubToken ← required_token env;
     let createUrl := repo_url env owner repo +:+ "/issues" in
     let requestBody := [ ("title", JStr title); ("body", JStr body) ] in
     let requestBody :=
       set_if (λ _, true) "assignees" strings_json assignees requestBody in
     let requestBody :=
       set_if (λ _, true) "labels" strings_json labels requestBody in
     let requestBody :=
       set_if truthy_number "milestone" JNum milestone requestBody in
     response ← await (Fetch {|
       url := createUrl; method := POST;
       headers := write_headers githubToken;
       FileOps.body := Some (JSON_stringify (JObj requestBody) 0) |});
     throw_if (negb (ok response))
       ("Failed to create issue: " +:+ pretty (status response)
          +:+ " - " +:+ text response);;
     let result := json_body response in
     result_id ← eval (prop "id" result);
     result_number ← eval (prop "number" result);
     result_title ← eval (prop "title" result);
     result_state ← eval (prop "state" result);
     result_html_url ← eval (prop "html_url" result);
     result_created_at ← eval (prop "created_at" result);
     Ret (success_result
            (literal [ ("id", result_id); ("number", result_number);
                       ("title", result_title); ("state", result_state);
                       ("html_url", result_html_url);
                       ("created_at", result_created_at) ])))
    (λ errorMessage, Ret (error_result errorMessage)).

(** [server.tool("update_issue_comment", ...,
      async ({ owner, repo, commentId, body }) => ...)] *)
Definition update_issue_comment (owner repo commentId body : string)
  : Prog Call ToolResult :=
  try_catch
    (githubToken ← required_token env;
     let updateUrl :=
       repo_url env owner repo +:+ "/issues/comments/" +:+ commentId in
     response ← await (Fetch {|
       url := updateUrl; method := PATCH;
       headers := write_headers githubToken;
       FileOps.body := Some (JSON_stringify (JObj [ ("body", JStr body) ]) 0) |});
     throw_if (negb (ok response))
       ("Failed to update comment: " +:+ pretty (status response)
          +:+ " - " +:+ text response);;
     let result := json_body response in
     Ret (text_result ("Comment " +:+ commentId +:+ " updated successfully")))
    (λ errorMessage, Ret (error_result errorMessage)).

(** [server.tool("create_pull_request", ...,
      async ({ owner, repo, title, body, head, base, draft,
               maintainer_can_modify }) => ...)] *)
Definition create_pull_request (owner repo title body head base : string)
    (draft maintainer_can_modify : option bool)
  : Prog Call ToolResult :=
  try_catch
    (githubToken ← required_token env;
     let createUrl := repo_url env owner repo +:+ "/pulls" in
     let requestBody :=
       [ ("title", JStr title); ("body", JStr body);
         ("head", JStr head); ("base", JStr base) ] in
     (* if (draft !== undefined) requestBody.draft = draft *)
     let requestBody := set_if (λ _, true) "draft" JBool draft requestBody in
     let requestBody :=
       set_if (λ _, true) "maintainer_can_modify" JBool maintainer_can_modify
         requestBody in
     response ← await (Fetch {|
       url := createUrl; method := POST;
       headers := write_headers githubToken;
       FileOps.body := Some (JSON_stringify (JObj requestBody) 0) |});
     throw_if (negb (ok response))
       ("Failed to create pull request: " +:+ pretty (status response)
          +:+ " - " +:+ text response);;
     let result := json_body response in
     result_id ← eval (prop "id" result);
     result_number ← eval (prop "number" result);
     result_title ← eval (prop "title" result);
     result_state ← eval (prop "state" result);
     result_html_url ← eval (prop "html_url" result);
     result_head_ref ← eval (prop2 "head" "ref" result);
     result_base_ref ← eval (prop2 "base" "ref" result);
     result_created_at ← eval (prop "created_at" result);
     Ret (success_result
            (literal [ ("id", result_id); ("number", result_number);
                       ("title", result_title); ("state", result_state);
                       ("html_url", result_html_url);
                       ("head", result_head_ref); ("base", result_base_ref);
                       ("created_at", result_created_at) ])))
    (λ errorMessage, Ret (error_result errorMessage)).

(** The callback of [issues.map] in [list_issues]. *)
Definition simplify_issue (issue : json) : Result json :=
  id ← prop "id" issue;
  number ← prop "number" issue;
  title ← prop "title" issue;
  state ← prop "state" issue;
  html_url ← prop "html_url" issue;
  user ← prop2 "user" "login" issue;
  labels ← (ls ← prop "labels" issue;
            map_any "issue.labels" (prop "name") ls);
  assignees ← (xs ← prop "assignees" issue;
               map_any "issue.assignees" (prop "login") xs);
  created_at ← prop "created_at" issue;
  updated_at ← prop "updated_at" issue;
  comments ← prop "comments" issue;
  Ok (literal [ ("id", id); ("number", number); ("title", title);
                ("state", state); ("html_url", html_url); ("user", user);
                ("labels", Some (array labels));
                ("assignees", Some (array assignees));
                ("created_at", created_at); ("updated_at", updated_at);
                ("comments", comments) ]).

(** The query of [list_issues]: the filters that are set, in the order of
    the source. *)
Definition list_issues_params
    (state labels assignee creator sort direction : option string)
    (per_page page : option N) : URLSearchParams :=
  let params := [] in
  let params := append_if_set "state" state params in
  let params := append_if_set "labels" labels params in
  let params := append_if_set "assignee" assignee params in
  let params := append_if_set "creator" creator params in
  let params := append_if_set "sort" sort params in
  let params := append_if_set "direction" direction params in
  let params := append_if_nonzero "per_page" per_page params in
  let params := append_if_nonzero "page" page params in
  params.

(** [server.tool("list_issues", ...,
      async ({ owner, repo, state, labels, assignee, creator, sort,
               direction, per_page, page }) => ...)] *)
Definition list_issues (owner repo : string)
    (state labels assignee creator sort direction : option string)
    (per_page page : option N)
  : Prog Call ToolResult :=
  try_catch
    (githubToken ← required_token env;
     (* Build query parameters *)
     let params :=
       list_issues_params state labels assignee creator sort direction
         per_page page in
     let listUrl :=
       repo_url env owner repo +:+ "/issues?"
         +:+ URLSearchParams_toString params in
     response ← await (Fetch {|
       url := listUrl; method := GET;
       headers := read_headers githubToken;
       FileOps.body := None |});
     throw_if (negb (ok response))
       ("Failed to list issues: " +:+ pretty (status response)
          +:+ " - " +:+ text response);;
     let issues := json_body response in
     (* Simplify the response *)
     simplifiedIssues ← eval (map_any "issues" simplify_issue (Some issues));
     Ret (success_result (JArr simplifiedIssues)))
    (λ errorMessage, Ret (error_result errorMessage)).

End Handlers.

(** The four tools, as the server registers them. *)
Inductive ToolCall : Type :=
| call_create_issue (owner repo title body : string)
    (assignees labels : option (list string)) (milestone : option N)
| call_update_issue_comment (owner repo commentId body : string)
| call_create_pull_request (owner repo title body head base : string)
    (draft maintainer_can_modify : option bool)
| call_list_issues (owner repo : string)
    (state labels assignee creator sort direction : option string)
    (per_page page : option N).

Definition invoke (env : Env) (c : ToolCall) : Prog Call ToolResult :=
  match c with
  | call_create_issue owner repo title body assignees labels milestone =>
      create_issue env owner repo title body assignees labels milestone
  | call_update_issue_comment owner repo commentId body =>
      update_issue_comment env owner repo commentId body
  | call_create_pull_request owner repo title body head base draft mcm =>
      create_pull_request env owner repo title body head base draft mcm
  | call_list_issues owner repo state labels assignee creator sort direction
      per_page page =>
      list_issues env owner repo state labels assignee creator sort direction
        per_page page
  end.

(** The value a tool serialised into its answer. *)
Definition answered_json (res : ToolResult) : option json :=
  match content res with
  | [ {| type_ := _; text_ := JSON_stringify v _ |} ] => Some v
  | _ => None
  end.

(** The text a tool answered with. *)
Definition answered_text (res : ToolResult) : option string :=
  match content res with
  | [ {| type_ := _; text_ := Lit s |} ] => Some s
  | _ => None
  end.

(** The repository a call names. *)
Definition target (c : ToolCall) : string * string :=
  match c with
  | call_create_issue owner repo _ _ _ _ _
  | call_update_issue_comment owner repo _ _
  | call_create_pull_request owner repo _ _ _ _ _ _
  | call_list_issues owner repo _ _ _ _ _ _ _ _ => (owner, repo)
  end.

(** The error of a call whose request is answered with a response that is
    not [ok]. *)
Definition failure (c : ToolCall) (resp : Response) : string :=
  match c with
  | call_create_issue _ _ _ _ _ _ _ => "Failed to create issue: "
  | call_update_issue_comment _ _ _ _ => "Failed to update comment: "
  | call_create_pull_request _ _ _ _ _ _ _ _ =>
      "Failed to create pull request: "
  | call_list_issues _ _ _ _ _ _ _ _ _ _ => "Failed to list issues: "
  end +:+ pretty (status resp) +:+ " - " +:+ text resp.

Definition is_listing (c : ToolCall) : bool :=
  match c with
  | call_list_issues _ _ _ _ _ _ _ _ _ _ => true
  | _ => false
  end.







(** The fields of the answers of [create_issue] and of
    [create_pull_request] that are read off the response body as they
    are. *)
Definition issue_fields : list string :=
  ["id"; "number"; "title"; "state"; "html_url"; "created_at"].

Definition pull_request_fields : list string :=
  ["id"; "number"; "title"; "state"; "html_url"].

End IssueTools.

(* ================================================================== *)
(** * Reading the requests of the tool server *)
(* ================================================================== *)

Module ToolTrace.

Import FileOps.

(** The requests of a trace with their answers, in order. *)
Definition fetches (tr : list (Event Call)) : list (Event Call) :=
  List.filter is_fetch tr.

Definition methods (tr : list (Event Call)) : list Method :=
  method <$> omap request_of tr.

(** A request that got no usable answer: the call was rejected, or the
    response is not [ok]. *)
Definition unanswered (ev : Event Call) : bool :=
  is_fetch ev && negb (answered_ok ev).

(** The error of a request that was rejected. *)
Definition rejection (ev : Event Call) : option Error :=
  match ev with
  | event _ c r =>
      match c in Call T return Result T → option Error with
      | Fetch _ => λ r, match r with Ok _ => None | Err e => Some e end
      | ReadFile _ _ => λ _, None
      end r
  end.

(** The events before the first one that satisfies [p]. *)
Fixpoint before {X} (p : X → bool) (tr : list X) : list X :=
  match tr with
  | [] => []
  | x :: tr' => if p x then [] else x :: before p tr'
  end.

(** [l] is an initial segment of [full]. *)
Fixpoint starts (l full : list Method) : bool :=
  match l, full with
  | [], _ => true
  | a :: l', b :: full' => Method_eqb a b && starts l' full'
  | _ :: _, [] => false
  end.

(** The five requests of the commit protocol. *)
Definition protocol_methods : list Method := [GET; GET; POST; POST; PATCH].







Definition header (name : string) (req : Request) : option string :=
  snd <$> List.find (λ kv, String.eqb kv.1 name) (headers req).

(** The error message of the [i]-th request of the protocol when its
    answer is not [ok]. *)
Definition step_error (i : nat) (resp : Response) : string :=
  match i with
  | 0 => "Failed to get branch reference: " +:+ pretty (status resp)
  | 1 => "Failed to get base commit: " +:+ pretty (status resp)
  | 2 => "Failed to create tree: " +:+ pretty (status resp)
           +:+ " - " +:+ text resp
  | 3 => "Failed to create commit: " +:+ pretty (status resp)
           +:+ " - " +:+ text resp
  | _ => "Failed to update reference: " +:+ pretty (status resp)
           +:+ " - " +:+ text resp
  end.

(** The paths of the local reads of a trace, and what was read. *)
Definition read_path (ev : Event Call) : option string :=
  match ev_call ev with
  | ReadFile p _ => Some p
  | Fetch _ => None
  end.

Definition contents_read (tr : list (Event Call)) : list string :=
  snd <$> omap read_content tr.

End ToolTrace.

(* ================================================================== *)
(** * The start of the tool server ([github-file-ops-server.ts]) *)
(* ================================================================== *)

Module Server.

Import FileOps.

(** The variables of the process environment that the server reads. *)
Record ProcessVars : Type := {
  var_REPO_OWNER : option string;
  var_REPO_NAME : option string;
  var_BRANCH_NAME : option string;
  var_REPO_DIR : option string;
  var_GITHUB_TOKEN : option string
}.

(** How the module-level code ends: with [process.exit(code)] after a
    complaint on [console.error], or with the tools registered over the
    constants it read. *)
Inductive Startup : Type :=
| Refused (complaint : string) (code : N)
| Registered (env : Env).

(** The module-level code: the constants are read, and the server refuses
    to start without an owner, a repository name and a branch name.
    [GITHUB_TOKEN] is read by each tool call. *)
Definition startup (api_url working_directory : string)
    (path_join : string → string → string) (vars : ProcessVars) : Startup :=
  if negb (JS.truthy_opt (var_REPO_OWNER vars))
     || negb (JS.truthy_opt (var_REPO_NAME vars))
     || negb (JS.truthy_opt (var_BRANCH_NAME vars))
  then
    Refused
      "Error: REPO_OWNER, REPO_NAME, and BRANCH_NAME environment variables are required"
      1
  else
    Registered {| GITHUB_API_URL := api_url;
                  REPO_OWNER := default "" (var_REPO_OWNER vars);
                  REPO_NAME := default "" (var_REPO_NAME vars);
                  BRANCH_NAME := default "" (var_BRANCH_NAME vars);
                  env_REPO_DIR := var_REPO_DIR vars;
                  env_GITHUB_TOKEN := var_GITHUB_TOKEN vars;
                  cwd := working_directory;
                  join := path_join |}.

(** The variables that a configuration written by [prepareMcpConfig] sets
    for the [github_file_ops] server: the [env] block of its entry. *)
Definition configured_vars (config : Text) : option ProcessVars :=
  match config with
  | JSON_stringify v _ =>
      match get "mcpServers" v with
      | Some servers =>
          match get "github_file_ops" servers with
          | Some entry =>
              match get "env" entry with
              | Some e =>
                  Some {| var_REPO_OWNER := get_str "REPO_OWNER" e;
                          var_REPO_NAME := get_str "REPO_NAME" e;
                          var_BRANCH_NAME := get_str "BRANCH_NAME" e;
                          var_REPO_DIR := get_str "REPO_DIR" e;
                          var_GITHUB_TOKEN := get_str "GITHUB_TOKEN" e |}
              | None => None
              end
          | None => None
          end
      | None => None
      end
  | Lit _ => None
  end.

(** The command line of the [github_file_ops] entry. *)
Definition configured_command (config : Text) : option (list json) :=
  match config with
  | JSON_stringify v _ =>
      match get "mcpServers" v with
      | Some servers =>
          match get "github_file_ops" servers with
          | Some entry =>
              match get "command" entry, get "args" entry with
              | Some c, Some (JArr args) => Some (c :: args)
              | _, _ => None
              end
          | None => None
          end
      | None => None
      end
  | Lit _ => None
  end.

(** Every tool of the server. *)
Inductive Tool : Type :=
| engine_tool (c : FileOps.ToolCall)
| issue_tool (c : IssueTools.ToolCall).

Definition call_tool (env : Env) (t : Tool) : Prog Call ToolResult :=
  match t with
  | engine_tool c => FileOps.invoke env c
  | issue_tool c => IssueTools.invoke env c
  end.

End Server.

(* ================================================================== *)
(** * Reading the steps of the pipeline *)
(* ================================================================== *)

Module PipelineSteps.

Import Prepare PipelineTrace.

(** The step of [run] a call belongs to, in the order of the source; the
    log lines have no step of their own. *)
Definition stage (ev : Event Call) : option nat :=
  match ev_call ev with
  | setupGitHubToken => Some 1
  | parseGitHubContext => Some 2
  | checkWritePermissions _ _ => Some 3
  | checkTriggerAction _ => Some 4
  | checkHumanActor _ _ => Some 5
  | createInitialComment _ _ => Some 6
  | fetchGitHubData _ _ _ _ => Some 7
  | setupBranch _ _ _ => Some 8
  | pulls_list _ _ _ _ => Some 9
  | issues_createComment _ _ _ _ => Some 10
  | core_exportVariable _ _ => Some 11
  | updateTrackingComment _ _ _ _ => Some 12
  | createPrompt _ _ _ _ _ => Some 13
  | core_setOutput _ _ => Some 14
  | core_setFailed _ => Some 15
  | console_log _ => None
  end.

Definition stages (tr : list (Event Call)) : list nat := omap stage tr.

Fixpoint ascending (l : list nat) : bool :=
  match l with
  | a :: (b :: _) as rest => Nat.ltb a b && ascending rest
  | _ => true
  end.

(** The steps up to the branch setup that were taken are the first ones,
    with none left out. *)
Definition gapless (l : list nat) : bool :=
  let early := List.filter (λ k, Nat.leb k 8) l in
  bool_decide (early = seq 1 (length early)).







Definition token_obtained (ev : Event Call) : option string :=
  match ev with
  | event _ c r =>
      match c in Call T return Result T → option string with
      | setupGitHubToken =>
          λ r, match r with Ok x => Some x | Err _ => None end
      | _ => λ _, None
      end r
  end.

Definition is_output (ev : Event Call) : bool :=
  match ev_call ev with core_setOutput _ _ => true | _ => false end.

Definition output_set (ev : Event Call) : option (string * Text) :=
  match ev_call ev with
  | core_setOutput name value => Some (name, value)
  | _ => None
  end.

Definition is_export (ev : Event Call) : bool :=
  match ev_call ev with core_exportVariable _ _ => true | _ => false end.

Definition exported (ev : Event Call) : option (string * string) :=
  match ev_call ev with
  | core_exportVariable name value => Some (name, value)
  | _ => None
  end.

Definition is_human_check (ev : Event Call) : bool :=
  match ev_call ev with checkHumanActor _ _ => true | _ => false end.

(** The human-actor check was made and passed. *)
Definition human_passed (ev : Event Call) : bool :=
  is_human_check ev && is_ok (ev_result ev).

(** The trigger check answered that the phrase is there. *)
Definition trigger_present (ev : Event Call) : bool :=
  is_trigger_check ev && bool_decide (gate_answer ev = Some true).

(** What the prompt step is given. *)
Definition prompt_given (ev : Event Call)
  : option (N * string * option string * GitHubData * Context) :=
  match ev_call ev with
  | createPrompt id d c g ctx => Some (id, d, c, g, ctx)
  | _ => None
  end.

Definition data_fetched (ev : Event Call) : option GitHubData :=
  match ev with
  | event _ c r =>
      match c in Call T return Result T → option GitHubData with
      | fetchGitHubData _ _ _ _ =>
          λ r, match r with Ok x => Some x | Err _ => None end
      | _ => λ _, None
      end r
  end.

End PipelineSteps.

(* ================================================================== *)
(** * Sample hosts and runs for the issue tools and the pipeline *)
(* ================================================================== *)

Module Samples.

Import FileOps.

(** A host that answers every request with the same response, and a disk
    without files. *)
Definition answering (resp : Response) : Handler Call unit :=
  λ T c,
    match c in Call T return unit → unit * Result T with
    | Fetch _ => λ w, (w, Ok resp)
    | ReadFile _ _ => λ w, (w, Err "ENOENT: no such file or directory")
    end.

(** No network: every request is rejected. *)
Definition offline : Handler Call unit :=
  λ T c,
    match c in Call T return unit → unit * Result T with
    | Fetch _ => λ w, (w, Err "fetch failed")
    | ReadFile _ _ => λ w, (w, Err "ENOENT: no such file or directory")
    end.

(** The environment of [Demo] without a token. *)
Definition tokenless : Env :=
  {| GITHUB_API_URL := GITHUB_API_URL Demo.env;
     REPO_OWNER := REPO_OWNER Demo.env;
     REPO_NAME := REPO_NAME Demo.env;
     BRANCH_NAME := BRANCH_NAME Demo.env;
     env_REPO_DIR := env_REPO_DIR Demo.env;
     env_GITHUB_TOKEN := None;
     cwd := cwd Demo.env;
     join := join Demo.env |}.

Definition issue_json : json :=
  JObj [ ("id", JNum 501); ("number", JNum 8); ("title", JStr "Bug");
         ("state", JStr "open");
         ("html_url", JStr "https://github.com/acme/site/issues/8");
         ("user", JObj [ ("login", JStr "alice") ]);
         ("labels", JArr [ JObj [ ("name", JStr "bug") ]; JStr "triage" ]);
         ("assignees", JArr [ JObj [ ("login", JStr "bob") ] ]);
         ("created_at", JStr "2025-01-01T00:00:00Z");
         ("updated_at", JStr "2025-01-02T00:00:00Z");
         ("comments", JNum 3);
         ("body", JStr "It does not work") ].

Definition pull_json : json :=
  JObj [ ("id", JNum 601); ("number", JNum 9); ("title", JStr "Fix");
         ("state", JStr "open");
         ("html_url", JStr "https://github.com/acme/site/pull/9");
         ("head", JObj [ ("ref", JStr "fix"); ("sha", JStr "c1") ]);
         ("base", JObj [ ("ref", JStr "main"); ("sha", JStr "c0") ]);
         ("created_at", JStr "2025-01-03T00:00:00Z") ].

Definition answered (v : json) : Response :=
  {| ok := true; status := 200; text := ""; json_body := v |}.

Definition not_found : Response :=
  {| ok := false; status := 404; text := "Not Found"; json_body := JNull |}.

(** Calls on a repository other than the configured one. *)
Definition new_issue : IssueTools.ToolCall :=
  IssueTools.call_create_issue "acme" "site" "Bug" "It does not work"
    (Some []) None (Some 0%N).

Definition new_pull : IssueTools.ToolCall :=
  IssueTools.call_create_pull_request "acme" "site" "Fix" "Fixes #8" "fix"
    "main" (Some false) None.

Definition edit_comment : IssueTools.ToolCall :=
  IssueTools.call_update_issue_comment "acme" "site" "77" "done".

Definition listing : IssueTools.ToolCall :=
  IssueTools.call_list_issues "acme" "site" (Some "open")
    (Some "bug,help wanted") (Some "") None None None (Some 50%N) (Some 0%N).

Definition issue_created : Run unit ToolResult :=
  exec (answering (answered issue_json)) (IssueTools.invoke Demo.env new_issue)
    tt.

Definition pull_created : Run unit ToolResult :=
  exec (answering (answered pull_json)) (IssueTools.invoke Demo.env new_pull)
    tt.

Definition comment_edited : Run unit ToolResult :=
  exec (answering (answered JNull)) (IssueTools.invoke Demo.env edit_comment)
    tt.

Definition issues_listed : Run unit ToolResult :=
  exec (answering (answered (JArr [issue_json])))
    (IssueTools.invoke Demo.env listing) tt.

Definition issues_not_found : Run unit ToolResult :=
  exec (answering not_found) (IssueTools.invoke Demo.env listing) tt.

Definition commit_offline : Run unit ToolResult :=
  exec offline (FileOps.invoke Demo.env
                  (call_commit_files ["src/a.ts"] "msg")) tt.

(** The pull request is found and commented on, and exporting the id of the
    new comment fails. *)
Definition export_down : Script.Answers :=
  {| Script.token := Script.token Script.with_open_pr;
     Script.parsed := Script.parsed Script.with_open_pr;
     Script.writer := Script.writer Script.with_open_pr;
     Script.triggered := Script.triggered Script.with_open_pr;
     Script.human := Script.human Script.with_open_pr;
     Script.posted := Script.posted Script.with_open_pr;
     Script.fetched := Script.fetched Script.with_open_pr;
     Script.branched := Script.branched Script.with_open_pr;
     Script.open_prs := Script.open_prs Script.with_open_pr;
     Script.pr_comment := Script.pr_comment Script.with_open_pr;
     Script.exported := Err "Unable to write to the environment file";
     Script.linked := Script.linked Script.with_open_pr;
     Script.prompted := Script.prompted Script.with_open_pr;
     Script.output := Script.output Script.with_open_pr |}.

End Samples.

(* ================================================================== *)
(** * Facts about running programs *)
(* ================================================================== *)

Section ExecFacts.
Context {E : Type → Type} {W : Type}.
Variable h : Handler E W.

Lemma after_events_nil {A} (r : Run (E:=E) W A) : after_events [] r = r.
Proof. by destruct r. Qed.

Lemma after_events_app {A} (t1 t2 : list (Event E)) (r : Run (E:=E) W A) :
  after_events t1 (after_events t2 r) = after_events (t1 ++ t2) r.
Proof. destruct r. cbn. by rewrite app_assoc. Qed.

Lemma exec_bind {A B} (p : Prog E A) (k : A → Prog E B) (w : W) :
  exec h (bind p k) w =
  match outcome (exec h p w) with
  | Ok a => after_events (trace (exec h p w))
              (exec h (k a) (final (exec h p w)))
  | Err e => mkRun (final (exec h p w)) (trace (exec h p w)) (Err e)
  end.
Proof.
  revert w. induction p as [a|e|T c k' IH]; intros w; cbn.
  - by rewrite after_events_nil.
  - done.
  - destruct (h T c w) as [w1 r]. rewrite IH.
    destruct (exec h (k' r) w1) as [w2 t [a|e]]; cbn; [|done].
    by rewrite after_events_app.
Qed.

Lemma exec_try_catch {A} (p : Prog E A) (hd : Error → Prog E A) (w : W) :
  exec h (try_catch p hd) w =
  match outcome (exec h p w) with
  | Ok a => exec h p w
  | Err e => after_events (trace (exec h p w))
               (exec h (hd e) (final (exec h p w)))
  end.
Proof.
  revert w. induction p as [a|e|T c k' IH]; intros w; cbn.
  - done.
  - by rewrite after_events_nil.
  - destruct (h T c w) as [w1 r]. rewrite IH.
    destruct (exec h (k' r) w1) as [w2 t [a|e]]; cbn; [done|].
    by rewrite after_events_app.
Qed.

Lemma exec_try_catch_bind {A B} (p : Prog E A) (k : A → Prog E B)
    (hd : Error → Prog E B) (w : W) :
  exec h (try_catch (bind p k) hd) w =
  match outcome (exec h p w) with
  | Ok a => after_events (trace (exec h p w))
              (exec h (try_catch (k a) hd) (final (exec h p w)))
  | Err e => after_events (trace (exec h p w))
               (exec h (hd e) (final (exec h p w)))
  end.
Proof.
  revert w. induction p as [a|e|T c k' IH]; intros w; cbn.
  - by rewrite after_events_nil.
  - by rewrite after_events_nil.
  - destruct (h T c w) as [w1 r]. rewrite IH.
    destruct (exec h (k' r) w1) as [w2 t [a|e]]; cbn;
      by rewrite after_events_app.
Qed.

(** Binds may be regrouped under a [try]. *)
Lemma exec_try_catch_assoc {A B C} (p : Prog E A) (f : A → Prog E B)
    (k : B → Prog E C) (hd : Error → Prog E C) (w : W) :
  exec h (try_catch (bind (bind p f) k) hd) w
  = exec h (try_catch (bind p (λ a, bind (f a) k)) hd) w.
Proof.
  revert w. induction p as [a|e|T c k' IH]; intros w; cbn; [done|done|].
  destruct (h T c w) as [w1 r]. by rewrite IH.
Qed.

(** [issue_all] issues every call, in order, and never throws. *)
Lemma exec_issue_all {T} (cs : list (E T)) (w : W) :
  ∃ rs w',
    length rs = length cs
    ∧ exec h (issue_all cs) w = mkRun w' (zip_with (event T) cs rs) (Ok rs).
Proof.
  revert w. induction cs as [|c cs IH]; intros w; cbn.
  - by exists [], w.
  - destruct (h T c w) as [w1 r]. cbn.
    destruct (IH w1) as (rs & w' & Hlen & Hrun).
    exists (r :: rs), w'. split; [cbn; by rewrite Hlen|].
    rewrite exec_bind, Hrun. cbn. by rewrite app_nil_r.
Qed.

Lemma exec_Promise_all {T} (cs : list (E T)) (w : W) :
  ∃ rs w',
    length rs = length cs
    ∧ exec h (Promise_all cs) w
      = mkRun w' (zip_with (event T) cs rs) (gather rs).
Proof.
  destruct (exec_issue_all cs w) as (rs & w' & Hlen & Hrun).
  exists rs, w'. split; [done|].
  unfold Promise_all. rewrite exec_bind, Hrun. cbn.
  destruct (gather rs); cbn; by rewrite ?app_nil_r.
Qed.

End ExecFacts.

Lemma gather_Ok_length {T} (rs : list (Result T)) (vs : list T) :
  gather rs = Ok vs → length vs = length rs.
Proof.
  revert vs. induction rs as [|[v|e] rs IH]; intros vs; cbn.
  - by intros [= <-].
  - destruct (gather rs) as [vs'|]; [|done].
    intros [= <-]. cbn. by rewrite (IH vs').
  - done.
Qed.

Lemma gather_is_ok {T} (rs : list (Result T)) :
  is_ok (gather rs) = forallb is_ok rs.
Proof.
  induction rs as [|[v|e] rs IH]; cbn; [done| |done].
  rewrite <- IH. by destruct (gather rs).
Qed.

(* ================================================================== *)
(** * Facts about the reference world *)
(* ================================================================== *)

Section ReferenceWorld.

Import FileOps World.

#[local] Arguments others_only n g : simpl never.

Lemma others_only_S (n : nat) (g : GitHost) :
  others_only (S n) g = others_only n (arrive g).
Proof. unfold others_only. apply Nat.iter_succ_r. Qed.

Lemma arrive_view (g1 g2 : GitHost) :
  refs g1 = refs g2 → inbox g1 = inbox g2 →
  refs (arrive g1) = refs (arrive g2) ∧ inbox (arrive g1) = inbox (arrive g2).
Proof.
  intros Hr Hi. unfold arrive. rewrite Hi.
  destruct (inbox g2) as [|[[b s]|] rest] eqn:Hi2; cbn; rewrite ?Hr; auto.
  split; congruence.
Qed.

Lemma others_only_view (n : nat) (g1 g2 : GitHost) :
  refs g1 = refs g2 → inbox g1 = inbox g2 →
  refs (others_only n g1) = refs (others_only n g2)
  ∧ inbox (others_only n g1) = inbox (others_only n g2).
Proof.
  intros Hr Hi. induction n as [|n [IHr IHi]]; [auto|].
  unfold others_only in *. rewrite !Nat.iter_succ. by apply arrive_view.
Qed.

Lemma others_only_quiet (n : nat) (g : GitHost) :
  inbox g = [] → others_only n g = g.
Proof.
  intros Hi. induction n as [|n IH]; [done|].
  unfold others_only in *. rewrite Nat.iter_succ, IH. unfold arrive.
  by rewrite Hi.
Qed.

(** A request changes a ref only if it is a ref update that the host
    accepts, and it never touches the other writers' schedule. *)
Lemma respond_view (g : GitHost) (req : Request) :
  (refs (respond g req).1 = refs g
   ∨ (method req = PATCH ∧ ok (respond g req).2 = true))
  ∧ inbox (respond g req).1 = inbox g.
Proof.
  unfold respond.
  repeat case_match; cbn; auto.
Qed.

(** A run in which no ref update was accepted leaves every ref where the
    other writers put it. *)
Lemma refs_follow_others {A} (p : Prog Call A) (w : world) :
  existsb accepted_update (trace (exec serve p w)) = false →
  refs (host (final (exec serve p w)))
    = refs (others_only (count is_fetch (trace (exec serve p w))) (host w))
  ∧ inbox (host (final (exec serve p w)))
    = inbox (others_only (count is_fetch (trace (exec serve p w))) (host w)).
Proof.
  revert w. induction p as [a|e|T c k IH]; intros w; cbn; [done|done|].
  destruct c as [req|path enc]; cbn.
  - destruct (respond (arrive (host w)) req) as [g resp] eqn:Hresp.
    destruct (exec serve (k (Ok resp)) {| host := g; disk := disk w |})
      as [w' t o] eqn:Hk. cbn.
    intros [Hacc Hrest]%orb_false_iff.
    specialize (IH (Ok resp) {| host := g; disk := disk w |}).
    rewrite Hk in IH. cbn in IH.
    destruct (IH Hrest) as [Hr Hi].
    rewrite Hr, Hi, others_only_S.
    pose proof (respond_view (arrive (host w)) req) as [Hrefs Hinbox].
    rewrite Hresp in Hrefs, Hinbox. cbn in Hrefs, Hinbox.
    apply others_only_view; [|done].
    destruct Hrefs as [|[Hm Hok]]; [done|].
    unfold accepted_update, is_ref_update, sends, answered_ok in Hacc.
    cbn in Hacc. by rewrite Hm, Hok in Hacc.
  - destruct (disk w !! path) as [content|].
    + specialize (IH (Ok content) w).
      destruct (exec serve (k (Ok content)) w). apply IH.
    + specialize (IH (Err ("ENOENT: no such file or directory, open '"
                             +:+ path +:+ "'")) w).
      destruct (exec serve (k _) w). apply IH.
Qed.

(** The reads of the reference world are reads of its disk, which no call
    changes. *)
Lemma serve_reads_disk {A} (p : Prog Call A) (w : world) (ev : Event Call)
    (path content : string) :
  ev ∈ trace (exec serve p w) →
  read_content ev = Some (path, content) →
  disk w !! path = Some content.
Proof.
  revert w. induction p as [a|e|T c k IH]; intros w; cbn;
    [by intros ?%elem_of_nil|by intros ?%elem_of_nil|].
  destruct c as [req|path' enc]; cbn.
  - destruct (respond (arrive (host w)) req) as [g resp].
    specialize (IH (Ok resp) {| host := g; disk := disk w |}).
    destruct (exec serve (k (Ok resp)) {| host := g; disk := disk w |}).
    cbn in *. intros [->|Hin]%elem_of_cons Hread; [done|by apply IH].
  - destruct (disk w !! path') as [content'|] eqn:Hdisk.
    + specialize (IH (Ok content') w).
      destruct (exec serve (k (Ok content')) w). cbn in *.
      intros [->|Hin]%elem_of_cons Hread; [|by apply IH].
      cbn in Hread. by simplify_eq.
    + specialize (IH (Err ("ENOENT: no such file or directory, open '"
                             +:+ path' +:+ "'")) w).
      destruct (exec serve (k _) w). cbn in *.
      intros [->|Hin]%elem_of_cons Hread; [done|by apply IH].
Qed.

Lemma append_assoc (a b c : string) : (a +:+ b) +:+ c = a +:+ (b +:+ c).
Proof.
  induction a as [|x a IH]; [done|].
  change (String x ((a +:+ b) +:+ c) = String x (a +:+ b +:+ c)).
  by rewrite IH.
Qed.

Lemma strip_prefix_app (p s : string) : strip_prefix p (p +:+ s) = Some s.
Proof.
  induction p as [|a p IH]; [done|].
  change ((if Ascii.eqb a a then strip_prefix p (p +:+ s) else None) = Some s).
  by rewrite Ascii.eqb_refl.
Qed.

Lemma strip_prefix_cancel (a p s : string) :
  strip_prefix (a +:+ p) (a +:+ s) = strip_prefix p s.
Proof.
  induction a as [|x a IH]; [done|].
  change ((if Ascii.eqb x x then strip_prefix (a +:+ p) (a +:+ s) else None)
          = strip_prefix p s).
  by rewrite Ascii.eqb_refl.
Qed.

Section Routes.
Variable env : Env.
Variable g : GitHost.
Hypothesis Hserves : serves env g.

Lemma route_git (rest : string) :
  strip_prefix (api_root g +:+ "/repos/" +:+ h_owner g +:+ "/"
                  +:+ h_repo g +:+ "/git/")
    (repo_url env (REPO_OWNER env) (REPO_NAME env) +:+ "/git/" +:+ rest)
  = Some rest.
Proof.
  destruct Hserves as (-> & -> & ->). unfold repo_url.
  rewrite !append_assoc.
  rewrite strip_prefix_cancel.
  rewrite (strip_prefix_cancel "/repos/").
  rewrite strip_prefix_cancel.
  rewrite (strip_prefix_cancel "/").
  rewrite strip_prefix_cancel.
  apply (strip_prefix_app "/git/").
Qed.

Lemma route_ref (b : string) :
  route g (repo_url env (REPO_OWNER env) (REPO_NAME env)
             +:+ "/git/refs/heads/" +:+ b) = RefOf b.
Proof.
  unfold route.
  change ("/git/refs/heads/" +:+ b) with ("/git/" +:+ "refs/heads/" +:+ b).
  by rewrite route_git.
Qed.

Lemma route_commit (s : string) :
  route g (repo_url env (REPO_OWNER env) (REPO_NAME env)
             +:+ "/git/commits/" +:+ s) = CommitOf s.
Proof.
  unfold route.
  change ("/git/commits/" +:+ s) with ("/git/" +:+ "commits/" +:+ s).
  by rewrite route_git.
Qed.

Lemma route_commits :
  route g (repo_url env (REPO_OWNER env) (REPO_NAME env) +:+ "/git/commits")
  = Commits.
Proof.
  unfold route.
  change "/git/commits" with ("/git/" +:+ "commits").
  by rewrite route_git.
Qed.

Lemma route_trees :
  route g (repo_url env (REPO_OWNER env) (REPO_NAME env) +:+ "/git/trees")
  = Trees.
Proof.
  unfold route.
  change "/git/trees" with ("/git/" +:+ "trees").
  by rewrite route_git.
Qed.

End Routes.

Section QuietHost.
Variable env : Env.

Lemma arrive_quiet (g : GitHost) : inbox g = [] → arrive g = g.
Proof. intros H. unfold arrive. by rewrite H. Qed.

Lemma protocol_on_quiet_host (w : world) (tok message key : string)
    (es : list TreeEntry) (affected : list string)
    (tip : string) (c : CommitObject) (t t' : gmap string string) :
  serves env (host w) →
  inbox (host w) = [] →
  refs (host w) !! BRANCH_NAME env = Some tip →
  commits (host w) !! tip = Some c →
  trees (host w) !! c_tree c = Some t →
  foldl merge_entry (Some t) (TreeEntry_json <$> es) = Some t' →
  let tree_id := "tree-" +:+ pretty (minted (host w)) in
  let commit_id := "commit-" +:+ pretty (N.succ (minted (host w))) in
  let r := exec serve (commit_protocol env tok (Ret es) message key affected) w in
  outcome r
    = Ok (success_result
            (JObj [ ("commit", JObj [ ("sha", JStr commit_id);
                                      ("message", JStr message);
                                      ("author", JStr (committer (host w)));
                                      ("date", JStr (clock (host w))) ]);
                    (key, JArr (path_json <$> affected));
                    ("tree", JObj [ ("sha", JStr tree_id) ]) ]))
  ∧ omap request_of (trace r)
    = [ {| url := repo_url env (REPO_OWNER env) (REPO_NAME env)
                    +:+ "/git/refs/heads/" +:+ BRANCH_NAME env;
           method := GET; headers := read_headers tok; body := None |};
        {| url := repo_url env (REPO_OWNER env) (REPO_NAME env)
                    +:+ "/git/commits/" +:+ tip;
           method := GET; headers := read_headers tok; body := None |};
        {| url := repo_url env (REPO_OWNER env) (REPO_NAME env) +:+ "/git/trees";
           method := POST; headers := write_headers tok;
           body := Some (JSON_stringify
                     (JObj [ ("base_tree", JStr (c_tree c));
                             ("tree", JArr (TreeEntry_json <$> es)) ]) 0) |};
        {| url := repo_url env (REPO_OWNER env) (REPO_NAME env) +:+ "/git/commits";
           method := POST; headers := write_headers tok;
           body := Some (JSON_stringify
                     (JObj [ ("message", JStr message);
                             ("tree", JStr tree_id);
                             ("parents", JArr [JStr tip]) ]) 0) |};
        {| url := repo_url env (REPO_OWNER env) (REPO_NAME env)
                    +:+ "/git/refs/heads/" +:+ BRANCH_NAME env;
           method := PATCH; headers := write_headers tok;
           body := Some (JSON_stringify
                     (JObj [ ("sha", JStr commit_id);
                             ("force", JBool false) ]) 0) |} ]
  ∧ length (trace r) = 5
  ∧ forallb answered_ok (trace r) = true
  ∧ refs (host (final r)) = <[BRANCH_NAME env := commit_id]> (refs (host w))
  ∧ commits (host (final r))
    = <[commit_id := {| c_tree := tree_id; c_parents := [tip];
                        c_message := message |}]> (commits (host w))
  ∧ trees (host (final r)) = <[tree_id := t']> (trees (host w))
  ∧ disk (final r) = disk w.
Proof.
  intros Hs Hi Href Hc Ht Hm tree_id commit_id r.
  assert (Hr : r = exec serve
            (commit_protocol env tok (Ret es) message key affected) w)
    by reflexivity.
  clearbody r. subst tree_id commit_id.
  destruct w as [g d]. cbn in Hs, Hi, Href, Hc, Ht, Hm |- *.
  unfold commit_protocol in Hr.
  cbn -[respond arrive] in Hr.
  rewrite (arrive_quiet g Hi) in Hr.
  unfold respond at 1 in Hr. cbn [method url] in Hr.
  rewrite (route_ref env g Hs), Href in Hr.
  cbn -[respond arrive] in Hr.
  rewrite (arrive_quiet g Hi) in Hr.
  unfold respond at 1 in Hr. cbn [method url] in Hr.
  rewrite (route_commit env g Hs), Hc in Hr.
  cbn -[respond arrive] in Hr.
  rewrite (arrive_quiet g Hi) in Hr.
  unfold respond at 1 in Hr. cbn [method url] in Hr.
  rewrite (route_trees env g Hs) in Hr.
  cbn -[respond arrive merge_entry] in Hr. rewrite Ht in Hr.
  cbn -[respond arrive merge_entry] in Hr. rewrite Hm in Hr.
  cbn -[respond arrive] in Hr.
  rewrite (arrive_quiet (add_tree _ t' g) Hi) in Hr.
  unfold respond at 1 in Hr. cbn [method url] in Hr.
  rewrite (route_commits env (add_tree _ t' g) Hs) in Hr.
  cbn -[respond arrive] in Hr. rewrite lookup_insert_eq in Hr.
  cbn -[respond arrive] in Hr.
  rewrite (arrive_quiet (add_commit _ _ (add_tree _ t' g)) Hi) in Hr.
  unfold respond at 1 in Hr. cbn [method url] in Hr.
  rewrite (route_ref env (add_commit _ _ (add_tree _ t' g)) Hs) in Hr.
  cbn -[respond arrive] in Hr. rewrite Href, lookup_insert_eq in Hr.
  unfold fast_forward in Hr. cbn in Hr. rewrite String.eqb_refl in Hr.
  cbn in Hr. subst r. cbn. repeat split.
Qed.
End QuietHost.

End ReferenceWorld.

(* ================================================================== *)
(** * Facts about the tool handlers *)
(* ================================================================== *)

Section ToolHandlers.

Import FileOps World.

#[local] Arguments Promise_all {E T} cs : simpl never.

Lemma existsb_reads (p : Event Call → bool) (tr : list (Event Call)) :
  (∀ ev, is_read ev = true → p ev = false) →
  Forall (λ ev, is_read ev = true) tr → existsb p tr = false.
Proof.
  intros Hp. induction 1 as [|ev tr Hev _ IH]; cbn; [done|].
  by rewrite (Hp ev Hev), IH.
Qed.

Lemma forallb_reads (p : Event Call → bool) (tr : list (Event Call)) :
  (∀ ev, is_read ev = true → p ev = true) →
  Forall (λ ev, is_read ev = true) tr → forallb p tr = true.
Proof.
  intros Hp. induction 1 as [|ev tr Hev _ IH]; cbn; [done|].
  by rewrite (Hp ev Hev), IH.
Qed.

Lemma count_reads (p : Event Call → bool) (tr : list (Event Call)) :
  (∀ ev, is_read ev = true → p ev = false) →
  Forall (λ ev, is_read ev = true) tr → count p tr = 0.
Proof.
  intros Hp. induction 1 as [|ev tr Hev _ IH]; cbn; [done|].
  by rewrite (Hp ev Hev), IH.
Qed.

Lemma count_app {X} (p : X → bool) (l1 l2 : list X) :
  count p (l1 ++ l2) = count p l1 + count p l2.
Proof. induction l1 as [|x l1 IH]; cbn; [done|]. rewrite IH. lia. Qed.

Lemma after_app {X} (p : X → bool) (l1 l2 : list X) :
  existsb p l1 = false → after p (l1 ++ l2) = after p l2.
Proof.
  induction l1 as [|x l1 IH]; cbn; [done|].
  destruct (p x); cbn; [done|]. apply IH.
Qed.

Section ToolFacts.
Context {W : Type}.
Variable env : Env.
Variable h : Handler Call W.

Lemma reads_are_reads (ps : list string) (rs : list (Result string)) :
  Forall (λ ev, is_read ev = true)
    (zip_with (event string)
       ((λ filePath, ReadFile (fullPath env filePath) "utf-8") <$> ps) rs).
Proof.
  revert rs. induction ps as [|p ps IH]; intros [|r rs]; cbn; try constructor.
  - done.
  - apply IH.
Qed.

Lemma reads_failed (ps : list string) (rs : list (Result string)) :
  length rs = length ps →
  existsb read_failed
    (zip_with (event string)
       ((λ filePath, ReadFile (fullPath env filePath) "utf-8") <$> ps) rs)
  = negb (is_ok (gather rs)).
Proof.
  rewrite gather_is_ok.
  revert rs. induction ps as [|p ps IH]; intros [|r rs]; cbn; try done.
  intros [= Hlen]. rewrite (IH rs Hlen).
  unfold read_failed, settled. cbn. by destruct r.
Qed.

Ltac tool_case :=
  match goal with
  | |- context [JS.truthy_opt ?o] => destruct (JS.truthy_opt o) eqn:?
  | |- context [h ?T ?c ?w] =>
      let r := fresh "r" in
      destruct (h T c w) as [? r]; destruct r
  | |- context [throw_if (negb ?b)] => destruct b eqn:?
  | |- context [decode ?o] => destruct o eqn:?
  | |- context [map_or_throw ?f ?xs] =>
      unfold map_or_throw; destruct (gather (f <$> xs)) eqn:?
  | |- context [exec h (try_catch (bind (Promise_all (?f <$> ?ps)) ?k) ?hd) ?w] =>
      let rs := fresh "rs" in
      let Hlen := fresh "Hlen" in
      let Hall := fresh "Hall" in
      let Hfail := fresh "Hfail" in
      let trr := fresh "reads" in
      rewrite (exec_try_catch_bind h (Promise_all (f <$> ps)) k hd w);
      destruct (exec_Promise_all h (f <$> ps) w) as (rs & ? & Hlen & ->);
      rewrite length_fmap in Hlen;
      pose proof (reads_are_reads ps rs) as Hall;
      pose proof (reads_failed ps rs Hlen) as Hfail;
      set (trr := zip_with (event string) (f <$> ps) rs) in *;
      pose proof (existsb_reads refused_update trr
                    ltac:(by intros [? [] ?]) Hall);
      pose proof (existsb_reads accepted_update trr
                    ltac:(by intros [? [] ?]) Hall);
      pose proof (existsb_reads is_write trr
                    ltac:(by intros [? [] ?]) Hall);
      pose proof (existsb_reads is_tree_request trr
                    ltac:(by intros [? [] ?]) Hall);
      pose proof (forallb_reads not_forced trr
                    ltac:(by intros [? [] ?]) Hall);
      pose proof (count_reads is_fetch trr
                    ltac:(by intros [? [] ?]) Hall);
      cbn;
      destruct (gather rs) eqn:?
  end; cbn.

Ltac tool_cases :=
  match goal with
  | |- context [exec h ?p ?w] =>
      let r := fresh "r" in
      let Hr := fresh "Hr" in
      remember (exec h p w) as r eqn:Hr; revert Hr;
      unfold commit_files, delete_files, required_token; cbn;
      repeat first
        [ tool_case
        | progress (unfold mbind, mret, Prog_bind, Prog_ret, await); cbn ];
      intros ->; cbn
  end.

Ltac settle :=
  cbn in *;
  repeat match goal with
         | H : ok ?a = _, H' : negb (ok ?a) = _ |- _ => rewrite H in H'
         | H : ok ?a = _ |- context [ok ?a] => rewrite H
         end;
  cbn in *; try done.

Ltac reads_off :=
  rewrite ?existsb_app, ?forallb_app, ?count_app;
  repeat match goal with
         | H : existsb ?p ?l = false |- context [after ?p (?l ++ _)] =>
             rewrite (after_app p l _ H)
         | H : existsb ?p ?l = _ |- context [existsb ?p ?l] => rewrite H
         | H : forallb ?p ?l = _ |- context [forallb ?p ?l] => rewrite H
         | H : count ?p ?l = _ |- context [count ?p ?l] => rewrite H
         end.

Ltac which_event Hin :=
  repeat first
    [ apply elem_of_cons in Hin as [->|Hin]
    | apply elem_of_app in Hin as [Hin|Hin]
    | apply elem_of_nil in Hin; destruct Hin ].

Lemma reads_error (ps : list string) (rs : list (Result string)) (e : Error) :
  length rs = length ps → gather rs = Err e →
  ∃ p, p ∈ ps
       ∧ event string (ReadFile (fullPath env p) "utf-8") (Err e)
           ∈ zip_with (event string)
               ((λ filePath, ReadFile (fullPath env filePath) "utf-8") <$> ps)
               rs.
Proof.
  revert rs. induction ps as [|p ps IH]; intros [|r rs]; cbn; try done.
  intros [= Hlen]. destruct r as [v|e'].
  - destruct (gather rs) as [vs|e'] eqn:Hg; [done|]. intros [= ->].
    destruct (IH rs Hlen Hg) as (p' & Hp' & Hin).
    exists p'. split; [by right|]. by right.
  - intros [= ->]. exists p. split; by left.
Qed.


Lemma paths_of_deletion_entries (ps : list string) :
  omap (get_str "path") (TreeEntry_json <$> (deletion_entry <$> ps)) = ps.
Proof. induction ps as [|p ps IH]; cbn; [done|]. by rewrite IH. Qed.

Lemma gather_fmap_Err {A B} (f : A → Result B) (xs : list A) (e : Error) :
  gather (f <$> xs) = Err e → ∃ x, x ∈ xs ∧ f x = Err e.
Proof.
  induction xs as [|x xs IH]; cbn; [done|].
  destruct (f x) as [y|e'] eqn:Hfx.
  - destruct (gather (f <$> xs)) as [ys|e'] eqn:Hg; [done|]. intros [= ->].
    destruct (IH eq_refl) as (x' & Hx' & Hfx'). exists x'.
    split; [by right|done].
  - intros [= ->]. exists x. split; [by left|done].
Qed.

Lemma gather_fmap_Ok_not {A B} (f : A → Result B) (xs : list A) (x : A) :
  x ∈ xs → is_ok (f x) = false → is_ok (gather (f <$> xs)) = false.
Proof.
  intros Hx Hfx. rewrite gather_is_ok.
  apply not_true_is_false. intros Hall.
  rewrite forallb_forall in Hall.
  specialize (Hall (f x)). rewrite Hfx in Hall.
  enough (true = false) by done. symmetry. apply Hall.
  apply list_elem_of_In, list_elem_of_fmap. by exists x.
Qed.

Lemma gather_fmap_Ok {A B} (f : A → Result B) (xs : list A) (ys : list B) :
  gather (f <$> xs) = Ok ys → Forall2 (λ x y, f x = Ok y) xs ys.
Proof.
  revert ys. induction xs as [|x xs IH]; intros ys; cbn.
  - intros [= <-]. constructor.
  - destruct (f x) as [y|e] eqn:Hfx; [|done].
    destruct (gather (f <$> xs)) as [ys'|e]; [|done].
    intros [= <-]. constructor; [done|]. by apply IH.
Qed.

(** ** Path normalisation *)





Lemma relative_to_cwd_outside (p : string) :
  JS.startsWith p "/" = true → JS.startsWith p (cwd env) = false →
  relative_to_cwd env p
  = Err ("Path '" +:+ p +:+
         "' must be relative to repository root or within current working directory").
Proof. unfold relative_to_cwd. by intros -> ->. Qed.




Lemma delete_files_update (paths : list string) (message : string) (w : W) :
  forallb not_forced (trace (exec h (delete_files env paths message) w)) = true
  ∧ ∀ ev, ev ∈ trace (exec h (delete_files env paths message) w) →
      refused_update ev = true →
      outcome (exec h (delete_files env paths message) w)
        = Ok (error_result (refusal_message ev))
      ∧ after refused_update (trace (exec h (delete_files env paths message) w)) = []
      ∧ existsb accepted_update (trace (exec h (delete_files env paths message) w)) = false.
Proof.
  tool_cases.
  all: split; [reflexivity|].
  all: intros ev Hin Href; which_event Hin; try discriminate Href.
  all: unfold refused_update, accepted_update, answered_ok, answered_not_ok,
         refusal_message in *; settle.
Qed.

Lemma commit_files_update (files : list string) (message : string) (w : W) :
  forallb not_forced (trace (exec h (commit_files env files message) w)) = true
  ∧ ∀ ev, ev ∈ trace (exec h (commit_files env files message) w) →
      refused_update ev = true →
      outcome (exec h (commit_files env files message) w)
        = Ok (error_result (refusal_message ev))
      ∧ after refused_update (trace (exec h (commit_files env files message) w)) = []
      ∧ existsb accepted_update (trace (exec h (commit_files env files message) w)) = false.
Proof.
  tool_cases.
  all: reads_off.
  all: split; [reflexivity|].
  all: intros ev Hin Href; which_event Hin; try discriminate Href.
  all: try (rewrite (Forall_forall (λ ev, is_read ev = true)) in Hall;
            apply Hall in Hin; by destruct ev as [? [] ?]).
  all: unfold refused_update, accepted_update, answered_ok, answered_not_ok,
         refusal_message in *; settle.
Qed.

(** ** A failed local read *)

Lemma commit_files_read_failure (files : list string) (message : string)
    (w : W) :
  existsb read_failed (trace (exec h (commit_files env files message) w)) = true →
  existsb is_write (trace (exec h (commit_files env files message) w)) = false
  ∧ ∃ p e,
      p ∈ strip_leading_slash <$> files
      ∧ event string (ReadFile (fullPath env p) "utf-8") (Err e)
          ∈ trace (exec h (commit_files env files message) w)
      ∧ outcome (exec h (commit_files env files message) w)
        = Ok (error_result e).
Proof.
  tool_cases.
  all: reads_off; try discriminate.
  intros _. split; [reflexivity|].
  match goal with
  | Hg : gather ?rs = Err ?e, Hlen : length ?rs = _ |- _ =>
      destruct (reads_error _ _ _ Hlen Hg) as (p & Hp & Hin); exists p, e
  end.
  split; [done|]. split; [|done].
  do 2 right. rewrite app_nil_r. exact Hin.
Qed.

Lemma reads_ok (ps : list string) (rs : list (Result string))
    (vs : list string) (p : string) :
  length rs = length ps → gather rs = Ok vs → p ∈ ps →
  ∃ ev content,
    ev ∈ zip_with (event string)
           ((λ filePath, ReadFile (fullPath env filePath) "utf-8") <$> ps) rs
    ∧ read_content ev = Some (fullPath env p, content).
Proof.
  revert rs vs. induction ps as [|q ps IH]; intros [|r rs] vs; cbn; try done.
  - by intros _ _ ?%elem_of_nil.
  - intros [= Hlen]. destruct r as [v|e]; [|done].
    destruct (gather rs) as [vs'|] eqn:Hg; [|done]. intros _.
    intros [->|Hp]%elem_of_cons.
    + eexists _, v. split; [by left|done].
    + destruct (IH rs vs' Hlen Hg Hp) as (ev & content & Hin & Hread).
      exists ev, content. split; [by right|done].
Qed.

(** A write request is only made once every file has been read. *)
Lemma commit_files_writes_after_reads (files : list string)
    (message : string) (w : W) (p : string) :
  existsb is_write (trace (exec h (commit_files env files message) w)) = true →
  p ∈ strip_leading_slash <$> files →
  ∃ ev content,
    ev ∈ trace (exec h (commit_files env files message) w)
    ∧ read_content ev = Some (fullPath env p, content).
Proof.
  tool_cases.
  all: reads_off; try discriminate.
  all: intros _ Hp.
  all: match goal with
       | Hg : gather ?rs = Ok ?vs, Hlen : length ?rs = _ |- _ =>
           destruct (reads_ok _ _ _ _ Hlen Hg Hp)
             as (ev & content & Hin & Hread);
           exists ev, content; split; [|done]
       end.
  all: do 2 right; apply elem_of_app; by left.
Qed.

(** The handler always returns a payload, and a payload that is not an
    error is only returned after a write request. *)
Lemma commit_files_returns (files : list string) (message : string) (w : W) :
  ∃ res,
    outcome (exec h (commit_files env files message) w) = Ok res
    ∧ (isError res = false →
       existsb is_write (trace (exec h (commit_files env files message) w))
       = true).
Proof.
  tool_cases.
  all: eexists; split; [reflexivity|]; cbn; try discriminate.
  all: intros _; reads_off; reflexivity.
Qed.

(** ** The paths of the tree request *)


Lemma commit_files_tree_entries (files : list string) (message : string)
    (w : W) (ev : Event Call) :
  ev ∈ trace (exec h (commit_files env files message) w) →
  is_tree_request ev = true →
  ∃ contents,
    length contents = length files
    ∧ submitted_tree ev
      = Some (TreeEntry_json
                <$> zip_with blob_entry (strip_leading_slash <$> files)
                      contents).
Proof.
  tool_cases.
  all: intros Hin Htree; which_event Hin; try discriminate Htree.
  all: try (rewrite (Forall_forall (λ ev, is_read ev = true)) in Hall;
            apply Hall in Hin; by destruct ev as [? [] ?]).
  all: match goal with
       | Hg : gather ?rs = Ok ?vs, Hlen : length ?rs = _ |- _ =>
           exists vs; split;
           [ rewrite (gather_Ok_length rs vs Hg), Hlen; apply length_fmap
           | reflexivity ]
       end.
Qed.

Lemma delete_files_tree_entries (paths : list string) (message : string)
    (w : W) (ev : Event Call) :
  ev ∈ trace (exec h (delete_files env paths message) w) →
  is_tree_request ev = true →
  ∃ ps, gather (relative_to_cwd env <$> paths) = Ok ps
        ∧ submitted_paths ev = Some ps
        ∧ submitted_tree ev
          = Some ((λ p, JObj [ ("path", JStr p); ("mode", JStr "100644");
                               ("type", JStr "blob"); ("sha", JNull) ])
                    <$> ps).
Proof.
  tool_cases.
  all: intros Hin Htree; which_event Hin; try discriminate Htree.
  all: eexists; split; [reflexivity|].
  all: unfold submitted_paths, submitted_tree; cbn.
  all: rewrite paths_of_deletion_entries.
  all: split; [reflexivity|]. 
  all: f_equal; by rewrite <- list_fmap_compose.
Qed.

(** ** The delete path reads nothing, and looks nothing up but the tip *)

Lemma delete_files_no_reads (paths : list string) (message : string) (w : W) :
  existsb is_read (trace (exec h (delete_files env paths message) w)) = false.
Proof. tool_cases; reflexivity. Qed.

Lemma delete_files_lookups (paths : list string) (message : string) (w : W)
    (ev : Event Call) (req : Request) :
  ev ∈ trace (exec h (delete_files env paths message) w) →
  request_of ev = Some req → method req = GET →
  url req = repo_url env (REPO_OWNER env) (REPO_NAME env)
              +:+ "/git/refs/heads/" +:+ BRANCH_NAME env
  ∨ ∃ s, url req = repo_url env (REPO_OWNER env) (REPO_NAME env)
                     +:+ "/git/commits/" +:+ s.
Proof.
  tool_cases.
  all: intros Hin Hreq Hget; which_event Hin; cbn in Hreq; simplify_eq;
       cbn in *; try done; eauto.
Qed.

(** ** A path outside the working directory *)

Lemma delete_files_outside (paths : list string) (message : string) (w : W)
    (p : string) :
  p ∈ paths →
  JS.startsWith p "/" = true → JS.startsWith p (cwd env) = false →
  trace (exec h (delete_files env paths message) w) = []
  ∧ final (exec h (delete_files env paths message) w) = w
  ∧ ∃ e, outcome (exec h (delete_files env paths message) w)
         = Ok (error_result e)
         ∧ (e = "GITHUB_TOKEN environment variable is required"
            ∨ ∃ q, q ∈ paths
                   ∧ e = "Path '" +:+ q +:+
                         "' must be relative to repository root or within current working directory").
Proof.
  intros Hp Habs Hout.
  assert (Hbad : is_ok (gather (relative_to_cwd env <$> paths)) = false).
  { apply (gather_fmap_Ok_not _ _ p Hp).
    by rewrite relative_to_cwd_outside. }
  unfold delete_files, required_token, map_or_throw.
  destruct (JS.truthy_opt (env_GITHUB_TOKEN env)); cbn.
  - destruct (gather (relative_to_cwd env <$> paths)) as [ps|e] eqn:Hg;
      [done|]. cbn.
    repeat split. exists e. split; [done|]. right.
    destruct (gather_fmap_Err _ _ _ Hg) as (q & Hq & Hfq).
    exists q. split; [done|].
    unfold relative_to_cwd in Hfq. repeat case_match; congruence.
  - repeat split. eauto.
Qed.

End ToolFacts.

Section Refinement.
Context {W : Type}.
Variable env : Env.
Variable h : Handler Call W.

Ltac both_sides :=
  match goal with
  | |- context [JS.truthy_opt ?o] => destruct (JS.truthy_opt o) eqn:?
  | |- context [h ?T ?c ?w] =>
      let r := fresh "r" in
      destruct (h T c w) as [? r]; destruct r
  | |- context [throw_if (negb ?b)] => destruct b eqn:?
  | |- context [decode ?o] => destruct o eqn:?
  | |- context [map_or_throw ?f ?xs] =>
      unfold map_or_throw; destruct (gather (f <$> xs)) eqn:?
  end; cbn.

(** [delete_files] is the protocol of the specification without step 3. *)
Lemma delete_files_is_delete_path (paths : list string) (message : string)
    (w : W) :
  exec h (delete_files env paths message) w
  = exec h (delete_path env paths message) w.
Proof.
  unfold delete_files, delete_path, commit_protocol, deletion_entries,
    required_token.
  cbn.
  repeat first
    [ reflexivity
    | both_sides
    | progress (unfold mbind, mret, Prog_bind, Prog_ret, await); cbn ].
Qed.

(** [commit_files] is the protocol of the specification with the local
    reads as step 3. *)
Lemma commit_files_is_write_path (files : list string) (message : string)
    (w : W) :
  exec h (commit_files env files message) w
  = exec h (write_path env files message) w.
Proof.
  unfold commit_files, write_path, commit_protocol, read_entries,
    required_token.
  cbn.
  repeat first
    [ reflexivity
    | rewrite exec_try_catch_assoc; reflexivity
    | both_sides
    | progress (unfold mbind, mret, Prog_bind, Prog_ret, await); cbn ].
Qed.

End Refinement.

Section OnQuietHost.
Variable env : Env.

Lemma merge_deletions (t : gmap string string) (ps : list string) :
  foldl merge_entry (Some t) (TreeEntry_json <$> (deletion_entry <$> ps))
  = Some (foldl (λ t p, delete p t) t ps).
Proof.
  revert t. induction ps as [|p ps IH]; intros t; cbn; [done|]. apply IH.
Qed.

Lemma delete_absent (t : gmap string string) (ps : list string) :
  Forall (λ p, t !! p = None) ps →
  foldl (λ t p, delete p t) t ps = t.
Proof.
  induction 1 as [|p ps Hp _ IH]; cbn; [done|]. by rewrite delete_id.
Qed.

Lemma gather_relative (ps : list string) :
  Forall (λ p, JS.startsWith p "/" = false) ps →
  gather (relative_to_cwd env <$> ps) = Ok ps.
Proof.
  induction 1 as [|p ps Hp _ IH]; cbn; [done|].
  unfold relative_to_cwd at 1. by rewrite Hp, IH.
Qed.

(** With a token, and once the paths are accepted, the handlers are the
    protocol itself when the protocol succeeds. *)
Lemma delete_files_run (w : world) (paths : list string) (message tok : string)
    (res : ToolResult) :
  env_GITHUB_TOKEN env = Some tok → JS.truthy tok = true →
  Forall (λ p, JS.startsWith p "/" = false) paths →
  outcome (exec serve (commit_protocol env tok
             (Ret (deletion_entry <$> paths)) message "deletedFiles" paths) w)
    = Ok res →
  exec serve (delete_files env paths message) w
  = exec serve (commit_protocol env tok
      (Ret (deletion_entry <$> paths)) message "deletedFiles" paths) w.
Proof.
  intros Htok Htruthy Hrel Hok.
  rewrite delete_files_is_delete_path.
  unfold delete_path, required_token, map_or_throw, deletion_entries.
  rewrite Htok. cbn [JS.truthy_opt default]. rewrite Htruthy.
  rewrite (gather_relative _ Hrel).
  unfold mbind, Prog_bind. cbn [bind]. change (id tok) with tok.
  rewrite exec_try_catch. by rewrite Hok.
Qed.

Lemma commit_files_nil_run (w : world) (message tok : string)
    (res : ToolResult) :
  env_GITHUB_TOKEN env = Some tok → JS.truthy tok = true →
  outcome (exec serve (commit_protocol env tok (Ret []) message "files" []) w)
    = Ok res →
  exec serve (commit_files env [] message) w
  = exec serve (commit_protocol env tok (Ret []) message "files" []) w.
Proof.
  intros Htok Htruthy Hok.
  rewrite commit_files_is_write_path.
  unfold write_path, required_token, read_entries.
  rewrite Htok. cbn [JS.truthy_opt default]. rewrite Htruthy.
  unfold mbind, Prog_bind. cbn [bind fmap list_fmap].
  change (id tok) with tok.
  change (bind (Promise_all []) _) with (Ret (E:=Call) (@nil TreeEntry)).
  rewrite exec_try_catch. by rewrite Hok.
Qed.
End OnQuietHost.

End ToolHandlers.

(* ================================================================== *)
(** * The atomic commit engine: the claims *)
(* ================================================================== *)

Section CommitEngine.

Import FileOps World.

(** C1.  Every ref update that [commit_files] or [delete_files] requests
    carries [force: false].  If the host answers the update with a response
    that is not ok, the tool returns the error payload whose message is
    "Failed to update reference: <status> - <response text>", the refused
    update is the last thing the tool does, and no update was accepted.  On
    the reference host, after such a run every ref is exactly where the other
    writers of the repository left it. *)
Theorem ref_update_is_fast_forward_only (env : Env) (call : ToolCall) :
  (∀ (W : Type) (h : Handler Call W) (w : W),
     forallb not_forced (trace (exec h (invoke env call) w)) = true
     ∧ ∀ ev, ev ∈ trace (exec h (invoke env call) w) →
         refused_update ev = true →
         outcome (exec h (invoke env call) w)
           = Ok (error_result (refusal_message ev))
         ∧ after refused_update (trace (exec h (invoke env call) w)) = []
         ∧ existsb accepted_update (trace (exec h (invoke env call) w))
           = false)
  ∧ (∀ (w : world) ev,
       ev ∈ trace (exec serve (invoke env call) w) →
       refused_update ev = true →
       refs (host (final (exec serve (invoke env call) w)))
       = refs (others_only
                 (count is_fetch (trace (exec serve (invoke env call) w)))
                 (host w))).
Proof.
  assert (Hgen : ∀ (W : Type) (h : Handler Call W) (w : W),
     forallb not_forced (trace (exec h (invoke env call) w)) = true
     ∧ ∀ ev, ev ∈ trace (exec h (invoke env call) w) →
         refused_update ev = true →
         outcome (exec h (invoke env call) w)
           = Ok (error_result (refusal_message ev))
         ∧ after refused_update (trace (exec h (invoke env call) w)) = []
         ∧ existsb accepted_update (trace (exec h (invoke env call) w))
           = false).
  { intros W h w. destruct call as [files message|paths message].
    - apply commit_files_update.
    - apply delete_files_update. }
  split; [exact Hgen|].
  intros w ev Hin Href.
  destruct (Hgen world serve w) as [_ Hrefused].
  destruct (Hrefused ev Hin Href) as (_ & _ & Hnone).
  by destruct (refs_follow_others (invoke env call) w Hnone).
Qed.

(** A run of the reference world without a write request leaves every ref
    where the other writers put it. *)
Lemma no_write_keeps_refs {A} (p : Prog Call A) (w : world) :
  existsb is_write (trace (exec serve p w)) = false →
  refs (host (final (exec serve p w)))
  = refs (others_only (count is_fetch (trace (exec serve p w))) (host w))
  ∧ (inbox (host w) = [] →
     refs (host (final (exec serve p w))) = refs (host w)).
Proof.
  intros Hnw.
  assert (Hacc : existsb accepted_update (trace (exec serve p w)) = false).
  { apply not_true_is_false. intros (ev & Hin & Hev)%existsb_exists.
    enough (existsb is_write (trace (exec serve p w)) = true) by congruence.
    apply existsb_exists. exists ev. split; [done|].
    unfold accepted_update, is_ref_update in Hev.
    apply andb_true_iff in Hev as [Hev _].
    unfold is_write. by rewrite Hev, orb_true_r. }
  destruct (refs_follow_others p w Hacc) as [Hrefs _].
  split; [done|]. intros Hquiet. by rewrite Hrefs, others_only_quiet.
Qed.

(** C2.  If one of the local reads of [commit_files] fails, no tree
    creation, commit creation or ref update is requested, and the tool
    returns the error of a failed read as the error of the whole call.  On
    the reference world every ref is then where the other writers left it,
    and with no other writer the refs are unchanged; the same holds, with an
    error payload as the result, whenever one of the requested files is not on
    the local disk. *)
Theorem read_failure_fails_whole_batch (env : Env) (files : list string)
    (message : string) :
  (∀ (W : Type) (h : Handler Call W) (w : W),
     existsb read_failed (trace (exec h (commit_files env files message) w))
       = true →
     existsb is_write (trace (exec h (commit_files env files message) w))
       = false
     ∧ ∃ p e,
         p ∈ strip_leading_slash <$> files
         ∧ event string (ReadFile (fullPath env p) "utf-8") (Err e)
             ∈ trace (exec h (commit_files env files message) w)
         ∧ outcome (exec h (commit_files env files message) w)
           = Ok (error_result e)
         ∧ isError (error_result e) = true)
  ∧ (∀ w : world,
       existsb read_failed
         (trace (exec serve (commit_files env files message) w)) = true →
       refs (host (final (exec serve (commit_files env files message) w)))
       = refs (others_only
                 (count is_fetch
                    (trace (exec serve (commit_files env files message) w)))
                 (host w))
       ∧ (inbox (host w) = [] →
          refs (host (final (exec serve (commit_files env files message) w)))
          = refs (host w)))
  ∧ (∀ (w : world) f,
       f ∈ files →
       disk w !! fullPath env (strip_leading_slash f) = None →
       existsb is_write
         (trace (exec serve (commit_files env files message) w)) = false
       ∧ (∃ res,
            outcome (exec serve (commit_files env files message) w) = Ok res
            ∧ isError res = true)
       ∧ refs (host (final (exec serve (commit_files env files message) w)))
         = refs (others_only
                   (count is_fetch
                      (trace (exec serve (commit_files env files message) w)))
                   (host w))
       ∧ (inbox (host w) = [] →
          refs (host (final (exec serve (commit_files env files message) w)))
          = refs (host w))).
Proof.
  split; [|split].
  - intros W h w Hfail.
    destruct (commit_files_read_failure env h files message w Hfail)
      as (Hnw & p & e & Hp & Hin & Hout).
    split; [done|]. by exists p, e.
  - intros w Hfail.
    destruct (commit_files_read_failure env serve files message w Hfail)
      as (Hnw & _).
    by apply no_write_keeps_refs.
  - intros w f Hf Hmissing.
    assert (Hnw : existsb is_write
              (trace (exec serve (commit_files env files message) w)) = false).
    { apply not_true_is_false. intros Hw.
      destruct (commit_files_writes_after_reads env serve files message w
                  (strip_leading_slash f) Hw)
        as (ev & content & Hin & Hread).
      { apply list_elem_of_fmap. by exists f. }
      pose proof (serve_reads_disk _ w ev _ _ Hin Hread). congruence. }
    split; [done|]. split; [|by apply no_write_keeps_refs].
    destruct (commit_files_returns env serve files message w)
      as (res & Hout & Hsuccess).
    exists res. split; [done|].
    destruct (isError res); [done|]. rewrite Hsuccess in Hnw; done.
Qed.


(** C8.  [delete_files] runs the six-step protocol of the specification
    with step 3 left out, as [commit_files] runs it with the local reads as
    step 3.  A run of [delete_files] reads no local file; the entries of its
    tree request are built from the requested paths, each with [sha: null];
    the only things it looks up on the host are the branch ref and a commit,
    so the base tree is never inspected before the tree request.  On the
    reference host, deleting paths that the base tree does not have succeeds:
    the new commit has the prior tip as its parent, its tree has the content
    of the base tree, and the branch points at it. *)
Theorem delete_path_mirrors_write_path (env : Env) (message : string) :
  (∀ (W : Type) (h : Handler Call W) (w : W) paths,
     exec h (delete_files env paths message) w
     = exec h (delete_path env paths message) w)
  ∧ (∀ (W : Type) (h : Handler Call W) (w : W) files,
       exec h (commit_files env files message) w
       = exec h (write_path env files message) w)
  ∧ (∀ (W : Type) (h : Handler Call W) (w : W) paths,
       existsb is_read (trace (exec h (delete_files env paths message) w))
       = false)
  ∧ (∀ (W : Type) (h : Handler Call W) (w : W) paths ev,
       ev ∈ trace (exec h (delete_files env paths message) w) →
       is_tree_request ev = true →
       ∃ ps, Forall2 (λ p q, relative_to_cwd env p = Ok q) paths ps
             ∧ submitted_tree ev
               = Some ((λ p, JObj [ ("path", JStr p);
                                    ("mode", JStr "100644");
                                    ("type", JStr "blob");
                                    ("sha", JNull) ]) <$> ps))
  ∧ (∀ (W : Type) (h : Handler Call W) (w : W) paths ev req,
       ev ∈ trace (exec h (delete_files env paths message) w) →
       request_of ev = Some req → method req = GET →
       url req = repo_url env (REPO_OWNER env) (REPO_NAME env)
                   +:+ "/git/refs/heads/" +:+ BRANCH_NAME env
       ∨ ∃ s, url req = repo_url env (REPO_OWNER env) (REPO_NAME env)
                          +:+ "/git/commits/" +:+ s)
  ∧ (∀ (w : world) paths tok tip c (t : gmap string string),
       env_GITHUB_TOKEN env = Some tok → JS.truthy tok = true →
       serves env (host w) → inbox (host w) = [] →
       refs (host w) !! BRANCH_NAME env = Some tip →
       commits (host w) !! tip = Some c →
       trees (host w) !! c_tree c = Some t →
       Forall (λ p, JS.startsWith p "/" = false) paths →
       Forall (λ p, t !! p = None) paths →
       let tree_id := "tree-" +:+ pretty (minted (host w)) in
       let commit_id := "commit-" +:+ pretty (N.succ (minted (host w))) in
       let r := exec serve (delete_files env paths message) w in
       outcome r
         = Ok (success_result
                 (JObj [ ("commit",
                          JObj [ ("sha", JStr commit_id);
                                 ("message", JStr message);
                                 ("author", JStr (committer (host w)));
                                 ("date", JStr (clock (host w))) ]);
                         ("deletedFiles", JArr (path_json <$> paths));
                         ("tree", JObj [ ("sha", JStr tree_id) ]) ]))
       ∧ refs (host (final r)) !! BRANCH_NAME env = Some commit_id
       ∧ commits (host (final r)) !! commit_id
         = Some {| c_tree := tree_id; c_parents := [tip];
                   c_message := message |}
       ∧ trees (host (final r)) !! tree_id = Some t).
Proof.
  split; [|split; [|split; [|split; [|split]]]].
  - intros W h w paths. apply delete_files_is_delete_path.
  - intros W h w files. apply commit_files_is_write_path.
  - intros W h w paths. apply delete_files_no_reads.
  - intros W h w paths ev Hin Htree.
    destruct (delete_files_tree_entries env h paths message w ev Hin Htree)
      as (ps & Hps & _ & Htr).
    exists ps. split; [by apply gather_fmap_Ok|done].
  - intros W h w paths ev req. apply delete_files_lookups.
  - intros w paths tok tip c t Htok Htruthy Hs Hquiet Href Hc Ht Hrel Habsent
      tree_id commit_id r.
    assert (Hmerge : foldl merge_entry (Some t)
                       (TreeEntry_json <$> (deletion_entry <$> paths)) = Some t).
    { by rewrite merge_deletions, delete_absent. }
    destruct (protocol_on_quiet_host env w tok message "deletedFiles"
                (deletion_entry <$> paths) paths tip c t t
                Hs Hquiet Href Hc Ht Hmerge)
      as (Hout & _ & _ & _ & Hrefs & Hcommits & Htrees & _).
    subst r.
    rewrite (delete_files_run env w paths message tok _ Htok Htruthy Hrel Hout).
    split; [exact Hout|].
    rewrite Hrefs, Hcommits, Htrees.
    by rewrite !lookup_insert_eq.
Qed.

(** C9.  If one of the paths given to [delete_files] begins with a
    separator and does not begin with the working directory, the tool makes
    no outside call at all, leaves the world as it was, and returns an error
    payload: the error for the missing token, or the error for a path
    outside the working directory. *)
Theorem delete_outside_cwd_fails_before_network (env : Env)
    (paths : list string) (message : string) (p : string) :
  p ∈ paths →
  JS.startsWith p "/" = true →
  JS.startsWith p (cwd env) = false →
  ∀ (W : Type) (h : Handler Call W) (w : W),
    trace (exec h (delete_files env paths message) w) = []
    ∧ final (exec h (delete_files env paths message) w) = w
    ∧ ∃ e, outcome (exec h (delete_files env paths message) w)
           = Ok (error_result e)
           ∧ isError (error_result e) = true
           ∧ error (error_result e) = Some e
           ∧ (e = "GITHUB_TOKEN environment variable is required"
              ∨ ∃ q, q ∈ paths
                     ∧ e = "Path '" +:+ q +:+
                           "' must be relative to repository root or within current working directory").
Proof.
  intros Hp Habs Hout W h w.
  destruct (delete_files_outside env h paths message w p Hp Habs Hout)
    as (Htr & Hfin & e & He & Hwhich).
  split; [done|]. split; [done|]. by exists e.
Qed.

(** C10.  Whatever the host answers, a tree request of [commit_files]
    with an empty list of files carries no entry.  On the reference host
    with no other writer the call succeeds: it makes the five requests of
    the protocol and no local read, the tree request carries no entry on top
    of the base tree, the commit request names the prior tip as the only
    parent, the ref update is accepted, the branch then points at the new
    commit, whose tree has the content of the base tree, and the success
    payload lists no file. *)
Theorem empty_commit_is_applied (env : Env) (message : string) :
  (∀ (W : Type) (h : Handler Call W) (w : W) ev,
     ev ∈ trace (exec h (commit_files env [] message) w) →
     is_tree_request ev = true →
     submitted_tree ev = Some [])
  ∧ ∀ (w : world) (tok tip : string) (c : CommitObject)
      (t : gmap string string),
  env_GITHUB_TOKEN env = Some tok → JS.truthy tok = true →
  serves env (host w) → inbox (host w) = [] →
  refs (host w) !! BRANCH_NAME env = Some tip →
  commits (host w) !! tip = Some c →
  trees (host w) !! c_tree c = Some t →
  let tree_id := "tree-" +:+ pretty (minted (host w)) in
  let commit_id := "commit-" +:+ pretty (N.succ (minted (host w))) in
  let r := exec serve (commit_files env [] message) w in
  outcome r
    = Ok (success_result
            (JObj [ ("commit", JObj [ ("sha", JStr commit_id);
                                      ("message", JStr message);
                                      ("author", JStr (committer (host w)));
                                      ("date", JStr (clock (host w))) ]);
                    ("files", JArr []);
                    ("tree", JObj [ ("sha", JStr tree_id) ]) ]))
  ∧ omap request_of (trace r)
    = [ {| url := repo_url env (REPO_OWNER env) (REPO_NAME env)
                    +:+ "/git/refs/heads/" +:+ BRANCH_NAME env;
           method := GET; headers := read_headers tok; body := None |};
        {| url := repo_url env (REPO_OWNER env) (REPO_NAME env)
                    +:+ "/git/commits/" +:+ tip;
           method := GET; headers := read_headers tok; body := None |};
        {| url := repo_url env (REPO_OWNER env) (REPO_NAME env) +:+ "/git/trees";
           method := POST; headers := write_headers tok;
           body := Some (JSON_stringify
                     (JObj [ ("base_tree", JStr (c_tree c));
                             ("tree", JArr []) ]) 0) |};
        {| url := repo_url env (REPO_OWNER env) (REPO_NAME env) +:+ "/git/commits";
           method := POST; headers := write_headers tok;
           body := Some (JSON_stringify
                     (JObj [ ("message", JStr message);
                             ("tree", JStr tree_id);
                             ("parents", JArr [JStr tip]) ]) 0) |};
        {| url := repo_url env (REPO_OWNER env) (REPO_NAME env)
                    +:+ "/git/refs/heads/" +:+ BRANCH_NAME env;
           method := PATCH; headers := write_headers tok;
           body := Some (JSON_stringify
                     (JObj [ ("sha", JStr commit_id);
                             ("force", JBool false) ]) 0) |} ]
  ∧ length (trace r) = 5
  ∧ forallb answered_ok (trace r) = true
  ∧ refs (host (final r)) !! BRANCH_NAME env = Some commit_id
  ∧ commits (host (final r)) !! commit_id
    = Some {| c_tree := tree_id; c_parents := [tip]; c_message := message |}
  ∧ trees (host (final r)) !! tree_id = Some t.
Proof.
  split.
  { intros W h w ev Hin Htree.
    destruct (commit_files_tree_entries env h [] message w ev Hin Htree)
      as (contents & Hlen & ->).
    by destruct contents. }
  intros w tok tip c t Htok Htruthy Hs Hquiet Href Hc Ht tree_id commit_id r.
  destruct (protocol_on_quiet_host env w tok message "files" [] [] tip c t t
              Hs Hquiet Href Hc Ht eq_refl)
    as (Hout & Hreqs & Hlen & Hok & Hrefs & Hcommits & Htrees & _).
  subst r.
  rewrite (commit_files_nil_run env w message tok _ Htok Htruthy Hout).
  split; [exact Hout|]. split; [exact Hreqs|].
  split; [exact Hlen|]. split; [exact Hok|].
  rewrite Hrefs, Hcommits, Htrees.
  by rewrite !lookup_insert_eq.
Qed.

End CommitEngine.

(* ================================================================== *)
(** * The atomic commit engine on concrete worlds *)
(* ================================================================== *)

Section CommitEngineRuns.

Import FileOps World Demo.

Lemma ref_update_is_fast_forward_only_witness :
  ∃ ev, trace raced_commit !! 5 = Some ev
        ∧ refused_update ev = true
        ∧ outcome raced_commit
          = Ok (error_result
                  "Failed to update reference: 422 - Update is not a fast forward")
        ∧ after refused_update (trace raced_commit) = []
        ∧ refs (host (final raced_commit)) !! "claude/issue-7" = Some "c9".
Proof.
  eexists. split; [vm_compute; reflexivity|].
  split; [reflexivity|].
  destruct (ref_update_is_fast_forward_only env
              (call_commit_files ["src/a.ts"] "msg")) as [Hgen Hhost].
  assert (Hin : trace raced_commit !! 5 = Some
                  (event Response
                     (Fetch {| url := "https://api.github.com/repos/octo/demo/git/refs/heads/claude/issue-7";
                               method := PATCH;
                               headers := write_headers "t0ken";
                               body := Some (JSON_stringify
                                         (JObj [ ("sha", JStr "commit-2");
                                                 ("force", JBool false) ]) 0) |})
                     (Ok (refuse 422 "Update is not a fast forward"))))
    by (vm_compute; reflexivity).
  apply list_elem_of_lookup_2 in Hin.
  destruct (Hgen world serve busy) as [_ Hrefused].
  destruct (Hrefused _ Hin eq_refl) as (Hout & Hafter & _).
  split; [exact Hout|]. split; [exact Hafter|].
  unfold raced_commit. rewrite (Hhost busy _ Hin eq_refl).
  vm_compute. reflexivity.
Defined.

Lemma read_failure_fails_whole_batch_witness :
  (existsb read_failed (trace missing_file_commit) = true
   ∧ existsb is_write (trace missing_file_commit) = false
   ∧ isError <$> outcome_value missing_file_commit = Some true
   ∧ refs (host (final missing_file_commit)) = refs quiet)
  ∧ ("missing.ts" ∈ ["src/a.ts"; "missing.ts"]
     ∧ disk calm !! fullPath env (strip_leading_slash "missing.ts") = None
     ∧ existsb is_write (trace missing_file_commit) = false).
Proof.
  destruct (read_failure_fails_whole_batch env ["src/a.ts"; "missing.ts"] "msg")
    as (Hgen & Hhost & Hdisk).
  assert (Hfail : existsb read_failed (trace missing_file_commit) = true)
    by (vm_compute; reflexivity).
  destruct (Hgen world serve calm Hfail) as (Hnw & p & e & _ & _ & Hout & Herr).
  destruct (Hhost calm Hfail) as [_ Hquiet].
  assert (Hin : "missing.ts" ∈ ["src/a.ts"; "missing.ts"])
    by (apply list_elem_of_further, list_elem_of_here).
  destruct (Hdisk calm "missing.ts" Hin eq_refl) as (Hnw' & _).
  split.
  - split; [exact Hfail|]. split; [exact Hnw|].
    split; [unfold outcome_value, missing_file_commit; by rewrite Hout|].
    exact (Hquiet eq_refl).
  - split; [exact Hin|]. split; [reflexivity|exact Hnw'].
Defined.



Lemma delete_path_mirrors_write_path_witness :
  (∃ ev, trace absent_delete !! 2 = Some ev
         ∧ is_tree_request ev = true
         ∧ ∃ ps, Forall2 (λ p q, relative_to_cwd env p = Ok q)
                   ["nothere.txt"] ps
                 ∧ submitted_tree ev
                   = Some ((λ p, JObj [ ("path", JStr p);
                                        ("mode", JStr "100644");
                                        ("type", JStr "blob");
                                        ("sha", JNull) ]) <$> ps))
  ∧ (trees quiet !! "t0" = Some {[ "README.md" := "hello" ]}
     ∧ Forall (λ p, JS.startsWith p "/" = false) ["nothere.txt"]
     ∧ Forall (λ p, ({[ "README.md" := "hello" ]} : gmap string string) !! p
                    = None) ["nothere.txt"]
     ∧ isError <$> outcome_value absent_delete = Some false
     ∧ refs (host (final absent_delete)) !! "claude/issue-7" = Some "commit-2"
     ∧ commits (host (final absent_delete)) !! "commit-2"
       = Some {| c_tree := "tree-1"; c_parents := ["c0"];
                 c_message := "msg" |}
     ∧ trees (host (final absent_delete)) !! "tree-1"
       = Some {[ "README.md" := "hello" ]}).
Proof.
  destruct (delete_path_mirrors_write_path env "msg")
    as (_ & _ & _ & Hentries & _ & Habsent).
  split.
  { eexists. split; [vm_compute; reflexivity|]. split; [reflexivity|].
    assert (Hin : ∀ ev, trace absent_delete !! 2 = Some ev →
                        ev ∈ trace absent_delete)
      by (intros ev; apply list_elem_of_lookup_2).
    exact (Hentries world serve calm ["nothere.txt"] _
             (Hin _ ltac:(vm_compute; reflexivity)) eq_refl). }
  assert (Hrel : Forall (λ p, JS.startsWith p "/" = false) ["nothere.txt"])
    by (repeat constructor).
  assert (Hnot : Forall (λ p, ({[ "README.md" := "hello" ]}
                               : gmap string string) !! p = None)
                   ["nothere.txt"])
    by (repeat constructor).
  assert (Ht : trees quiet !! "t0" = Some {[ "README.md" := "hello" ]})
    by reflexivity.
  destruct (Habsent calm ["nothere.txt"] "t0ken" "c0"
              {| c_tree := "t0"; c_parents := []; c_message := "init" |}
              {[ "README.md" := "hello" ]}
              eq_refl eq_refl (conj eq_refl (conj eq_refl eq_refl)) eq_refl
              eq_refl eq_refl Ht Hrel Hnot)
    as (Hout & Hrefs & Hcommits & Htrees).
  split; [exact Ht|]. split; [exact Hrel|]. split; [exact Hnot|].
  split; [unfold outcome_value, absent_delete; by rewrite Hout|].
  split; [exact Hrefs|]. split; [exact Hcommits|exact Htrees].
Defined.

Lemma delete_outside_cwd_fails_before_network_witness :
  "/a.txt" ∈ ["/a.txt"]
  ∧ JS.startsWith "/a.txt" "/" = true
  ∧ JS.startsWith "/a.txt" (cwd env) = false
  ∧ trace outside_delete = []
  ∧ final outside_delete = calm
  ∧ isError <$> outcome_value outside_delete = Some true.
Proof.
  assert (Hp : "/a.txt" ∈ ["/a.txt"]) by apply list_elem_of_here.
  destruct (delete_outside_cwd_fails_before_network env ["/a.txt"] "msg"
              "/a.txt" Hp eq_refl eq_refl world serve calm)
    as (Htr & Hfin & e & Hout & Herr & _).
  split; [exact Hp|]. split; [reflexivity|]. split; [reflexivity|].
  split; [exact Htr|]. split; [exact Hfin|].
  unfold outcome_value, outside_delete. by rewrite Hout.
Defined.

Lemma empty_commit_is_applied_witness :
  (env_GITHUB_TOKEN env = Some "t0ken" ∧ JS.truthy "t0ken" = true
   ∧ serves env quiet ∧ inbox quiet = []
   ∧ refs quiet !! "claude/issue-7" = Some "c0"
   ∧ commits quiet !! "c0"
     = Some {| c_tree := "t0"; c_parents := []; c_message := "init" |}
   ∧ trees quiet !! "t0" = Some {[ "README.md" := "hello" ]})
  ∧ isError <$> outcome_value empty_commit = Some false
  ∧ length (trace empty_commit) = 5
  ∧ refs (host (final empty_commit)) !! "claude/issue-7" = Some "commit-2"
  ∧ commits (host (final empty_commit)) !! "commit-2"
    = Some {| c_tree := "tree-1"; c_parents := ["c0"]; c_message := "msg" |}
  ∧ trees (host (final empty_commit)) !! "tree-1"
    = Some {[ "README.md" := "hello" ]}.
Proof.
  assert (Hs : serves env quiet) by (repeat split).
  assert (Ht : trees quiet !! "t0" = Some {[ "README.md" := "hello" ]})
    by reflexivity.
  assert (Hc : commits quiet !! "c0"
               = Some {| c_tree := "t0"; c_parents := []; c_message := "init" |})
    by reflexivity.
  assert (Hr : refs quiet !! "claude/issue-7" = Some "c0") by reflexivity.
  destruct (empty_commit_is_applied env "msg") as [_ Happlied].
  destruct (Happlied calm "t0ken" "c0"
              {| c_tree := "t0"; c_parents := []; c_message := "init" |}
              {[ "README.md" := "hello" ]}
              eq_refl eq_refl Hs eq_refl Hr Hc Ht)
    as (Hout & _ & Hlen & _ & Hrefs & Hcommits & Htrees).
  split; [by repeat split|].
  split; [unfold outcome_value, empty_commit; by rewrite Hout|].
  split; [exact Hlen|]. split; [exact Hrefs|].
  split; [exact Hcommits|exact Htrees].
Defined.

End CommitEngineRuns.

(* ================================================================== *)
(** * The trigger pipeline: the claims *)
(* ================================================================== *)

Section TriggerPipeline.

Import Prepare PipelineTrace.

Context {W : Type}.
Variable penv : ProcessEnv.
Variable h : Handler Call W.

(** One step of the case analysis of a run: the answer of the next
    collaborator, or the next condition of the source. *)
Ltac case_next :=
  match goal with
  | |- context [h ?T ?c ?w] =>
      let r := fresh "r" in
      destruct (h T c w) as [? r]; destruct r
  | |- context [throw_if (negb ?b)] => destruct b
  | |- context [if negb ?b then _ else _] => destruct b
  | |- context [JS.truthy_opt ?o] => destruct (JS.truthy_opt o) eqn:?
  | |- context [N.eqb ?a ?b] => destruct (N.eqb_spec a b)
  | |- context [match ?l with [] => _ | _ :: _ => _ end] => destruct l
  end; cbn.

Ltac run_cases :=
  match goal with
  | |- context [exec h ?p ?w] =>
      let r := fresh "r" in
      let Hr := fresh "Hr" in
      remember (exec h p w) as r eqn:Hr; revert Hr;
      unfold run, redirect; cbn;
      repeat first
        [ case_next
        | progress (unfold local_try, local_bind, with_locals, assign,
                      current, local_ret, mbind, mret, Local_bind,
                      Local_ret, Prog_bind, Prog_ret, await, perform); cbn ];
      intros ->; cbn
  end.


(** A run in which the trigger check reports that the phrase is absent. *)
Lemma run_absent_trigger (w : W) :
  existsb trigger_absent (trace (exec h (run penv) w)) = true →
  outcome (exec h (run penv) w) = Ok Completed
  ∧ existsb downstream (trace (exec h (run penv) w)) = false
  ∧ existsb writes_comment (trace (exec h (run penv) w)) = false
  ∧ existsb is_failure_report (trace (exec h (run penv) w)) = false.
Proof.
  run_cases; first [ discriminate | intros _; repeat split; reflexivity ].
Qed.

(** The order of the two gates, and what each of them does to a run. *)
Lemma run_permission_gate (w : W) :
  precedes permission_granted is_trigger_check
    (trace (exec h (run penv) w)) = true
  ∧ (existsb permission_denied (trace (exec h (run penv) w)) = true →
     outcome (exec h (run penv) w) = Ok (Exited 1)
     ∧ existsb (reports denial) (trace (exec h (run penv) w)) = true
     ∧ existsb is_trigger_check (trace (exec h (run penv) w)) = false
     ∧ existsb downstream (trace (exec h (run penv) w)) = false)
  ∧ (existsb trigger_absent (trace (exec h (run penv) w)) = true →
     outcome (exec h (run penv) w) = Ok Completed
     ∧ existsb is_failure_report (trace (exec h (run penv) w)) = false).
Proof.
  run_cases.
  all: repeat split; first [ reflexivity | discriminate | intros _ ].
  all: try first [ reflexivity | discriminate ].
Qed.



End TriggerPipeline.

Section BoardFacts.
Import Prepare PipelineTrace Script Board.
Variable penv : ProcessEnv.

#[local] Arguments JS.truthy_opt o : simpl never.

End BoardFacts.

Section Gates.

Import Prepare PipelineTrace Script.

(** The two gates against scripted collaborators. *)
Lemma scripted_gates (penv : ProcessEnv) (a : Answers) :
  (triggered a = Ok false →
   existsb downstream (trace (exec (answer a) (run penv) tt)) = false
   ∧ existsb writes_comment (trace (exec (answer a) (run penv) tt)) = false
   ∧ (is_ok (token a) = true → is_ok (parsed a) = true →
      writer a = Ok true →
      outcome (exec (answer a) (run penv) tt) = Ok Completed
      ∧ existsb is_failure_report (trace (exec (answer a) (run penv) tt))
        = false))
  ∧ (is_ok (token a) = true → is_ok (parsed a) = true →
     writer a = Ok false →
     outcome (exec (answer a) (run penv) tt) = Ok (Exited 1)
     ∧ existsb (reports denial) (trace (exec (answer a) (run penv) tt)) = true
     ∧ existsb is_trigger_check (trace (exec (answer a) (run penv) tt))
       = false).
Proof.
  destruct a as [tok par wr tr hu po fe br op pc ex li pr ou]. cbn.
  split.
  - intros ->.
    destruct tok as [tok|]; [|by repeat split].
    destruct par as [ctx|]; [|by repeat split].
    destruct wr as [[]|]; by repeat split.
  - destruct tok as [tok|]; [|done]. destruct par as [ctx|]; [|done].
    intros _ _ ->. by repeat split.
Qed.

(** C6.  In every run in which the trigger check reports that the trigger
    phrase is absent, the pipeline runs to its end without a failure
    annotation, and none of the later steps (human-actor check, tracking
    comment, data fetch, branch setup, redirect, link, prompt, MCP
    configuration) is run.  Against scripted collaborators: whenever the
    trigger phrase is absent, no later step is run and no comment is
    written, and the run ends without a failure whenever the token, the
    context and the write permission were obtained. *)
Theorem absent_trigger_is_a_successful_no_op (penv : ProcessEnv) :
  (∀ (W : Type) (h : Handler Call W) (w : W),
     existsb trigger_absent (trace (exec h (run penv) w)) = true →
     outcome (exec h (run penv) w) = Ok Completed
     ∧ existsb downstream (trace (exec h (run penv) w)) = false
     ∧ existsb writes_comment (trace (exec h (run penv) w)) = false
     ∧ existsb is_failure_report (trace (exec h (run penv) w)) = false)
  ∧ (∀ a : Answers,
       triggered a = Ok false →
       existsb downstream (trace (exec (answer a) (run penv) tt)) = false
       ∧ existsb writes_comment (trace (exec (answer a) (run penv) tt))
         = false
       ∧ (is_ok (token a) = true → is_ok (parsed a) = true →
          writer a = Ok true →
          outcome (exec (answer a) (run penv) tt) = Ok Completed
          ∧ existsb is_failure_report
              (trace (exec (answer a) (run penv) tt)) = false)).
Proof.
  split.
  - intros W h w. apply run_absent_trigger.
  - intros a. by destruct (scripted_gates penv a).
Qed.

(** C7.  The trigger check is only made after the permission check has
    granted.  In a run in which the permission check denies, the process
    exits with code 1 after the failure annotation for the denial, and the
    trigger check is not made at all, so the denial is fatal whatever the
    event says about the trigger; a run in which the trigger is absent runs
    to its end without a failure annotation.  Against scripted
    collaborators: once the token and the context were obtained, a denied
    permission ends the run with exit code 1 whatever the answer of the
    trigger check would be. *)
Theorem permission_gate_comes_first (penv : ProcessEnv) :
  (∀ (W : Type) (h : Handler Call W) (w : W),
     precedes permission_granted is_trigger_check
       (trace (exec h (run penv) w)) = true
     ∧ (existsb permission_denied (trace (exec h (run penv) w)) = true →
        outcome (exec h (run penv) w) = Ok (Exited 1)
        ∧ existsb (reports denial) (trace (exec h (run penv) w)) = true
        ∧ existsb is_trigger_check (trace (exec h (run penv) w)) = false
        ∧ existsb downstream (trace (exec h (run penv) w)) = false)
     ∧ (existsb trigger_absent (trace (exec h (run penv) w)) = true →
        outcome (exec h (run penv) w) = Ok Completed
        ∧ existsb is_failure_report (trace (exec h (run penv) w)) = false))
  ∧ (∀ a : Answers,
       is_ok (token a) = true → is_ok (parsed a) = true →
       writer a = Ok false →
       outcome (exec (answer a) (run penv) tt) = Ok (Exited 1)
       ∧ existsb (reports denial) (trace (exec (answer a) (run penv) tt))
         = true
       ∧ existsb is_trigger_check (trace (exec (answer a) (run penv) tt))
         = false).
Proof.
  split.
  - intros W h w. apply run_permission_gate.
  - intros a. by destruct (scripted_gates penv a).
Qed.

End Gates.

Section RedirectOrLink.

Import Prepare PipelineTrace Script Board.


End RedirectOrLink.

(* ================================================================== *)
(** * The trigger pipeline on scripted runs *)
(* ================================================================== *)

Section TriggerPipelineRuns.

Import Prepare PipelineTrace Script Board.

Lemma absent_trigger_is_a_successful_no_op_witness :
  (existsb trigger_absent (trace (play no_trigger)) = true
   ∧ outcome (play no_trigger) = Ok Completed
   ∧ existsb downstream (trace (play no_trigger)) = false
   ∧ existsb writes_comment (trace (play no_trigger)) = false
   ∧ existsb is_failure_report (trace (play no_trigger)) = false)
  ∧ (triggered no_permission = Ok false
     ∧ existsb downstream (trace (play no_permission)) = false
     ∧ existsb writes_comment (trace (play no_permission)) = false).
Proof.
  assert (Habsent : existsb trigger_absent (trace (play no_trigger)) = true)
    by (vm_compute; reflexivity).
  destruct (absent_trigger_is_a_successful_no_op penv) as [Hrun Hscript].
  split.
  - split; [exact Habsent|].
    exact (Hrun unit (answer no_trigger) tt Habsent).
  - split; [reflexivity|].
    destruct (Hscript no_permission eq_refl) as (Hd & Hc & _).
    split; [exact Hd|exact Hc].
Defined.

Lemma permission_gate_comes_first_witness :
  (existsb permission_denied (trace (play no_permission)) = true
   ∧ outcome (play no_permission) = Ok (Exited 1)
   ∧ existsb (reports denial) (trace (play no_permission)) = true
   ∧ existsb is_trigger_check (trace (play no_permission)) = false
   ∧ existsb downstream (trace (play no_permission)) = false)
  ∧ (existsb trigger_absent (trace (play no_trigger)) = true
     ∧ outcome (play no_trigger) = Ok Completed
     ∧ existsb is_failure_report (trace (play no_trigger)) = false)
  ∧ (writer no_permission = Ok false
     ∧ triggered no_permission = Ok false
     ∧ outcome (play no_permission) = Ok (Exited 1)).
Proof.
  assert (Hdenied : existsb permission_denied (trace (play no_permission))
                    = true)
    by (vm_compute; reflexivity).
  assert (Habsent : existsb trigger_absent (trace (play no_trigger)) = true)
    by (vm_compute; reflexivity).
  destruct (permission_gate_comes_first penv) as [Hrun Hscript].
  destruct (Hrun unit (answer no_permission) tt) as (_ & Hfatal & _).
  destruct (Hrun unit (answer no_trigger) tt) as (_ & _ & Hnoop).
  destruct (Hscript no_permission eq_refl eq_refl eq_refl) as (Hexit & _).
  split; [|split].
  - split; [exact Hdenied|]. exact (Hfatal Hdenied).
  - split; [exact Habsent|]. exact (Hnoop Habsent).
  - split; [reflexivity|]. split; [reflexivity|exact Hexit].
Defined.




End TriggerPipelineRuns.

(* ================================================================== *)
(** * The commit engine: order, failures and data flow *)
(* ================================================================== *)

Section Engine.

Import FileOps ToolTrace.

#[local] Arguments Promise_all {E T} cs : simpl never.

Lemma reads_have_no_request (tr : list (Event Call)) :
  Forall (λ ev, is_read ev = true) tr →
  omap request_of tr = [] ∧ fetches tr = [].
Proof.
  induction 1 as [|ev tr Hev _ [IH1 IH2]]; [done|].
  destruct ev as [T [req|p enc] r]; [done|]. cbn. by rewrite IH1.
Qed.

Lemma before_app {X} (p : X → bool) (l1 l2 : list X) :
  existsb p l1 = false → before p (l1 ++ l2) = (l1 ++ before p l2)%list.
Proof.
  induction l1 as [|x l1 IH]; cbn; [done|].
  destruct (p x); cbn; [done|]. intros H. by rewrite IH.
Qed.

Section EngineFacts.
Context {W : Type}.
Variable env : Env.
Variable h : Handler Call W.

Lemma reads_only_reads (ps : list string) (rs : list (Result string)) :
  Forall (λ ev, is_read ev = true) (zip_with (event string) ((λ filePath, ReadFile (fullPath env filePath) "utf-8") <$> ps) rs).
Proof.
  revert rs. induction ps as [|p ps IH]; intros [|r rs]; cbn; try constructor.
  - done.
  - apply IH.
Qed.

Lemma reads_settled (ps : list string) (rs : list (Result string))
    (vs : list string) :
  length rs = length ps → gather rs = Ok vs →
  forallb settled (zip_with (event string) ((λ filePath, ReadFile (fullPath env filePath) "utf-8") <$> ps) rs) = true
  ∧ contents_read (zip_with (event string) ((λ filePath, ReadFile (fullPath env filePath) "utf-8") <$> ps) rs) = vs
  ∧ omap read_path (zip_with (event string) ((λ filePath, ReadFile (fullPath env filePath) "utf-8") <$> ps) rs)
    = fullPath env <$> ps.
Proof.
  revert rs vs. induction ps as [|p ps IH]; intros [|r rs] vs; cbn; try done.
  - by intros _ [= <-].
  - intros [= Hlen]. destruct r as [v|e]; [|done].
    destruct (gather rs) as [vs'|] eqn:Hg; [|done]. intros [= <-].
    destruct (IH rs vs' Hlen Hg) as (H1 & H2 & H3).
    unfold contents_read in *. cbn. by rewrite H1, H2, H3.
Qed.

Ltac tool_case :=
  match goal with
  | |- context [JS.truthy_opt ?o] => destruct (JS.truthy_opt o) eqn:?
  | |- context [h ?T ?c ?w] =>
      let r := fresh "r" in
      destruct (h T c w) as [? r]; destruct r
  | |- context [throw_if (negb ?b)] => destruct b eqn:?
  | |- context [decode ?o] => destruct o eqn:?
  | |- context [map_or_throw ?f ?xs] =>
      unfold map_or_throw; destruct (gather (f <$> xs)) eqn:?
  | |- context [exec h (try_catch (bind (Promise_all (?f <$> ?ps)) ?k) ?hd) ?w] =>
      let rs := fresh "rs" in
      let Hlen := fresh "Hlen" in
      let Hall := fresh "Hall" in
      let trr := fresh "reads" in
      rewrite (exec_try_catch_bind h (Promise_all (f <$> ps)) k hd w);
      destruct (exec_Promise_all h (f <$> ps) w) as (rs & ? & Hlen & ->);
      rewrite length_fmap in Hlen;
      pose proof (reads_only_reads ps rs) as Hall;
      pose proof (reads_settled ps rs);
      set (trr := zip_with (event string) (f <$> ps) rs) in *;
      destruct (reads_have_no_request trr Hall);
      pose proof (existsb_reads is_write trr
                    ltac:(by intros [? [] ?]) Hall);
      pose proof (existsb_reads unanswered trr
                    ltac:(by intros [? [] ?]) Hall);
      pose proof (existsb_reads accepted_update trr
                    ltac:(by intros [? [] ?]) Hall);
      cbn;
      destruct (gather rs) eqn:?
  end; cbn.

Ltac tool_cases :=
  match goal with
  | |- context [exec h ?p ?w] =>
      let r := fresh "r" in
      let Hr := fresh "Hr" in
      remember (exec h p w) as r eqn:Hr; revert Hr;
      unfold commit_files, delete_files, required_token; cbn;
      repeat first
        [ tool_case
        | progress (unfold mbind, mret, Prog_bind, Prog_ret, await); cbn ];
      intros ->; cbn
  end.

Ltac through_reads :=
  unfold methods, fetches;
  rewrite ?omap_app, ?List.filter_app, ?fmap_app, ?existsb_app, ?forallb_app;
  cbn;
  repeat match goal with
         | H : omap request_of ?l = _ |- context [omap request_of ?l] =>
             rewrite H
         | H : fetches ?l = _ |- context [List.filter is_fetch ?l] =>
             unfold fetches in H; rewrite H
         | H : existsb ?p ?l = _ |- context [existsb ?p ?l] => rewrite H
         | H : forallb ?p ?l = _ |- context [forallb ?p ?l] => rewrite H
         end;
  cbn.

Ltac settle :=
  cbn in *;
  repeat match goal with
         | H : ok ?a = _, H' : negb (ok ?a) = _ |- _ => rewrite H in H'
         | H : ok ?a = _ |- context [ok ?a] => rewrite H
         end;
  cbn in *; try done.

Ltac crunch :=
  repeat first
    [ progress settle
    | match goal with
      | H : existsb ?p ?l = false |- context [after ?p (?l ++ _)] =>
          rewrite (after_app p l _ H)
      | H : existsb ?p ?l = _ |- context [existsb ?p (?l ++ _)] =>
          rewrite (existsb_app p l), H
      end
    | progress (unfold unanswered, answered_ok, accepted_update,
                  is_ref_update, sends) ].

Ltac which_event Hin :=
  repeat first
    [ apply elem_of_cons in Hin as [->|Hin]
    | apply elem_of_app in Hin as [Hin|Hin]
    | apply elem_of_nil in Hin; destruct Hin ].

Ltac not_a_read Hin :=
  match goal with
  | Hall : Forall (λ ev, is_read ev = true) _ |- _ =>
      rewrite (Forall_forall (λ ev, is_read ev = true)) in Hall;
      apply Hall in Hin
  end.

(** The fetches of a trace, with the reads taken out. *)
Ltac fetches_in H :=
  try unfold fetches in H;
  rewrite ?List.filter_app in H; cbn in H;
  repeat match goal with
         | H' : fetches ?l = [] |- _ =>
             unfold fetches in H'
         | H' : List.filter is_fetch ?l = [] |- _ =>
             rewrite H' in H
         end;
  cbn in H.

(** ** What a result means *)

Lemma commit_files_result (files : list string) (message : string) (w : W) :
  ∃ res,
    outcome (exec h (commit_files env files message) w) = Ok res
    ∧ ((∃ e, res = error_result e)
       ∨ (isError res = false ∧ error res = None
          ∧ methods (trace (exec h (commit_files env files message) w))
            = protocol_methods
          ∧ forallb answered_ok
              (fetches (trace (exec h (commit_files env files message) w)))
            = true
          ∧ forallb settled (trace (exec h (commit_files env files message) w))
            = true
          ∧ existsb accepted_update
              (trace (exec h (commit_files env files message) w)) = true)).
Proof.
  tool_cases.
  all: eexists; split; [reflexivity|].
  all: try (left; eexists; reflexivity).
  right. through_reads.
  match goal with
  | H : ∀ vs, _ → _ → _, Hl : length _ = _ |- _ =>
      destruct (H _ Hl eq_refl) as (Hs & _)
  end.
  unfold answered_ok, accepted_update, is_ref_update, sends. settle.
  rewrite Hs. by repeat split.
Qed.

Lemma delete_files_result (paths : list string) (message : string) (w : W) :
  ∃ res,
    outcome (exec h (delete_files env paths message) w) = Ok res
    ∧ ((∃ e, res = error_result e)
       ∨ (isError res = false ∧ error res = None
          ∧ methods (trace (exec h (delete_files env paths message) w))
            = protocol_methods
          ∧ forallb answered_ok
              (fetches (trace (exec h (delete_files env paths message) w)))
            = true
          ∧ forallb settled (trace (exec h (delete_files env paths message) w))
            = true
          ∧ existsb accepted_update
              (trace (exec h (delete_files env paths message) w)) = true)).
Proof.
  tool_cases.
  all: eexists; split; [reflexivity|].
  all: try (left; eexists; reflexivity).
  right.
  unfold answered_ok, accepted_update, is_ref_update, sends. settle.
Qed.

(** ** The order of the requests *)

Lemma before_reads (l l2 : list (Event Call)) :
  Forall (λ ev, is_read ev = true) l →
  existsb is_read l = true →
  before is_read (l ++ l2) = [].
Proof.
  intros Hall. destruct Hall as [|ev l Hev _]; cbn; [done|]. by rewrite Hev.
Qed.

Lemma commit_files_order (files : list string) (message : string) (w : W) :
  starts (methods (trace (exec h (commit_files env files message) w)))
    protocol_methods = true
  ∧ after unanswered (trace (exec h (commit_files env files message) w)) = []
  ∧ (existsb unanswered (trace (exec h (commit_files env files message) w))
       = true →
     ∃ e, outcome (exec h (commit_files env files message) w)
          = Ok (error_result e))
  ∧ (existsb is_read (trace (exec h (commit_files env files message) w))
       = true →
     methods (before is_read
                (trace (exec h (commit_files env files message) w)))
       = [GET; GET]
     ∧ forallb answered_ok
         (before is_read (trace (exec h (commit_files env files message) w)))
       = true
     ∧ existsb is_read
         (after is_write (trace (exec h (commit_files env files message) w)))
       = false).
Proof.
  tool_cases.
  all: through_reads.
  all: split; [reflexivity|].
  all: crunch.
  all: split; [reflexivity|].
  all: split; [first [ discriminate | intros _; eexists; reflexivity ]|].
  all: try discriminate.
  all: rewrite orb_false_r; intros Hread.
  all: match goal with
       | Hall : Forall (λ ev, is_read ev = true) ?l |- _ =>
           rewrite (before_reads l _ Hall Hread)
       end.
  all: by crunch.
Qed.

Lemma delete_files_order (paths : list string) (message : string) (w : W) :
  starts (methods (trace (exec h (delete_files env paths message) w)))
    protocol_methods = true
  ∧ after unanswered (trace (exec h (delete_files env paths message) w)) = []
  ∧ (existsb unanswered (trace (exec h (delete_files env paths message) w))
       = true →
     ∃ e, outcome (exec h (delete_files env paths message) w)
          = Ok (error_result e))
  ∧ existsb is_read (trace (exec h (delete_files env paths message) w))
    = false.
Proof.
  tool_cases.
  all: split; [reflexivity|].
  all: unfold unanswered, answered_ok; settle.
  all: split; [reflexivity|].
  all: split; [|reflexivity].
  all: first [ discriminate | intros _; eexists; reflexivity ].
Qed.

(** ** The error of a failed step *)

Ltac nth_fetch Hi i :=
  fetches_in Hi;
  repeat (destruct i as [|i]; cbn in Hi; simplify_eq); cbn in *.

Lemma commit_files_step_error (files : list string) (message : string)
    (w : W) :
  (∀ i ev resp,
     fetches (trace (exec h (commit_files env files message) w)) !! i
       = Some ev →
     response_of ev = Some resp → ok resp = false →
     outcome (exec h (commit_files env files message) w)
       = Ok (error_result (step_error i resp)))
  ∧ (∀ ev e,
       ev ∈ trace (exec h (commit_files env files message) w) →
       rejection ev = Some e →
       outcome (exec h (commit_files env files message) w)
         = Ok (error_result e)).
Proof.
  tool_cases.
  all: split;
    [ intros i ev resp Hi Hresp Hok; nth_fetch Hi i; congruence
    | intros ev e' Hin Hrej; which_event Hin; cbn in Hrej;
      try congruence;
      not_a_read Hin; by destruct ev as [? [] ?] ].
Qed.

Lemma delete_files_step_error (paths : list string) (message : string)
    (w : W) :
  (∀ i ev resp,
     fetches (trace (exec h (delete_files env paths message) w)) !! i
       = Some ev →
     response_of ev = Some resp → ok resp = false →
     outcome (exec h (delete_files env paths message) w)
       = Ok (error_result (step_error i resp)))
  ∧ (∀ ev e,
       ev ∈ trace (exec h (delete_files env paths message) w) →
       rejection ev = Some e →
       outcome (exec h (delete_files env paths message) w)
         = Ok (error_result e)).
Proof.
  tool_cases.
  all: split;
    [ intros i ev resp Hi Hresp Hok; nth_fetch Hi i; congruence
    | intros ev e' Hin Hrej; which_event Hin; cbn in Hrej; congruence ].
Qed.

(** ** What each request is built from *)



(** ** Where the requests go *)

Lemma commit_files_confined (files : list string) (message : string)
    (w : W) (ev : Event Call) (req : Request) :
  ev ∈ (trace (exec h (commit_files env files message) w)) →
  request_of ev = Some req →
  (∃ rest, url req = repo_url env (REPO_OWNER env) (REPO_NAME env)
                       +:+ "/git/" +:+ rest)
  ∧ (method req = PATCH →
     url req = repo_url env (REPO_OWNER env) (REPO_NAME env)
                 +:+ "/git/refs/heads/" +:+ BRANCH_NAME env)
  ∧ (∃ tok, env_GITHUB_TOKEN env = Some tok ∧ JS.truthy tok = true
            ∧ header "Authorization" req = Some ("Bearer " +:+ tok))
  ∧ (method req = GET → body req = None)
  ∧ (method req ≠ GET →
     header "Content-Type" req = Some "application/json"
     ∧ ∃ v, body req = Some (JSON_stringify v 0)).
Proof.
  tool_cases.
  all: intros Hin Hreq; which_event Hin; cbn in Hreq; simplify_eq.
  all: try (not_a_read Hin; by destruct ev as [? [] ?]).
  all: cbn.
  all: match goal with
       | H : JS.truthy_opt (env_GITHUB_TOKEN env) = true |- _ =>
           destruct (env_GITHUB_TOKEN env) as [tok|] eqn:Htok;
           [cbn in H|discriminate H]
       end.
  all: repeat split; try done; eauto.
Qed.

Lemma delete_files_confined (paths : list string) (message : string)
    (w : W) (ev : Event Call) (req : Request) :
  ev ∈ (trace (exec h (delete_files env paths message) w)) →
  request_of ev = Some req →
  (∃ rest, url req = repo_url env (REPO_OWNER env) (REPO_NAME env)
                       +:+ "/git/" +:+ rest)
  ∧ (method req = PATCH →
     url req = repo_url env (REPO_OWNER env) (REPO_NAME env)
                 +:+ "/git/refs/heads/" +:+ BRANCH_NAME env)
  ∧ (∃ tok, env_GITHUB_TOKEN env = Some tok ∧ JS.truthy tok = true
            ∧ header "Authorization" req = Some ("Bearer " +:+ tok))
  ∧ (method req = GET → body req = None)
  ∧ (method req ≠ GET →
     header "Content-Type" req = Some "application/json"
     ∧ ∃ v, body req = Some (JSON_stringify v 0)).
Proof.
  tool_cases.
  all: intros Hin Hreq; which_event Hin; cbn in Hreq; simplify_eq.
  all: try (not_a_read Hin; by destruct ev as [? [] ?]).
  all: cbn.
  all: match goal with
       | H : JS.truthy_opt (env_GITHUB_TOKEN env) = true |- _ =>
           destruct (env_GITHUB_TOKEN env) as [tok|] eqn:Htok;
           [cbn in H|discriminate H]
       end.
  all: repeat split; try done; eauto.
Qed.

(** ** What is committed is what was read *)


(** ** An accepted ref update is the end of a successful call *)

Lemma commit_files_accepted (files : list string) (message : string) (w : W) :
  existsb accepted_update (trace (exec h (commit_files env files message) w))
    = true →
  ∃ res, outcome (exec h (commit_files env files message) w) = Ok res
         ∧ isError res = false.
Proof.
  tool_cases.
  all: through_reads; crunch.
  all: intros _; eexists; split; reflexivity.
Qed.

Lemma delete_files_accepted (paths : list string) (message : string) (w : W) :
  existsb accepted_update (trace (exec h (delete_files env paths message) w))
    = true →
  ∃ res, outcome (exec h (delete_files env paths message) w) = Ok res
         ∧ isError res = false.
Proof.
  tool_cases.
  all: crunch.
  all: intros _; eexists; split; reflexivity.
Qed.

End EngineFacts.

(** X1.  A call of [commit_files] or [delete_files] never rejects: it
    returns the error payload of some error, or a success payload.  A success
    payload is only returned when the five requests of the protocol were
    made, in order, each of them was answered ok, every local read succeeded,
    and the ref update, the last of them, was accepted. *)
Theorem success_means_the_branch_was_moved (env : Env) (call : ToolCall)
    {W : Type} (h : Handler Call W) (w : W) :
  ∃ res,
    outcome (exec h (invoke env call) w) = Ok res
    ∧ ((∃ e, res = error_result e)
       ∨ (isError res = false ∧ error res = None
          ∧ methods (trace (exec h (invoke env call) w)) = protocol_methods
          ∧ forallb answered_ok
              (fetches (trace (exec h (invoke env call) w))) = true
          ∧ forallb settled (trace (exec h (invoke env call) w)) = true
          ∧ existsb accepted_update (trace (exec h (invoke env call) w))
            = true)).
Proof.
  destruct call as [files message|paths message].
  - apply commit_files_result.
  - apply delete_files_result.
Qed.

(** X2.  The requests of a call of [commit_files] or [delete_files] are an
    initial segment of the protocol (two lookups, the tree, the commit, the
    ref update).  A request that is rejected or answered not ok is the last
    outside call of the run, and the run then returns an error payload.  The
    local reads are made only when both lookups were answered ok, and no
    file is read once a write request was made. *)
Theorem requests_follow_the_protocol (env : Env) (call : ToolCall)
    {W : Type} (h : Handler Call W) (w : W) :
  starts (methods (trace (exec h (invoke env call) w))) protocol_methods
    = true
  ∧ after unanswered (trace (exec h (invoke env call) w)) = []
  ∧ (existsb unanswered (trace (exec h (invoke env call) w)) = true →
     ∃ e, outcome (exec h (invoke env call) w) = Ok (error_result e))
  ∧ (existsb is_read (trace (exec h (invoke env call) w)) = true →
     methods (before is_read (trace (exec h (invoke env call) w)))
       = [GET; GET]
     ∧ forallb answered_ok
         (before is_read (trace (exec h (invoke env call) w))) = true
     ∧ existsb is_read
         (after is_write (trace (exec h (invoke env call) w))) = false).
Proof.
  destruct call as [files message|paths message].
  - apply commit_files_order.
  - cbn [invoke].
    destruct (delete_files_order env h paths message w)
      as (H1 & H2 & H3 & H4).
    split; [done|]. split; [done|]. split; [done|].
    rewrite H4. discriminate.
Qed.

(** X3.  The error of a failed step.  When the [i]-th request of a call is
    answered with a response that is not ok, the call returns the error
    payload of that step: the status alone for the two lookups, the status
    and the response text for the tree, the commit and the ref update.  When
    a request is rejected, the call returns the error payload of the
    rejection. *)
Theorem failed_step_is_reported (env : Env) (call : ToolCall)
    {W : Type} (h : Handler Call W) (w : W) :
  (∀ i ev resp,
     fetches (trace (exec h (invoke env call) w)) !! i = Some ev →
     response_of ev = Some resp → ok resp = false →
     outcome (exec h (invoke env call) w)
       = Ok (error_result (step_error i resp)))
  ∧ (∀ ev e,
       ev ∈ trace (exec h (invoke env call) w) →
       rejection ev = Some e →
       outcome (exec h (invoke env call) w) = Ok (error_result e)).
Proof.
  destruct call as [files message|paths message].
  - apply commit_files_step_error.
  - apply delete_files_step_error.
Qed.


(** X5.  Every request of [commit_files] and [delete_files] goes to the git
    database of the configured repository, and every ref update to the ref
    of the configured branch; every request carries the token of the
    environment as a bearer token; a lookup has no body, and a write carries
    a JSON body and says so in its content type. *)
Theorem requests_stay_in_the_configured_repository (env : Env)
    (call : ToolCall) {W : Type} (h : Handler Call W) (w : W)
    (ev : Event Call) (req : Request) :
  ev ∈ trace (exec h (invoke env call) w) →
  request_of ev = Some req →
  (∃ rest, url req = repo_url env (REPO_OWNER env) (REPO_NAME env)
                       +:+ "/git/" +:+ rest)
  ∧ (method req = PATCH →
     url req = repo_url env (REPO_OWNER env) (REPO_NAME env)
                 +:+ "/git/refs/heads/" +:+ BRANCH_NAME env)
  ∧ (∃ tok, env_GITHUB_TOKEN env = Some tok ∧ JS.truthy tok = true
            ∧ header "Authorization" req = Some ("Bearer " +:+ tok))
  ∧ (method req = GET → body req = None)
  ∧ (method req ≠ GET →
     header "Content-Type" req = Some "application/json"
     ∧ ∃ v, body req = Some (JSON_stringify v 0)).
Proof.
  destruct call as [files message|paths message].
  - apply commit_files_confined.
  - apply delete_files_confined.
Qed.


End Engine.

(* ================================================================== *)
(** * The commit engine on the reference host *)
(* ================================================================== *)

Section EngineOnHost.

Import FileOps World ToolTrace.

Variable env : Env.

(** The local reads of the reference world: every file that is on the disk
    is read as it is, and the world stays as it is. *)
Lemma serve_issues_reads (ps cs : list string) (w : world) :
  Forall2 (λ p c, disk w !! fullPath env p = Some c) ps cs →
  exec serve
    (issue_all ((λ filePath, ReadFile (fullPath env filePath) "utf-8") <$> ps))
    w
  = mkRun w
      (zip_with (event string)
         ((λ filePath, ReadFile (fullPath env filePath) "utf-8") <$> ps)
         (Ok <$> cs))
      (Ok (Ok <$> cs)).
Proof.
  induction 1 as [|p c ps cs Hp _ IH]; [done|].
  cbn. rewrite Hp. cbn. rewrite exec_bind, IH. cbn. by rewrite app_nil_r.
Qed.

Lemma gather_Ok {T} (vs : list T) : gather (Ok <$> vs) = Ok vs.
Proof. induction vs as [|v vs IH]; cbn; [done|]. by rewrite IH. Qed.

Lemma serve_read_entries (ps cs : list string) (w : world) :
  Forall2 (λ p c, disk w !! fullPath env p = Some c) ps cs →
  exec serve (read_entries env ps) w
  = mkRun w
      (zip_with (event string)
         ((λ filePath, ReadFile (fullPath env filePath) "utf-8") <$> ps)
         (Ok <$> cs))
      (Ok (zip_with blob_entry ps cs)).
Proof.
  intros Hd. unfold read_entries, Promise_all.
  unfold mbind, Prog_bind. rewrite !exec_bind, (serve_issues_reads _ _ _ Hd).
  cbn. rewrite gather_Ok. cbn. by rewrite !app_nil_r.
Qed.

(** The files on the disk, with their contents. *)
Lemma on_disk_contents (d : gmap string string) (ps : list string) :
  Forall (λ p, is_Some (d !! fullPath env p)) ps →
  ∃ cs, Forall2 (λ p c, d !! fullPath env p = Some c) ps cs.
Proof.
  induction 1 as [|p ps [c Hc] _ [cs IH]].
  - by exists [].
  - exists (c :: cs). by constructor.
Qed.

(** ** What a tree request makes of a tree *)

Lemma merge_blobs (t : gmap string string) (ps cs : list string) :
  foldl merge_entry (Some t) (TreeEntry_json <$> zip_with blob_entry ps cs)
  = Some (foldl (λ t pc, <[pc.1 := pc.2]> t) t (zip ps cs)).
Proof.
  revert t cs. induction ps as [|p ps IH]; intros t [|c cs]; cbn; done.
Qed.

Lemma written_tree (d : gmap string string) (t : gmap string string)
    (ps cs : list string) :
  Forall2 (λ p c, d !! fullPath env p = Some c) ps cs →
  (∀ p, p ∈ ps →
     foldl (λ t pc, <[pc.1 := pc.2]> t) t (zip ps cs) !! p
     = d !! fullPath env p)
  ∧ (∀ q, q ∉ ps →
       foldl (λ t pc, <[pc.1 := pc.2]> t) t (zip ps cs) !! q = t !! q).
Proof.
  intros Hd. revert t. induction Hd as [|p c ps cs Hp _ IH]; intros t.
  - split; [by intros p ?%elem_of_nil|done].
  - cbn. destruct (IH (<[p := c]> t)) as [IHin IHout]. split.
    + intros q Hq. destruct (decide (q ∈ ps)) as [Hin|Hout].
      * by apply IHin.
      * rewrite (IHout q Hout).
        apply elem_of_cons in Hq as [->|?]; [|done].
        by rewrite lookup_insert_eq.
    + intros q Hq. apply not_elem_of_cons in Hq as [Hne Hout].
      rewrite (IHout q Hout). by rewrite lookup_insert_ne.
Qed.

Lemma deleted_tree (t : gmap string string) (ps : list string) :
  (∀ p, p ∈ ps → foldl (λ t p, delete p t) t ps !! p = None)
  ∧ (∀ q, q ∉ ps → foldl (λ t p, delete p t) t ps !! q = t !! q).
Proof.
  revert t. induction ps as [|p ps IH]; intros t.
  - split; [by intros p ?%elem_of_nil|done].
  - cbn. destruct (IH (delete p t)) as [IHin IHout]. split.
    + intros q Hq. destruct (decide (q ∈ ps)) as [Hin|Hout].
      * by apply IHin.
      * rewrite (IHout q Hout).
        apply elem_of_cons in Hq as [->|?]; [|done].
        by rewrite lookup_delete_eq.
    + intros q Hq. apply not_elem_of_cons in Hq as [Hne Hout].
      rewrite (IHout q Hout). by rewrite lookup_delete_ne.
Qed.

(** ** The protocol on a host with no other writer *)

Lemma exec_mbind {W A B} (h : Handler Call W) (p : Prog Call A)
    (k : A → Prog Call B) (w : W) :
  exec h (p ≫= k) w =
  match outcome (exec h p w) with
  | Ok a => after_events (trace (exec h p w))
              (exec h (k a) (final (exec h p w)))
  | Err e => mkRun (final (exec h p w)) (trace (exec h p w)) (Err e)
  end.
Proof. apply exec_bind. Qed.

Lemma protocol_run (w : world) (tok message key : string)
    (step3 : Prog Call (list TreeEntry)) (reads : list (Event Call))
    (es : list TreeEntry) (affected : list string)
    (tip : string) (c : CommitObject) (t t' : gmap string string) :
  serves env (host w) →
  inbox (host w) = [] →
  refs (host w) !! BRANCH_NAME env = Some tip →
  commits (host w) !! tip = Some c →
  trees (host w) !! c_tree c = Some t →
  (∀ g, exec serve step3 {| host := g; disk := disk w |}
        = mkRun {| host := g; disk := disk w |} reads (Ok es)) →
  foldl merge_entry (Some t) (TreeEntry_json <$> es) = Some t' →
  final (exec serve (commit_protocol env tok step3 message key affected) w)
  = {| host :=
         with_refs
           (<[BRANCH_NAME env
              := "commit-" +:+ pretty (N.succ (minted (host w)))]>
              (refs (host w)))
           (add_commit ("commit-" +:+ pretty (N.succ (minted (host w))))
              {| c_tree := "tree-" +:+ pretty (minted (host w));
                 c_parents := [tip]; c_message := message |}
              (add_tree ("tree-" +:+ pretty (minted (host w))) t' (host w)));
       disk := disk w |}
  ∧ outcome (exec serve (commit_protocol env tok step3 message key affected) w)
    = Ok (success_result
            (JObj [ ("commit",
                     JObj [ ("sha", JStr ("commit-" +:+
                                          pretty (N.succ (minted (host w)))));
                            ("message", JStr message);
                            ("author", JStr (committer (host w)));
                            ("date", JStr (clock (host w))) ]);
                    (key, JArr (path_json <$> affected));
                    ("tree", JObj [ ("sha", JStr ("tree-" +:+
                                                  pretty (minted (host w)))) ]) ])).
Proof.
  intros Hs Hi Href Hc Ht Hstep Hm.
  remember (exec serve (commit_protocol env tok step3 message key affected) w)
    as r eqn:Hr.
  destruct w as [g d]. cbn in Hs, Hi, Href, Hc, Ht, Hm, Hstep |- *.
  unfold commit_protocol in Hr.
  cbn -[respond arrive] in Hr.
  rewrite (arrive_quiet g Hi) in Hr.
  unfold respond at 1 in Hr. cbn [method url] in Hr.
  rewrite (route_ref env g Hs), Href in Hr.
  cbn -[respond arrive] in Hr.
  rewrite (arrive_quiet g Hi) in Hr.
  unfold respond at 1 in Hr. cbn [method url] in Hr.
  rewrite (route_commit env g Hs), Hc in Hr.
  cbn -[respond arrive] in Hr.
  rewrite exec_mbind, Hstep in Hr.
  cbn -[respond arrive merge_entry] in Hr.
  rewrite (arrive_quiet g Hi) in Hr.
  unfold respond at 1 in Hr. cbn [method url] in Hr.
  rewrite (route_trees env g Hs) in Hr.
  cbn -[respond arrive merge_entry] in Hr. rewrite Ht in Hr.
  cbn -[respond arrive merge_entry] in Hr. rewrite Hm in Hr.
  cbn -[respond arrive] in Hr.
  rewrite (arrive_quiet (add_tree _ t' g) Hi) in Hr.
  unfold respond at 1 in Hr. cbn [method url] in Hr.
  rewrite (route_commits env (add_tree _ t' g) Hs) in Hr.
  cbn -[respond arrive] in Hr. rewrite lookup_insert_eq in Hr.
  cbn -[respond arrive] in Hr.
  rewrite (arrive_quiet (add_commit _ _ (add_tree _ t' g)) Hi) in Hr.
  unfold respond at 1 in Hr. cbn [method url] in Hr.
  rewrite (route_ref env (add_commit _ _ (add_tree _ t' g)) Hs) in Hr.
  cbn -[respond arrive] in Hr. rewrite Href, lookup_insert_eq in Hr.
  unfold fast_forward in Hr. cbn in Hr. rewrite String.eqb_refl in Hr.
  cbn in Hr. subst r. cbn. done.
Qed.

(** The host after a call of the protocol that went through. *)
Lemma commit_files_on_host (w : world) (files cs : list string)
    (message tok tip : string) (c : CommitObject) (t : gmap string string) :
  env_GITHUB_TOKEN env = Some tok → JS.truthy tok = true →
  serves env (host w) → inbox (host w) = [] →
  refs (host w) !! BRANCH_NAME env = Some tip →
  commits (host w) !! tip = Some c →
  trees (host w) !! c_tree c = Some t →
  Forall2 (λ p c, disk w !! fullPath env p = Some c)
    (strip_leading_slash <$> files) cs →
  final (exec serve (commit_files env files message) w)
  = {| host :=
         with_refs
           (<[BRANCH_NAME env
              := "commit-" +:+ pretty (N.succ (minted (host w)))]>
              (refs (host w)))
           (add_commit ("commit-" +:+ pretty (N.succ (minted (host w))))
              {| c_tree := "tree-" +:+ pretty (minted (host w));
                 c_parents := [tip]; c_message := message |}
              (add_tree ("tree-" +:+ pretty (minted (host w)))
                 (foldl (λ t pc, <[pc.1 := pc.2]> t) t
                    (zip (strip_leading_slash <$> files) cs))
                 (host w)));
       disk := disk w |}
  ∧ ∃ res, outcome (exec serve (commit_files env files message) w) = Ok res
           ∧ isError res = false.
Proof.
  intros Htok Htruthy Hs Hquiet Href Hc Ht Hdisk.
  destruct (protocol_run w tok message "files"
              (read_entries env (strip_leading_slash <$> files)) _
              _ (strip_leading_slash <$> files) tip c t _
              Hs Hquiet Href Hc Ht
              (λ g, serve_read_entries _ _ {| host := g; disk := disk w |}
                      Hdisk)
              (merge_blobs t _ _))
    as [Hfinal Hout].
  assert (Hrun : exec serve (commit_files env files message) w
                 = exec serve
                     (commit_protocol env tok
                        (read_entries env (strip_leading_slash <$> files))
                        message "files" (strip_leading_slash <$> files)) w).
  { rewrite commit_files_is_write_path.
    unfold write_path, required_token.
    rewrite Htok. cbn [JS.truthy_opt default]. rewrite Htruthy.
    unfold mbind at 1, Prog_bind at 1. cbn [bind]. change (id tok) with tok.
    by rewrite exec_try_catch, Hout. }
  rewrite Hrun. split; [exact Hfinal|].
  eexists. split; [exact Hout|done].
Qed.

Lemma delete_files_on_host (w : world) (paths : list string)
    (message tok tip : string) (c : CommitObject) (t : gmap string string) :
  env_GITHUB_TOKEN env = Some tok → JS.truthy tok = true →
  serves env (host w) → inbox (host w) = [] →
  refs (host w) !! BRANCH_NAME env = Some tip →
  commits (host w) !! tip = Some c →
  trees (host w) !! c_tree c = Some t →
  Forall (λ p, JS.startsWith p "/" = false) paths →
  final (exec serve (delete_files env paths message) w)
  = {| host :=
         with_refs
           (<[BRANCH_NAME env
              := "commit-" +:+ pretty (N.succ (minted (host w)))]>
              (refs (host w)))
           (add_commit ("commit-" +:+ pretty (N.succ (minted (host w))))
              {| c_tree := "tree-" +:+ pretty (minted (host w));
                 c_parents := [tip]; c_message := message |}
              (add_tree ("tree-" +:+ pretty (minted (host w)))
                 (foldl (λ t p, delete p t) t paths)
                 (host w)));
       disk := disk w |}
  ∧ ∃ res, outcome (exec serve (delete_files env paths message) w) = Ok res
           ∧ isError res = false.
Proof.
  intros Htok Htruthy Hs Hquiet Href Hc Ht Hrel.
  destruct (protocol_run w tok message "deletedFiles"
              (Ret (deletion_entry <$> paths)) [] _ paths tip c t _
              Hs Hquiet Href Hc Ht (λ g, eq_refl) (merge_deletions t paths))
    as [Hfinal Hout].
  rewrite (delete_files_run env w paths message tok _ Htok Htruthy Hrel Hout).
  split; [exact Hfinal|]. eexists. split; [exact Hout|done].
Qed.

End EngineOnHost.

Section EngineOnHostClaims.

Import FileOps World ToolTrace.

(** X7.  All or nothing on the branch.  On the reference host, whatever
    the other writers do, a call of [commit_files] or [delete_files] that
    returns an error payload has moved no ref: every ref is where the other
    writers left it, and with no other writer the refs are unchanged. *)
Theorem failed_call_moves_no_ref (env : Env) (call : ToolCall) (w : world)
    (e : Error) :
  outcome (exec serve (invoke env call) w) = Ok (error_result e) →
  refs (host (final (exec serve (invoke env call) w)))
  = refs (others_only (count is_fetch (trace (exec serve (invoke env call) w)))
            (host w))
  ∧ (inbox (host w) = [] →
     refs (host (final (exec serve (invoke env call) w))) = refs (host w)).
Proof.
  intros Hout.
  assert (Hacc : existsb accepted_update
                   (trace (exec serve (invoke env call) w)) = false).
  { apply not_true_is_false. intros Hacc.
    destruct call as [files message|paths message]; cbn [invoke] in *.
    - destruct (commit_files_accepted env serve files message w Hacc)
        as (res & Hres & Hok). rewrite Hres in Hout. by simplify_eq.
    - destruct (delete_files_accepted env serve paths message w Hacc)
        as (res & Hres & Hok). rewrite Hres in Hout. by simplify_eq. }
  destruct (refs_follow_others (invoke env call) w Hacc) as [Hrefs _].
  split; [done|]. intros Hquiet. by rewrite Hrefs, others_only_quiet.
Qed.

(** X8.  On the reference host with no other writer, a call of
    [commit_files] whose files are all on the local disk succeeds: the branch
    then points at a new commit on top of the prior tip, and the tree of that
    commit maps every committed path to the content of the file on the disk
    and every other path to what the base tree had. *)
Theorem committed_tree_holds_the_files (env : Env) (w : world)
    (files : list string) (message tok tip : string) (c : CommitObject)
    (t : gmap string string) :
  env_GITHUB_TOKEN env = Some tok → JS.truthy tok = true →
  serves env (host w) → inbox (host w) = [] →
  refs (host w) !! BRANCH_NAME env = Some tip →
  commits (host w) !! tip = Some c →
  trees (host w) !! c_tree c = Some t →
  Forall (λ p, is_Some (disk w !! fullPath env p))
    (strip_leading_slash <$> files) →
  let tree_id := "tree-" +:+ pretty (minted (host w)) in
  let commit_id := "commit-" +:+ pretty (N.succ (minted (host w))) in
  let r := exec serve (commit_files env files message) w in
  isError <$> outcome_value r = Some false
  ∧ refs (host (final r)) !! BRANCH_NAME env = Some commit_id
  ∧ commits (host (final r)) !! commit_id
    = Some {| c_tree := tree_id; c_parents := [tip]; c_message := message |}
  ∧ disk (final r) = disk w
  ∧ ∃ t', trees (host (final r)) !! tree_id = Some t'
          ∧ (∀ p, p ∈ strip_leading_slash <$> files →
                  t' !! p = disk w !! fullPath env p)
          ∧ (∀ q, q ∉ strip_leading_slash <$> files → t' !! q = t !! q).
Proof.
  intros Htok Htruthy Hs Hquiet Href Hc Ht Hdisk tree_id commit_id r.
  destruct (on_disk_contents env _ _ Hdisk) as [cs Hcs].
  destruct (commit_files_on_host env w files cs message tok tip c t
              Htok Htruthy Hs Hquiet Href Hc Ht Hcs)
    as (Hfinal & res & Hout & Hok).
  subst r tree_id commit_id. unfold outcome_value.
  rewrite Hfinal, Hout. cbn. rewrite Hok, !lookup_insert_eq.
  repeat split.
  eexists. split; [reflexivity|]. by apply written_tree.
Qed.

(** X9.  On the reference host with no other writer, a call of
    [delete_files] with paths relative to the repository root succeeds: the
    branch then points at a new commit on top of the prior tip, and the tree
    of that commit has none of the deleted paths and every other path as the
    base tree had it. *)
Theorem deleted_paths_leave_the_tree (env : Env) (w : world)
    (paths : list string) (message tok tip : string) (c : CommitObject)
    (t : gmap string string) :
  env_GITHUB_TOKEN env = Some tok → JS.truthy tok = true →
  serves env (host w) → inbox (host w) = [] →
  refs (host w) !! BRANCH_NAME env = Some tip →
  commits (host w) !! tip = Some c →
  trees (host w) !! c_tree c = Some t →
  Forall (λ p, JS.startsWith p "/" = false) paths →
  let tree_id := "tree-" +:+ pretty (minted (host w)) in
  let commit_id := "commit-" +:+ pretty (N.succ (minted (host w))) in
  let r := exec serve (delete_files env paths message) w in
  isError <$> outcome_value r = Some false
  ∧ refs (host (final r)) !! BRANCH_NAME env = Some commit_id
  ∧ commits (host (final r)) !! commit_id
    = Some {| c_tree := tree_id; c_parents := [tip]; c_message := message |}
  ∧ ∃ t', trees (host (final r)) !! tree_id = Some t'
          ∧ (∀ p, p ∈ paths → t' !! p = None)
          ∧ (∀ q, q ∉ paths → t' !! q = t !! q).
Proof.
  intros Htok Htruthy Hs Hquiet Href Hc Ht Hrel tree_id commit_id r.
  destruct (delete_files_on_host env w paths message tok tip c t
              Htok Htruthy Hs Hquiet Href Hc Ht Hrel)
    as (Hfinal & res & Hout & Hok).
  subst r tree_id commit_id. unfold outcome_value.
  rewrite Hfinal, Hout. cbn. rewrite Hok, !lookup_insert_eq.
  repeat split.
  eexists. split; [reflexivity|]. apply deleted_tree.
Qed.

(** X10.  Calls compose through the branch.  On the reference host with no
    other writer, committing files that are on the disk and then deleting
    the same paths gives two commits in a line: the second has the first as
    its only parent, the first has the prior tip, the branch points at the
    second, and its tree has none of the files and every other path as the
    tree of the prior tip had it. *)
Theorem delete_after_commit_removes_the_files (env : Env) (w : world)
    (files : list string) (first second tok tip : string) (c : CommitObject)
    (t : gmap string string) :
  env_GITHUB_TOKEN env = Some tok → JS.truthy tok = true →
  serves env (host w) → inbox (host w) = [] →
  refs (host w) !! BRANCH_NAME env = Some tip →
  commits (host w) !! tip = Some c →
  trees (host w) !! c_tree c = Some t →
  Forall (λ p, JS.startsWith p "/" = false) files →
  Forall (λ p, is_Some (disk w !! fullPath env p)) files →
  let first_id := "commit-" +:+ pretty (N.succ (minted (host w))) in
  let second_tree :=
    "tree-" +:+ pretty (N.succ (N.succ (minted (host w)))) in
  let second_id :=
    "commit-" +:+ pretty (N.succ (N.succ (N.succ (minted (host w))))) in
  let r := exec serve (delete_files env files second)
             (final (exec serve (commit_files env files first) w)) in
  isError <$> outcome_value r = Some false
  ∧ refs (host (final r)) !! BRANCH_NAME env = Some second_id
  ∧ commits (host (final r)) !! second_id
    = Some {| c_tree := second_tree; c_parents := [first_id];
              c_message := second |}
  ∧ (c_parents <$> commits (host (final (exec serve
                                           (commit_files env files first) w)))
                     !! first_id) = Some [tip]
  ∧ ∃ t', trees (host (final r)) !! second_tree = Some t'
          ∧ (∀ p, p ∈ files → t' !! p = None)
          ∧ (∀ q, q ∉ files → t' !! q = t !! q).
Proof.
  intros Htok Htruthy Hs Hquiet Href Hc Ht Hrel Hdisk
    first_id second_tree second_id r.
  assert (Hsame : strip_leading_slash <$> files = files).
  { clear -Hrel. induction Hrel as [|p ps Hp _ IH]; [done|].
    cbn. rewrite IH. unfold strip_leading_slash. by rewrite Hp. }
  assert (Hdisk' : Forall (λ p, is_Some (disk w !! fullPath env p))
                     (strip_leading_slash <$> files))
    by (by rewrite Hsame).
  destruct (on_disk_contents env _ _ Hdisk') as [cs Hcs].
  destruct (commit_files_on_host env w files cs first tok tip c t
              Htok Htruthy Hs Hquiet Href Hc Ht Hcs)
    as (Hfinal & _).
  subst r. rewrite Hfinal.
  match goal with
  | |- context [exec serve _ ?w1] => set (w1' := w1)
  end.
  destruct (delete_files_on_host env w1' files second tok first_id
              {| c_tree := "tree-" +:+ pretty (minted (host w));
                 c_parents := [tip]; c_message := first |}
              (foldl (λ t pc, <[pc.1 := pc.2]> t) t
                 (zip (strip_leading_slash <$> files) cs))
              Htok Htruthy)
    as (Hfinal2 & res & Hout & Hok); try done.
  - subst w1' first_id. cbn. by rewrite lookup_insert_eq.
  - subst w1' first_id. cbn. by rewrite lookup_insert_eq.
  - subst w1'. cbn. by rewrite lookup_insert_eq.
  - unfold outcome_value. rewrite Hfinal2, Hout. subst w1'. cbn.
    rewrite Hok, !lookup_insert_eq. subst first_id second_tree second_id.
    repeat split.
    eexists. split; [reflexivity|].
    destruct (deleted_tree
                (foldl (λ t pc, <[pc.1 := pc.2]> t) t
                   (zip (strip_leading_slash <$> files) cs)) files)
      as [Hgone Hkept].
    split; [exact Hgone|].
    intros q Hq. rewrite (Hkept q Hq).
    apply (written_tree env (disk w)); [done|]. by rewrite Hsame.
Qed.

End EngineOnHostClaims.

(* ================================================================== *)
(** * The issue and pull-request tools *)
(* ================================================================== *)

Section IssueToolFacts.

Import FileOps ToolTrace IssueTools.

Context {W : Type}.
Variable env : Env.
Variable h : Handler Call W.

#[local] Arguments URLSearchParams_toString params : simpl never.
#[local] Arguments list_issues_params : simpl never.
#[local] Arguments set_if {A} truthy name as_json value fields : simpl never.
#[local] Arguments literal fields : simpl never.
#[local] Arguments simplify_issue issue : simpl never.
#[local] Arguments map_any {B} name f v : simpl never.
#[local] Arguments prop k v : simpl never.
#[local] Arguments prop2 k1 k2 v : simpl never.

Ltac issue_case :=
  match goal with
  | |- context [JS.truthy_opt ?o] => destruct (JS.truthy_opt o) eqn:?
  | |- context [h ?T ?c ?w] =>
      let r := fresh "r" in
      destruct (h T c w) as [? r]; destruct r
  | |- context [throw_if (negb ?b)] => destruct b eqn:?
  | |- context [eval ?r] => destruct r eqn:?
  end; cbn.

Ltac issue_cases :=
  match goal with
  | |- context [exec h ?p ?w] =>
      let r := fresh "r" in
      let Hr := fresh "Hr" in
      remember (exec h p w) as r eqn:Hr; revert Hr;
      unfold create_issue, update_issue_comment, create_pull_request,
        list_issues, required_token; cbn;
      repeat first
        [ issue_case
        | progress (unfold mbind, mret, Prog_bind, Prog_ret, await); cbn ];
      intros ->; cbn
  end.

Ltac which_event Hin :=
  repeat first
    [ apply elem_of_cons in Hin as [->|Hin]
    | apply elem_of_app in Hin as [Hin|Hin]
    | apply elem_of_nil in Hin; destruct Hin ].

Ltac settle :=
  cbn in *;
  repeat match goal with
         | H : ok ?a = _, H' : negb (ok ?a) = _ |- _ => rewrite H in H'
         | H : ok ?a = _ |- context [ok ?a] => rewrite H
         end;
  cbn in *; try done.

(** ** One request at most *)

Lemma issue_tool_shape (call : ToolCall) (w : W) :
  (length (trace (exec h (invoke env call) w)) ≤ 1)%nat
  ∧ existsb is_read (trace (exec h (invoke env call) w)) = false
  ∧ (∃ res,
       outcome (exec h (invoke env call) w) = Ok res
       ∧ ((∃ e, res = error_result e)
          ∨ (isError res = false ∧ error res = None
             ∧ ∃ ev, trace (exec h (invoke env call) w) = [ev]
                     ∧ answered_ok ev = true)))
  ∧ (∀ ev resp,
       ev ∈ trace (exec h (invoke env call) w) →
       response_of ev = Some resp → ok resp = false →
       outcome (exec h (invoke env call) w)
         = Ok (error_result (failure call resp)))
  ∧ (∀ ev e,
       ev ∈ trace (exec h (invoke env call) w) →
       rejection ev = Some e →
       outcome (exec h (invoke env call) w) = Ok (error_result e)).
Proof.
  destruct call; cbn [invoke]; issue_cases.
  all: split; [cbn; lia|].
  all: split; [reflexivity|].
  all: split;
    [ eexists; split; [reflexivity|];
      first [ left; eexists; reflexivity
            | right; split; [reflexivity|]; split; [reflexivity|];
              eexists; split; [reflexivity|];
              unfold answered_ok; cbn [response_of ev_call ev_result];
              assumption ]
    | ].
  all: split;
    [ intros ev resp Hin Hresp Hok; which_event Hin;
      cbn [response_of ev_call ev_result] in Hresp;
      first [ discriminate Hresp
            | injection Hresp as ->; first [ reflexivity | congruence ] ]
    | intros ev e' Hin Hrej; which_event Hin;
      cbn [rejection ev_call ev_result] in Hrej;
      first [ discriminate Hrej | injection Hrej as ->; reflexivity ] ].
Qed.

Lemma issue_tool_request (call : ToolCall) (w : W) (ev : Event Call)
    (req : Request) :
  ev ∈ trace (exec h (invoke env call) w) →
  request_of ev = Some req →
  (∃ rest, url req = repo_url env (target call).1 (target call).2 +:+ rest)
  ∧ (∃ tok, env_GITHUB_TOKEN env = Some tok ∧ JS.truthy tok = true
            ∧ header "Authorization" req = Some ("Bearer " +:+ tok))
  ∧ (is_listing call = true → method req = GET ∧ body req = None)
  ∧ (is_listing call = false →
     method req ≠ GET
     ∧ header "Content-Type" req = Some "application/json"
     ∧ ∃ v, body req = Some (JSON_stringify v 0)).
Proof.
  destruct call; cbn [invoke]; issue_cases.
  all: intros Hin Hreq; which_event Hin;
       cbn [request_of ev_call] in Hreq; injection Hreq as <-.
  all: cbn [url method headers FileOps.body target fst snd is_listing].
  all: match goal with
       | H : JS.truthy_opt (env_GITHUB_TOKEN env) = true |- _ =>
           destruct (env_GITHUB_TOKEN env) as [tok|] eqn:Htok;
           [cbn in H|discriminate H]
       end.
  all: split; [eexists; reflexivity|].
  all: split; [exists tok; split; [reflexivity|]; split; [assumption|reflexivity]|].
  all: split; [first [ discriminate | intros _; split; reflexivity ]|].
  all: first [ discriminate
             | intros _; split; [discriminate|];
               split; [reflexivity|eexists; reflexivity] ].
Qed.

(** ** What the write tools send *)

Lemma create_issue_calls (owner repo title body : string)
    (assignees labels : option (list string)) (milestone : option N)
    (w : W) (ev : Event Call) (req : Request) :
  ev ∈ trace (exec h (create_issue env owner repo title body assignees
                        labels milestone) w) →
  request_of ev = Some req →
  method req = POST
  ∧ url req = repo_url env owner repo +:+ "/issues"
  ∧ sent req
    = JObj (set_if truthy_number "milestone" JNum milestone
              (set_if (λ _, true) "labels" strings_json labels
                 (set_if (λ _, true) "assignees" strings_json assignees
                    [ ("title", JStr title); ("body", JStr body) ]))).
Proof.
  issue_cases.
  all: intros Hin Hreq; which_event Hin; cbn in Hreq; by simplify_eq.
Qed.

Lemma create_issue_request (owner repo title body : string)
    (assignees labels : option (list string)) (milestone : option N)
    (w : W) (ev : Event Call) (req : Request) :
  ev ∈ trace (exec h (create_issue env owner repo title body assignees
                        labels milestone) w) →
  request_of ev = Some req →
  method req = POST
  ∧ url req = repo_url env owner repo +:+ "/issues"
  ∧ get "title" (sent req) = Some (JStr title)
  ∧ get "body" (sent req) = Some (JStr body)
  ∧ get "assignees" (sent req) = strings_json <$> assignees
  ∧ get "labels" (sent req) = strings_json <$> labels
  ∧ get "milestone" (sent req)
    = match milestone with
      | Some n => if N.eqb n 0 then None else Some (JNum n)
      | None => None
      end.
Proof.
  intros Hin Hreq.
  destruct (create_issue_calls _ _ _ _ _ _ _ _ _ _ Hin Hreq)
    as (Hm & Hu & ->).
  split; [done|]. split; [done|].
  destruct assignees, labels, milestone as [n|];
    try destruct (N.eqb_spec n 0) as [->|Hn];
    unfold set_if, truthy_number; cbn;
    rewrite ?(proj2 (N.eqb_neq _ _)) by done; cbn; done.
Qed.

Lemma create_pull_request_calls (owner repo title body head base : string)
    (draft maintainer_can_modify : option bool)
    (w : W) (ev : Event Call) (req : Request) :
  ev ∈ trace (exec h (create_pull_request env owner repo title body head
                        base draft maintainer_can_modify) w) →
  request_of ev = Some req →
  method req = POST
  ∧ url req = repo_url env owner repo +:+ "/pulls"
  ∧ sent req
    = JObj (set_if (λ _, true) "maintainer_can_modify" JBool
              maintainer_can_modify
              (set_if (λ _, true) "draft" JBool draft
                 [ ("title", JStr title); ("body", JStr body);
                   ("head", JStr head); ("base", JStr base) ])).
Proof.
  issue_cases.
  all: intros Hin Hreq; which_event Hin; cbn in Hreq; by simplify_eq.
Qed.

Lemma create_pull_request_request (owner repo title body head base : string)
    (draft maintainer_can_modify : option bool)
    (w : W) (ev : Event Call) (req : Request) :
  ev ∈ trace (exec h (create_pull_request env owner repo title body head
                        base draft maintainer_can_modify) w) →
  request_of ev = Some req →
  method req = POST
  ∧ url req = repo_url env owner repo +:+ "/pulls"
  ∧ get "title" (sent req) = Some (JStr title)
  ∧ get "body" (sent req) = Some (JStr body)
  ∧ get "head" (sent req) = Some (JStr head)
  ∧ get "base" (sent req) = Some (JStr base)
  ∧ get "draft" (sent req) = JBool <$> draft
  ∧ get "maintainer_can_modify" (sent req) = JBool <$> maintainer_can_modify.
Proof.
  intros Hin Hreq.
  destruct (create_pull_request_calls _ _ _ _ _ _ _ _ _ _ _ Hin Hreq)
    as (Hm & Hu & ->).
  split; [done|]. split; [done|].
  destruct draft, maintainer_can_modify; unfold set_if; cbn; done.
Qed.

Lemma update_issue_comment_run (owner repo commentId body : string) (w : W) :
  (∀ ev req,
     ev ∈ trace (exec h (update_issue_comment env owner repo commentId body)
                   w) →
     request_of ev = Some req →
     method req = PATCH
     ∧ url req = repo_url env owner repo +:+ "/issues/comments/" +:+ commentId
     ∧ sent req = JObj [ ("body", JStr body) ])
  ∧ (∀ res,
       outcome (exec h (update_issue_comment env owner repo commentId body) w)
         = Ok res →
       isError res = false →
       answered_text res
         = Some ("Comment " +:+ commentId +:+ " updated successfully")
       ∧ existsb answered_ok
           (trace (exec h (update_issue_comment env owner repo commentId body)
                     w)) = true).
Proof.
  issue_cases.
  all: split;
    [ intros ev req Hin Hreq; which_event Hin; cbn in Hreq; by simplify_eq
    | intros res [= <-]; cbn; try discriminate; intros _;
      unfold answered_ok; by settle ].
Qed.

(** ** What the answers are made of *)

Lemma picked_fields (ks : list string) (b : json) :
  literal ((λ k, (k, get k b)) <$> ks)
  = JObj (omap (λ k, pair k <$> get k b) ks).
Proof.
  unfold literal. f_equal.
  induction ks as [|k ks IH]; [done|].
  cbn. rewrite IH. by destruct (get k b).
Qed.

Lemma create_issue_answer (owner repo title body : string)
    (assignees labels : option (list string)) (milestone : option N)
    (w : W) (ev : Event Call) (resp : Response) :
  ev ∈ trace (exec h (create_issue env owner repo title body assignees
                        labels milestone) w) →
  response_of ev = Some resp → ok resp = true →
  match json_body resp with
  | JNull =>
      ∃ e, outcome (exec h (create_issue env owner repo title body assignees
                              labels milestone) w)
           = Ok (error_result e)
  | result =>
      outcome (exec h (create_issue env owner repo title body assignees
                         labels milestone) w)
      = Ok (success_result
              (JObj (omap (λ k, pair k <$> get k result) issue_fields)))
  end.
Proof.
  unfold create_issue, required_token.
  destruct (JS.truthy_opt (env_GITHUB_TOKEN env));
    [|by intros ?%elem_of_nil].
  cbn. destruct (h _ _ w) as [w' [a|e]]; cbn.
  - destruct (ok a) eqn:Hoka; cbn.
    + unfold prop.
      destruct (json_body a) eqn:Hb; cbn.
      all: intros Hin Hresp Hok; which_event Hin; cbn in Hresp; simplify_eq.
      all: rewrite Hb; eauto.
      all: by rewrite <- picked_fields.
    + intros Hin Hresp Hok. which_event Hin. cbn in Hresp. simplify_eq.
      congruence.
  - intros Hin Hresp. which_event Hin. done.
Qed.

Lemma create_pull_request_answer (owner repo title body head base : string)
    (draft maintainer_can_modify : option bool)
    (w : W) (ev : Event Call) (resp : Response) :
  ev ∈ trace (exec h (create_pull_request env owner repo title body head
                        base draft maintainer_can_modify) w) →
  response_of ev = Some resp → ok resp = true →
  match json_body resp with
  | JObj fields =>
      match assoc "head" fields, assoc "base" fields with
      | Some head_value, Some base_value =>
          match head_value, base_value with
          | JNull, _ | _, JNull =>
              ∃ e, outcome (exec h (create_pull_request env owner repo title
                                      body head base draft
                                      maintainer_can_modify) w)
                   = Ok (error_result e)
          | _, _ =>
              outcome (exec h (create_pull_request env owner repo title body
                                 head base draft maintainer_can_modify) w)
              = Ok (success_result
                      (literal [ ("id", assoc "id" fields);
                                 ("number", assoc "number" fields);
                                 ("title", assoc "title" fields);
                                 ("state", assoc "state" fields);
                                 ("html_url", assoc "html_url" fields);
                                 ("head", get "ref" head_value);
                                 ("base", get "ref" base_value);
                                 ("created_at", assoc "created_at" fields) ]))
          end
      | _, _ =>
          ∃ e, outcome (exec h (create_pull_request env owner repo title body
                                  head base draft maintainer_can_modify) w)
               = Ok (error_result e)
      end
  | _ =>
      ∃ e, outcome (exec h (create_pull_request env owner repo title body
                              head base draft maintainer_can_modify) w)
           = Ok (error_result e)
  end.
Proof.
  unfold create_pull_request, required_token.
  destruct (JS.truthy_opt (env_GITHUB_TOKEN env));
    [|by intros ?%elem_of_nil].
  cbn. destruct (h _ _ w) as [w' [a|e]]; cbn.
  - destruct (ok a) eqn:Hoka; cbn.
    + unfold prop2, prop.
      destruct (json_body a) as [| | | | |fields] eqn:Hb; cbn;
        [| | | | |destruct (assoc "head" fields) as [[| | | | |hf]|] eqn:Hh;
                  cbn;
                  destruct (assoc "base" fields) as [[| | | | |bf]|] eqn:Hbase;
                  cbn].
      all: intros Hin Hresp Hok; which_event Hin; cbn in Hresp; simplify_eq.
      all: rewrite Hb; cbn; rewrite ?Hh, ?Hbase; eauto.
    + intros Hin Hresp Hok. which_event Hin. cbn in Hresp. simplify_eq.
      congruence.
  - intros Hin Hresp. which_event Hin. done.
Qed.

(** ** The query of [list_issues] *)


Lemma list_issues_answer (owner repo : string)
    (state labels assignee creator sort direction : option string)
    (per_page page : option N) (w : W) (ev : Event Call) (resp : Response) :
  ev ∈ trace (exec h (list_issues env owner repo state labels assignee
                        creator sort direction per_page page) w) →
  response_of ev = Some resp → ok resp = true →
  match json_body resp with
  | JArr items =>
      match gather (simplify_issue <$> items) with
      | Ok simplified =>
          outcome (exec h (list_issues env owner repo state labels assignee
                             creator sort direction per_page page) w)
          = Ok (success_result (JArr simplified))
          ∧ length simplified = length items
      | Err e =>
          outcome (exec h (list_issues env owner repo state labels assignee
                             creator sort direction per_page page) w)
          = Ok (error_result e)
      end
  | _ =>
      ∃ e, outcome (exec h (list_issues env owner repo state labels assignee
                              creator sort direction per_page page) w)
           = Ok (error_result e)
  end.
Proof.
  unfold list_issues, required_token.
  destruct (JS.truthy_opt (env_GITHUB_TOKEN env));
    [|by intros ?%elem_of_nil].
  cbn. destruct (h _ _ w) as [w' [a|e]]; cbn.
  - destruct (ok a) eqn:Hoka; cbn.
    + unfold map_any.
      destruct (json_body a) as [| | | |items|] eqn:Hb; cbn;
        [| | | |destruct (gather (simplify_issue <$> items)) eqn:Hg; cbn|].
      all: intros Hin Hresp Hok; which_event Hin; cbn in Hresp; simplify_eq.
      all: rewrite Hb; cbn; rewrite ?Hg; eauto.
      split; [done|].
      rewrite (gather_Ok_length _ _ Hg). apply length_fmap.
    + intros Hin Hresp Hok. which_event Hin. cbn in Hresp. simplify_eq.
      congruence.
  - intros Hin Hresp. which_event Hin. done.
Qed.

End IssueToolFacts.

(* ================================================================== *)
(** * Queries and simplified issues *)
(* ================================================================== *)

Section Queries.

Import FileOps IssueTools.




(** ** The serialised query *)







(** ** A simplified issue *)

Lemma gather_props (k : string) (items : list json)
    (vs : list (option json)) :
  gather (prop k <$> items) = Ok vs →
  Forall (λ i, i ≠ JNull) items ∧ vs = get k <$> items.
Proof.
  revert vs. induction items as [|i items IH]; intros vs; cbn.
  - by intros [= <-].
  - destruct (prop k i) as [v|e] eqn:Hp; [|done].
    destruct (gather (prop k <$> items)) as [vs'|]; [|done].
    intros [= <-]. destruct (IH vs' eq_refl) as [Hall ->].
    unfold prop in Hp. destruct i; simplify_eq; by repeat constructor.
Qed.

Lemma simplify_issue_ok (issue v : json) :
  simplify_issue issue = Ok v →
  ∃ fields user ls xs,
    issue = JObj fields
    ∧ assoc "user" fields = Some user ∧ user ≠ JNull
    ∧ assoc "labels" fields = Some (JArr ls) ∧ Forall (λ l, l ≠ JNull) ls
    ∧ assoc "assignees" fields = Some (JArr xs)
    ∧ Forall (λ x, x ≠ JNull) xs
    ∧ v = literal
            [ ("id", assoc "id" fields); ("number", assoc "number" fields);
              ("title", assoc "title" fields);
              ("state", assoc "state" fields);
              ("html_url", assoc "html_url" fields);
              ("user", get "login" user);
              ("labels", Some (array (get "name" <$> ls)));
              ("assignees", Some (array (get "login" <$> xs)));
              ("created_at", assoc "created_at" fields);
              ("updated_at", assoc "updated_at" fields);
              ("comments", assoc "comments" fields) ].
Proof.
  unfold simplify_issue, prop2, map_any, mbind, Result_bind.
  destruct issue as [| | | | |fields]; cbn; try done.
  destruct (assoc "user" fields) as [user|] eqn:Hu; cbn; [|done].
  destruct user; cbn; try done.
  all: destruct (assoc "labels" fields) as [[| | | |ls|]|] eqn:Hl; cbn;
         try done.
  all: destruct (gather (prop "name" <$> ls)) as [names|] eqn:Hn; cbn;
         try done.
  all: destruct (assoc "assignees" fields) as [[| | | |xs|]|] eqn:Hx; cbn;
         try done.
  all: destruct (gather (prop "login" <$> xs)) as [logins|] eqn:Hg; cbn;
         try done.
  all: intros [= <-].
  all: destruct (gather_props _ _ _ Hn) as [Hls ->].
  all: destruct (gather_props _ _ _ Hg) as [Hxs ->].
  all: eexists _, _, ls, xs; repeat split; try done.
Qed.

Lemma simplify_issue_needs_user (issue : json) :
  get "user" issue = None ∨ get "user" issue = Some JNull →
  is_ok (simplify_issue issue) = false.
Proof.
  destruct (simplify_issue issue) as [v|e] eqn:Hs; [|done].
  destruct (simplify_issue_ok _ _ Hs) as (fields & user & ls & xs & -> & Hu
                                          & Hnn & _).
  cbn. rewrite Hu. intros [?|?]; by simplify_eq.
Qed.

End Queries.

Section IssueToolClaims.

Import FileOps ToolTrace IssueTools Server.

(** X11.  Without a token no tool does anything: if [GITHUB_TOKEN] is unset
    or empty, every one of the six tools returns the error payload that asks
    for the token, having made no outside call at all. *)
Theorem missing_token_stops_every_tool (env : Env) (t : Tool)
    {W : Type} (h : Handler Call W) (w : W) :
  JS.truthy_opt (env_GITHUB_TOKEN env) = false →
  trace (exec h (call_tool env t) w) = []
  ∧ final (exec h (call_tool env t) w) = w
  ∧ outcome (exec h (call_tool env t) w)
    = Ok (error_result "GITHUB_TOKEN environment variable is required").
Proof.
  intros Htok.
  destruct t as [[files message|paths message]|[]]; cbn [call_tool];
    unfold FileOps.invoke, invoke, commit_files, delete_files, create_issue,
      update_issue_comment, create_pull_request, list_issues, required_token;
    rewrite Htok; done.
Qed.

(** X12.  Each of [create_issue], [update_issue_comment],
    [create_pull_request] and [list_issues] makes one request at most and
    reads no file.  It always returns a payload: a success payload only when
    its request was answered ok, the error payload "Failed to ...: <status> -
    <response text>" of the tool when the answer is not ok, and the error
    payload of the rejection when the request is rejected. *)
Theorem issue_tools_make_one_request (env : Env) (call : ToolCall)
    {W : Type} (h : Handler Call W) (w : W) :
  (length (trace (exec h (invoke env call) w)) ≤ 1)%nat
  ∧ existsb is_read (trace (exec h (invoke env call) w)) = false
  ∧ (∃ res,
       outcome (exec h (invoke env call) w) = Ok res
       ∧ ((∃ e, res = error_result e)
          ∨ (isError res = false ∧ error res = None
             ∧ ∃ ev, trace (exec h (invoke env call) w) = [ev]
                     ∧ answered_ok ev = true)))
  ∧ (∀ ev resp,
       ev ∈ trace (exec h (invoke env call) w) →
       response_of ev = Some resp → ok resp = false →
       outcome (exec h (invoke env call) w)
         = Ok (error_result (failure call resp)))
  ∧ (∀ ev e,
       ev ∈ trace (exec h (invoke env call) w) →
       rejection ev = Some e →
       outcome (exec h (invoke env call) w) = Ok (error_result e)).
Proof. apply issue_tool_shape. Qed.

(** X13.  The request of an issue or pull-request tool goes to the
    repository named in the call, whatever repository the server is
    configured for, and carries the token of the environment as a bearer
    token.  The request of [list_issues] is a [GET] without a body; the
    requests of the other three tools are writes with a JSON body. *)
Theorem issue_tools_address_the_named_repository (env : Env)
    (call : ToolCall) {W : Type} (h : Handler Call W) (w : W)
    (ev : Event Call) (req : Request) :
  ev ∈ trace (exec h (invoke env call) w) →
  request_of ev = Some req →
  (∃ rest, url req = repo_url env (target call).1 (target call).2 +:+ rest)
  ∧ (∃ tok, env_GITHUB_TOKEN env = Some tok ∧ JS.truthy tok = true
            ∧ header "Authorization" req = Some ("Bearer " +:+ tok))
  ∧ (is_listing call = true → method req = GET ∧ body req = None)
  ∧ (is_listing call = false →
     method req ≠ GET
     ∧ header "Content-Type" req = Some "application/json"
     ∧ ∃ v, body req = Some (JSON_stringify v 0)).
Proof. apply issue_tool_request. Qed.

(** X14.  The body of the request of [create_issue] always has the title
    and the body of the call.  It has the assignees and the labels whenever
    they are given, an empty list included; it has the milestone only when
    one is given and it is not zero. *)
Theorem create_issue_sends_what_is_set (env : Env)
    (owner repo title body : string)
    (assignees labels : option (list string)) (milestone : option N)
    {W : Type} (h : Handler Call W) (w : W) (ev : Event Call) (req : Request) :
  ev ∈ trace (exec h (create_issue env owner repo title body assignees
                        labels milestone) w) →
  request_of ev = Some req →
  method req = POST
  ∧ url req = repo_url env owner repo +:+ "/issues"
  ∧ get "title" (sent req) = Some (JStr title)
  ∧ get "body" (sent req) = Some (JStr body)
  ∧ get "assignees" (sent req) = strings_json <$> assignees
  ∧ get "labels" (sent req) = strings_json <$> labels
  ∧ get "milestone" (sent req)
    = match milestone with
      | Some n => if N.eqb n 0 then None else Some (JNum n)
      | None => None
      end.
Proof. apply create_issue_request. Qed.

(** X15.  The body of the request of [create_pull_request] always has the
    title, the body, the head and the base of the call, and it has the
    [draft] and [maintainer_can_modify] flags exactly as they are given: a
    flag that is given as [false] is sent as [false]. *)
Theorem create_pull_request_sends_flags_as_given (env : Env)
    (owner repo title body head base : string)
    (draft maintainer_can_modify : option bool)
    {W : Type} (h : Handler Call W) (w : W) (ev : Event Call) (req : Request) :
  ev ∈ trace (exec h (create_pull_request env owner repo title body head
                        base draft maintainer_can_modify) w) →
  request_of ev = Some req →
  method req = POST
  ∧ url req = repo_url env owner repo +:+ "/pulls"
  ∧ get "title" (sent req) = Some (JStr title)
  ∧ get "body" (sent req) = Some (JStr body)
  ∧ get "head" (sent req) = Some (JStr head)
  ∧ get "base" (sent req) = Some (JStr base)
  ∧ get "draft" (sent req) = JBool <$> draft
  ∧ get "maintainer_can_modify" (sent req) = JBool <$> maintainer_can_modify.
Proof. apply create_pull_request_request. Qed.

(** X16.  [update_issue_comment] sends one [PATCH] to the comment named in
    the call, in the repository named in the call, with the new body as the
    only field.  When it returns a success payload, the request was answered
    ok and the payload is the text "Comment <id> updated successfully". *)
Theorem update_issue_comment_patches_the_comment (env : Env)
    (owner repo commentId body : string)
    {W : Type} (h : Handler Call W) (w : W) :
  (∀ ev req,
     ev ∈ trace (exec h (update_issue_comment env owner repo commentId body)
                   w) →
     request_of ev = Some req →
     method req = PATCH
     ∧ url req = repo_url env owner repo +:+ "/issues/comments/" +:+ commentId
     ∧ sent req = JObj [ ("body", JStr body) ])
  ∧ (∀ res,
       outcome (exec h (update_issue_comment env owner repo commentId body) w)
         = Ok res →
       isError res = false →
       answered_text res
         = Some ("Comment " +:+ commentId +:+ " updated successfully")
       ∧ existsb answered_ok
           (trace (exec h (update_issue_comment env owner repo commentId body)
                     w)) = true).
Proof. apply update_issue_comment_run. Qed.


(** X18.  When the request of [list_issues] is answered ok, the answer is
    the list of the simplified issues, as long as the response body, and only
    if the body is an array and every issue can be simplified; otherwise the
    call returns an error payload.  An issue can be simplified only if it is
    an object with a user that is not null and with arrays of labels and of
    assignees that hold no null; a label without a name, such as a label given
    as a string, is listed as [null].  So one issue without a user makes the
    whole listing fail. *)
Theorem list_issues_simplifies_every_issue (env : Env) (owner repo : string)
    (state labels assignee creator sort direction : option string)
    (per_page page : option N)
    {W : Type} (h : Handler Call W) (w : W) :
  (∀ ev resp,
     ev ∈ trace (exec h (list_issues env owner repo state labels assignee
                           creator sort direction per_page page) w) →
     response_of ev = Some resp → ok resp = true →
     match json_body resp with
     | JArr items =>
         match gather (simplify_issue <$> items) with
         | Ok simplified =>
             outcome (exec h (list_issues env owner repo state labels assignee
                                creator sort direction per_page page) w)
             = Ok (success_result (JArr simplified))
             ∧ length simplified = length items
         | Err e =>
             outcome (exec h (list_issues env owner repo state labels assignee
                                creator sort direction per_page page) w)
             = Ok (error_result e)
         end
     | _ =>
         ∃ e, outcome (exec h (list_issues env owner repo state labels
                                 assignee creator sort direction per_page page)
                         w)
              = Ok (error_result e)
     end)
  ∧ (∀ issue v,
       simplify_issue issue = Ok v →
       ∃ fields user ls xs,
         issue = JObj fields
         ∧ assoc "user" fields = Some user ∧ user ≠ JNull
         ∧ assoc "labels" fields = Some (JArr ls)
         ∧ Forall (λ l, l ≠ JNull) ls
         ∧ assoc "assignees" fields = Some (JArr xs)
         ∧ Forall (λ x, x ≠ JNull) xs
         ∧ v = literal
                 [ ("id", assoc "id" fields);
                   ("number", assoc "number" fields);
                   ("title", assoc "title" fields);
                   ("state", assoc "state" fields);
                   ("html_url", assoc "html_url" fields);
                   ("user", get "login" user);
                   ("labels", Some (array (get "name" <$> ls)));
                   ("assignees", Some (array (get "login" <$> xs)));
                   ("created_at", assoc "created_at" fields);
                   ("updated_at", assoc "updated_at" fields);
                   ("comments", assoc "comments" fields) ])
  ∧ (∀ items issue,
       issue ∈ items →
       get "user" issue = None ∨ get "user" issue = Some JNull →
       is_ok (gather (simplify_issue <$> items)) = false).
Proof.
  split; [|split].
  - intros ev resp. apply list_issues_answer.
  - apply simplify_issue_ok.
  - intros items issue Hin Huser.
    apply (gather_fmap_Ok_not _ _ issue Hin).
    by apply simplify_issue_needs_user.
Qed.

(** X19.  When the request of [create_issue] is answered ok, the answer
    lists those of the fields id, number, title, state, html_url and
    created_at that the response body has, and a null body gives an error
    payload although the request was accepted.  When the request of
    [create_pull_request] is answered ok with an object that has a head and
    a base, neither of them null, the answer is made the same way, with the
    refs of the head and of the base; any other body gives an error payload
    although the request was accepted. *)
Theorem created_answers_follow_the_response (env : Env)
    {W : Type} (h : Handler Call W) (w : W) (ev : Event Call)
    (resp : Response) :
  (∀ owner repo title body assignees labels milestone,
     ev ∈ trace (exec h (create_issue env owner repo title body assignees
                           labels milestone) w) →
     response_of ev = Some resp → ok resp = true →
     match json_body resp with
     | JNull =>
         ∃ e, outcome (exec h (create_issue env owner repo title body
                                 assignees labels milestone) w)
              = Ok (error_result e)
     | result =>
         outcome (exec h (create_issue env owner repo title body assignees
                            labels milestone) w)
         = Ok (success_result
                 (JObj (omap (λ k, pair k <$> get k result) issue_fields)))
     end)
  ∧ (∀ owner repo title body head base draft maintainer_can_modify,
       ev ∈ trace (exec h (create_pull_request env owner repo title body head
                             base draft maintainer_can_modify) w) →
       response_of ev = Some resp → ok resp = true →
       match json_body resp with
       | JObj fields =>
           match assoc "head" fields, assoc "base" fields with
           | Some head_value, Some base_value =>
               match head_value, base_value with
               | JNull, _ | _, JNull =>
                   ∃ e, outcome (exec h (create_pull_request env owner repo
                                           title body head base draft
                                           maintainer_can_modify) w)
                        = Ok (error_result e)
               | _, _ =>
                   outcome (exec h (create_pull_request env owner repo title
                                      body head base draft
                                      maintainer_can_modify) w)
                   = Ok (success_result
                           (literal [ ("id", assoc "id" fields);
                                      ("number", assoc "number" fields);
                                      ("title", assoc "title" fields);
                                      ("state", assoc "state" fields);
                                      ("html_url", assoc "html_url" fields);
                                      ("head", get "ref" head_value);
                                      ("base", get "ref" base_value);
                                      ("created_at",
                                       assoc "created_at" fields) ]))
               end
           | _, _ =>
               ∃ e, outcome (exec h (create_pull_request env owner repo title
                                       body head base draft
                                       maintainer_can_modify) w)
                    = Ok (error_result e)
           end
       | _ =>
           ∃ e, outcome (exec h (create_pull_request env owner repo title body
                                   head base draft maintainer_can_modify) w)
                = Ok (error_result e)
       end).
Proof.
  split.
  - intros *. apply create_issue_answer.
  - intros *. apply create_pull_request_answer.
Qed.

End IssueToolClaims.

(* ================================================================== *)
(** * The pipeline: steps, failures and what is handed on *)
(* ================================================================== *)

Section PipelineFacts.

Import Prepare PipelineTrace PipelineSteps.

Context {W : Type}.
Variable penv : ProcessEnv.
Variable h : Handler Call W.

#[local] Arguments prepareMcpConfig penv githubToken owner repo branch
  : simpl never.
#[local] Arguments working_body : simpl never.

Ltac case_next :=
  match goal with
  | |- context [h ?T ?c ?w] =>
      let r := fresh "r" in
      destruct (h T c w) as [? r]; destruct r
  | |- context [throw_if (negb ?b)] => destruct b
  | |- context [if negb ?b then _ else _] => destruct b
  | |- context [JS.truthy_opt ?o] => destruct (JS.truthy_opt o) eqn:?
  | |- context [N.eqb ?a ?b] => destruct (N.eqb_spec a b)
  | |- context [match ?l with [] => _ | _ :: _ => _ end] => destruct l
  end; cbn.

Ltac run_cases :=
  match goal with
  | |- context [exec h ?p ?w] =>
      let r := fresh "r" in
      let Hr := fresh "Hr" in
      remember (exec h p w) as r eqn:Hr; revert Hr;
      unfold run, redirect; cbn;
      repeat first
        [ case_next
        | progress (unfold local_try, local_bind, with_locals, assign,
                      current, local_ret, mbind, mret, Local_bind,
                      Local_ret, Prog_bind, Prog_ret, await, perform); cbn ];
      intros ->; cbn
  end.

(** ** The steps, in order *)

Lemma run_steps (w : W) :
  ascending (stages (trace (exec h (run penv) w))) = true
  ∧ gapless (stages (trace (exec h (run penv) w))) = true
  ∧ precedes permission_granted is_trigger_check
      (trace (exec h (run penv) w)) = true
  ∧ precedes trigger_present is_human_check
      (trace (exec h (run penv) w)) = true
  ∧ precedes human_passed creates_comment
      (trace (exec h (run penv) w)) = true.
Proof.
  run_cases.
  all: repeat split; reflexivity.
Qed.

(** ** How a run ends *)

Lemma run_ends (w : W) :
  outcome (exec h (run penv) w)
  = Ok (if existsb is_failure_report (trace (exec h (run penv) w))
        then Exited 1 else Completed)
  ∧ (count is_failure_report (trace (exec h (run penv) w)) ≤ 1)%nat
  ∧ FileOps.after is_failure_report (trace (exec h (run penv) w)) = []
  ∧ (outcome (exec h (run penv) w) = Ok Completed →
     existsb trigger_absent (trace (exec h (run penv) w)) = true
     ∨ existsb is_output (trace (exec h (run penv) w)) = true).
Proof.
  run_cases.
  all: split; [reflexivity|]; split; [lia|]; split; [reflexivity|].
  all: first [ discriminate | intros _; left; reflexivity
             | intros _; right; reflexivity ].
Qed.


End PipelineFacts.

(* ================================================================== *)
(** * The pipeline: what is handed on *)
(* ================================================================== *)

Section PipelineFlow.

Import Prepare PipelineTrace PipelineSteps.

Context {W : Type}.
Variable penv : ProcessEnv.
Variable h : Handler Call W.

#[local] Arguments prepareMcpConfig penv githubToken owner repo branch
  : simpl never.
#[local] Arguments working_body : simpl never.

Ltac case_next :=
  match goal with
  | |- context [h ?T ?c ?w] =>
      let r := fresh "r" in
      destruct (h T c w) as [? r]; destruct r
  | |- context [throw_if (negb ?b)] => destruct b
  | |- context [if negb ?b then _ else _] => destruct b
  | |- context [JS.truthy_opt ?o] => destruct (JS.truthy_opt o) eqn:?
  | |- context [N.eqb ?a ?b] => destruct (N.eqb_spec a b)
  | |- context [match ?l with [] => _ | _ :: _ => _ end] => destruct l
  end; cbn.

Ltac run_cases :=
  match goal with
  | |- context [exec h ?p ?w] =>
      let r := fresh "r" in
      let Hr := fresh "Hr" in
      remember (exec h p w) as r eqn:Hr; revert Hr;
      unfold run, redirect; cbn;
      repeat first
        [ case_next
        | progress (unfold local_try, local_bind, with_locals, assign,
                      current, local_ret, mbind, mret, Local_bind,
                      Local_ret, Prog_bind, Prog_ret, await, perform); cbn ];
      intros ->; cbn
  end.

(** ** What is handed on *)

Lemma run_output (w : W) (name : string) (value : Text) :
  first_of output_set (trace (exec h (run penv) w)) = Some (name, value) →
  (∃ tok ctx bi,
     first_of token_obtained (trace (exec h (run penv) w)) = Some tok
     ∧ first_of parsed_context (trace (exec h (run penv) w)) = Some ctx
     ∧ first_of resolved_branch (trace (exec h (run penv) w)) = Some bi
     ∧ name = "mcp_config"
     ∧ value = prepareMcpConfig penv tok (owner (repository ctx))
                 (repo (repository ctx)) (currentBranch bi))
  ∧ count is_output (trace (exec h (run penv) w)) = 1
  ∧ existsb is_prompt (trace (exec h (run penv) w)) = true
  ∧ existsb downstream
      (FileOps.after is_output (trace (exec h (run penv) w))) = false.
Proof.
  run_cases.
  all: try discriminate.
  all: intros [= <- <-]; split;
         [eexists _, _, _; repeat split; reflexivity|repeat split; reflexivity].
Qed.

Lemma run_prompt (w : W) (id : N) (d : string) (c : option string)
    (g : GitHubData) (ctx : Context) :
  first_of prompt_given (trace (exec h (run penv) w))
    = Some (id, d, c, g, ctx) →
  first_of data_fetched (trace (exec h (run penv) w)) = Some g
  ∧ first_of parsed_context (trace (exec h (run penv) w)) = Some ctx
  ∧ (∃ bi, first_of resolved_branch (trace (exec h (run penv) w)) = Some bi
           ∧ d = defaultBranch bi ∧ c = claudeBranch bi)
  ∧ match first_of pr_comment_id (trace (exec h (run penv) w)) with
    | Some nid => id = nid
    | None => first_of initial_comment_id (trace (exec h (run penv) w))
              = Some id
    end.
Proof.
  run_cases.
  all: try discriminate.
  all: intros [= <- <- <- <- <-]; split; [reflexivity|];
         split; [reflexivity|]; split; [eexists; repeat split; reflexivity|];
         first [ reflexivity | congruence ].
Qed.

Lemma run_export (w : W) (name value : string) :
  first_of exported (trace (exec h (run penv) w)) = Some (name, value) →
  name = "CLAUDE_COMMENT_ID"
  ∧ ∃ nid, first_of pr_comment_id (trace (exec h (run penv) w)) = Some nid
           ∧ value = pretty nid
           ∧ (∀ id, first_of handed_off (trace (exec h (run penv) w))
                    = Some id → id = nid).
Proof.
  run_cases.
  all: try discriminate.
  all: intros [= <- <-]; split; [reflexivity|];
         eexists; split; [reflexivity|]; split; [reflexivity|];
         intros id; first [ discriminate | by intros [= <-] ].
Qed.

Lemma run_export_failure (w : W) :
  existsb (failed is_export) (trace (exec h (run penv) w)) = true →
  existsb is_fallback_log (trace (exec h (run penv) w)) = true
  ∧ ∀ nid cid,
      first_of pr_comment_id (trace (exec h (run penv) w)) = Some nid →
      first_of initial_comment_id (trace (exec h (run penv) w)) = Some cid →
      nid ≠ cid →
      existsb is_link (trace (exec h (run penv) w)) = false
      ∧ (∀ id, first_of handed_off (trace (exec h (run penv) w)) = Some id →
               id = nid).
Proof.
  run_cases.
  all: try discriminate.
  all: intros _; split; [reflexivity|].
  all: intros nid cid Hn Hc Hne; cbn in Hn, Hc; simplify_eq.
  all: split; [reflexivity|].
  all: intros id; first [ discriminate | by intros [= <-] ].
Qed.

End PipelineFlow.

Section PipelineClaims.

Import Prepare PipelineTrace PipelineSteps.

(** X20.  The steps of [run] are taken in the order of the source, each of
    them once at most, and up to the branch setup none is left out: a step
    is only taken when every step before it was.  In particular the trigger
    check is only made after the actor was found to have write access, the
    human-actor check only after the trigger was found, and the tracking
    comment is only created after the human-actor check passed. *)
Theorem steps_are_taken_in_source_order (penv : ProcessEnv)
    {W : Type} (h : Handler Call W) (w : W) :
  ascending (stages (trace (exec h (run penv) w))) = true
  ∧ gapless (stages (trace (exec h (run penv) w))) = true
  ∧ precedes permission_granted is_trigger_check
      (trace (exec h (run penv) w)) = true
  ∧ precedes trigger_present is_human_check
      (trace (exec h (run penv) w)) = true
  ∧ precedes human_passed creates_comment
      (trace (exec h (run penv) w)) = true.
Proof. apply run_steps. Qed.

(** X21.  [run] never rejects.  It ends with [process.exit(1)] exactly when
    it has set the failure annotation, which it does once at most and as its
    last outside call; otherwise it completes.  A run that completes either
    found no trigger or has set the [mcp_config] output. *)
Theorem run_exits_exactly_when_it_reports (penv : ProcessEnv)
    {W : Type} (h : Handler Call W) (w : W) :
  outcome (exec h (run penv) w)
  = Ok (if existsb is_failure_report (trace (exec h (run penv) w))
        then Exited 1 else Completed)
  ∧ (count is_failure_report (trace (exec h (run penv) w)) ≤ 1)%nat
  ∧ FileOps.after is_failure_report (trace (exec h (run penv) w)) = []
  ∧ (outcome (exec h (run penv) w) = Ok Completed →
     existsb trigger_absent (trace (exec h (run penv) w)) = true
     ∨ existsb is_output (trace (exec h (run penv) w)) = true).
Proof. apply run_ends. Qed.


(** X23.  The output that [run] sets is named [mcp_config], and its value
    is the configuration [prepareMcpConfig] builds from the token the run
    obtained, the owner and the name of the repository of the parsed
    context, and the current branch that the branch setup answered.  It is
    set once, after the prompt was created, and no step for the trigger
    follows it. *)
Theorem mcp_config_is_built_from_the_run (penv : ProcessEnv)
    {W : Type} (h : Handler Call W) (w : W) (name : string) (value : Text) :
  first_of output_set (trace (exec h (run penv) w)) = Some (name, value) →
  (∃ tok ctx bi,
     first_of token_obtained (trace (exec h (run penv) w)) = Some tok
     ∧ first_of parsed_context (trace (exec h (run penv) w)) = Some ctx
     ∧ first_of resolved_branch (trace (exec h (run penv) w)) = Some bi
     ∧ name = "mcp_config"
     ∧ value = prepareMcpConfig penv tok (owner (repository ctx))
                 (repo (repository ctx)) (currentBranch bi))
  ∧ count is_output (trace (exec h (run penv) w)) = 1
  ∧ existsb is_prompt (trace (exec h (run penv) w)) = true
  ∧ existsb downstream
      (FileOps.after is_output (trace (exec h (run penv) w))) = false.
Proof. apply run_output. Qed.

(** X24.  The prompt is created from what the run obtained: the data that
    was fetched, the parsed context, the default branch and the new branch
    that the branch setup answered, and the id of the tracking comment,
    which is the id of the comment created on the pull request when one was
    created and the id of the initial comment otherwise. *)
Theorem prompt_gets_what_the_run_obtained (penv : ProcessEnv)
    {W : Type} (h : Handler Call W) (w : W) (id : N) (d : string)
    (c : option string) (g : GitHubData) (ctx : Context) :
  first_of prompt_given (trace (exec h (run penv) w))
    = Some (id, d, c, g, ctx) →
  first_of data_fetched (trace (exec h (run penv) w)) = Some g
  ∧ first_of parsed_context (trace (exec h (run penv) w)) = Some ctx
  ∧ (∃ bi, first_of resolved_branch (trace (exec h (run penv) w)) = Some bi
           ∧ d = defaultBranch bi ∧ c = claudeBranch bi)
  ∧ match first_of pr_comment_id (trace (exec h (run penv) w)) with
    | Some nid => id = nid
    | None => first_of initial_comment_id (trace (exec h (run penv) w))
              = Some id
    end.
Proof. apply run_prompt. Qed.

(** X25.  The only variable [run] exports is [CLAUDE_COMMENT_ID], with the
    id of the comment it created on the pull request, in decimal; later
    steps are handed that same id.  When the export itself is rejected, the
    failure is logged and the run goes on with the id of the new comment all
    the same, without linking the initial comment. *)
Theorem exported_comment_id_is_the_new_comment (penv : ProcessEnv)
    {W : Type} (h : Handler Call W) (w : W) :
  (∀ name value,
     first_of exported (trace (exec h (run penv) w)) = Some (name, value) →
     name = "CLAUDE_COMMENT_ID"
     ∧ ∃ nid, first_of pr_comment_id (trace (exec h (run penv) w)) = Some nid
              ∧ value = pretty nid
              ∧ (∀ id, first_of handed_off (trace (exec h (run penv) w))
                       = Some id → id = nid))
  ∧ (existsb (failed is_export) (trace (exec h (run penv) w)) = true →
     existsb is_fallback_log (trace (exec h (run penv) w)) = true
     ∧ ∀ nid cid,
         first_of pr_comment_id (trace (exec h (run penv) w)) = Some nid →
         first_of initial_comment_id (trace (exec h (run penv) w))
           = Some cid →
         nid ≠ cid →
         existsb is_link (trace (exec h (run penv) w)) = false
         ∧ (∀ id, first_of handed_off (trace (exec h (run penv) w))
                  = Some id → id = nid)).
Proof.
  split.
  - intros name value. apply run_export.
  - apply run_export_failure.
Qed.

End PipelineClaims.

(* ================================================================== *)
(** * From the configuration to the server *)
(* ================================================================== *)

Section Configuration.

Import FileOps.

Lemma truthy_false (s : string) : JS.truthy s = false → s = "".
Proof.
  unfold JS.truthy. destruct (String.eqb_spec s ""); [done|discriminate].
Qed.

Lemma truthy_true (s : string) : JS.truthy s = true → s ≠ "".
Proof.
  unfold JS.truthy. destruct (String.eqb_spec s ""); [discriminate|done].
Qed.

(** X26.  A server started with the variables of the configuration that
    [prepareMcpConfig] writes refuses to start, with exit code 1, only when
    the owner, the repository name or the branch is empty.  Otherwise it
    works on that owner, repository and branch with the token of the
    configuration, in the workspace directory (the working directory of the
    preparing process when there is none): every ref update of
    [commit_files] and [delete_files] goes to the ref of that branch of that
    repository. *)
Theorem configured_server_works_on_the_given_branch
    (penv : Prepare.ProcessEnv) (tok owner repo branch : string)
    (api_url working_directory : string)
    (path_join : string → string → string) :
  ∃ vars,
    Server.configured_vars (Prepare.prepareMcpConfig penv tok owner repo branch)
    = Some vars
    ∧ match Server.startup api_url working_directory path_join vars with
      | Server.Refused _ code =>
          code = 1%N ∧ (owner = "" ∨ repo = "" ∨ branch = "")
      | Server.Registered env =>
          owner ≠ "" ∧ repo ≠ "" ∧ branch ≠ ""
          ∧ REPO_OWNER env = owner ∧ REPO_NAME env = repo
          ∧ BRANCH_NAME env = branch
          ∧ env_GITHUB_TOKEN env = Some tok
          ∧ REPO_DIR env
            = JS.or_else
                (Some (JS.or_else (Prepare.GITHUB_WORKSPACE penv)
                         (Prepare.process_cwd penv)))
                working_directory
          ∧ ∀ (call : ToolCall) (W : Type) (h : Handler Call W) (w : W)
              (ev : Event Call) (req : Request),
              ev ∈ trace (exec h (invoke env call) w) →
              request_of ev = Some req →
              method req = PATCH →
              url req = (api_url +:+ "/repos/" +:+ owner +:+ "/" +:+ repo)
                          +:+ "/git/refs/heads/" +:+ branch
      end.
Proof.
  eexists. split; [reflexivity|].
  unfold Server.startup. cbn [Server.var_REPO_OWNER Server.var_REPO_NAME
    Server.var_BRANCH_NAME Server.var_REPO_DIR Server.var_GITHUB_TOKEN].
  cbn [get_str get assoc]. cbn.
  destruct (JS.truthy owner) eqn:Ho; cbn;
    [|split; [reflexivity|left; by apply truthy_false]].
  destruct (JS.truthy repo) eqn:Hr; cbn;
    [|split; [reflexivity|right; left; by apply truthy_false]].
  destruct (JS.truthy branch) eqn:Hb; cbn;
    [|split; [reflexivity|right; right; by apply truthy_false]].
  split; [by apply truthy_true|]. split; [by apply truthy_true|].
  split; [by apply truthy_true|].
  do 5 (split; [reflexivity|]).
  intros call W h w ev req Hin Hreq Hm.
  destruct call as [files message|paths message]; cbn [invoke] in Hin.
  - destruct (commit_files_confined _ h files message w ev req Hin Hreq)
      as (_ & Hpatch & _).
    by rewrite (Hpatch Hm).
  - destruct (delete_files_confined _ h paths message w ev req Hin Hreq)
      as (_ & Hpatch & _).
    by rewrite (Hpatch Hm).
Qed.

End Configuration.

(* ================================================================== *)
(** * The added facts on sample runs *)
(* ================================================================== *)

Section EngineRuns.

Import FileOps World Demo ToolTrace Samples.

(** The commit that loses the race: its ref update is answered 422, and it
    is the last outside call. *)
Lemma requests_follow_the_protocol_witness :
  existsb unanswered (trace raced_commit) = true
  ∧ after unanswered (trace raced_commit) = []
  ∧ ∃ e, outcome raced_commit = Ok (error_result e).
Proof.
  destruct (requests_follow_the_protocol env
              (call_commit_files ["src/a.ts"] "msg") serve busy)
    as (_ & Hlast & Herr & _).
  assert (H : existsb unanswered (trace raced_commit) = true)
    by (vm_compute; reflexivity).
  split; [exact H|]. split; [exact Hlast|exact (Herr H)].
Defined.

(** The refused ref update is the fifth request; without a network the
    rejection of the first request is what the call answers. *)
Lemma failed_step_is_reported_witness :
  (∃ ev resp, fetches (trace raced_commit) !! 4 = Some ev
              ∧ response_of ev = Some resp ∧ ok resp = false
              ∧ outcome raced_commit
                = Ok (error_result
                        "Failed to update reference: 422 - Update is not a fast forward"))
  ∧ (∃ ev, ev ∈ trace commit_offline
           ∧ rejection ev = Some "fetch failed"
           ∧ outcome commit_offline = Ok (error_result "fetch failed")).
Proof.
  destruct (failed_step_is_reported env
              (call_commit_files ["src/a.ts"] "msg") serve busy)
    as [Hstep _].
  destruct (failed_step_is_reported env
              (call_commit_files ["src/a.ts"] "msg") offline tt)
    as [_ Hrej].
  split.
  - destruct (fetches (trace raced_commit) !! 4) as [ev|] eqn:Hev;
      [|vm_compute in Hev; discriminate].
    pose proof Hev as Hev'. vm_compute in Hev'. injection Hev' as <-.
    eexists _, _. split; [reflexivity|].
    split; [reflexivity|]. split; [reflexivity|].
    exact (Hstep 4 _ _ Hev eq_refl eq_refl).
  - destruct (trace commit_offline !! 0) as [ev|] eqn:Hev;
      [|vm_compute in Hev; discriminate].
    pose proof (list_elem_of_lookup_2 _ _ _ Hev) as Hin.
    vm_compute in Hev. injection Hev as <-.
    eexists. split; [exact Hin|]. split; [reflexivity|].
    exact (Hrej _ _ Hin eq_refl).
Defined.


(** The ref update of a commit with the environment of [Demo]. *)
Lemma requests_stay_in_the_configured_repository_witness :
  ∃ ev req, trace rooted_commit !! 5 = Some ev
            ∧ request_of ev = Some req
            ∧ method req = PATCH
            ∧ url req
              = "https://api.github.com/repos/octo/demo/git/refs/heads/claude/issue-7"
            ∧ header "Authorization" req = Some "Bearer t0ken".
Proof.
  destruct (trace rooted_commit !! 5) as [ev|] eqn:Hev;
    [|vm_compute in Hev; discriminate].
  pose proof (list_elem_of_lookup_2 _ _ _ Hev) as Hin.
  vm_compute in Hev. injection Hev as <-.
  destruct (requests_stay_in_the_configured_repository env
              (call_commit_files ["/src/a.ts"] "msg") serve calm _ _ Hin
              eq_refl)
    as (_ & Hpatch & _).
  eexists _, _. split; [reflexivity|]. split; [reflexivity|].
  split; [reflexivity|]. split; [exact (Hpatch eq_refl)|reflexivity].
Defined.


(** The commit that loses the race leaves the branch where the other
    writer put it; the commit of a missing file leaves the refs alone. *)
Lemma failed_call_moves_no_ref_witness :
  (outcome raced_commit
   = Ok (error_result
           "Failed to update reference: 422 - Update is not a fast forward")
   ∧ refs (host (final raced_commit)) !! "claude/issue-7" = Some "c9")
  ∧ (isError <$> outcome_value missing_file_commit = Some true
     ∧ inbox (host calm) = []
     ∧ refs (host (final missing_file_commit)) = refs (host calm)).
Proof.
  split.
  - assert (H : outcome raced_commit
                = Ok (error_result
                        "Failed to update reference: 422 - Update is not a fast forward"))
      by (vm_compute; reflexivity).
    destruct (failed_call_moves_no_ref env
                (call_commit_files ["src/a.ts"] "msg") busy _ H) as [Hrefs _].
    split; [exact H|].
    unfold raced_commit. rewrite Hrefs. vm_compute. reflexivity.
  - destruct (outcome missing_file_commit) as [res|e] eqn:Ho;
      [|vm_compute in Ho; discriminate].
    pose proof Ho as Ho'. vm_compute in Ho'. injection Ho' as <-.
    destruct (failed_call_moves_no_ref env
                (call_commit_files ["src/a.ts"; "missing.ts"] "msg") calm _ Ho)
      as [_ Hquiet].
    split; [unfold outcome_value; rewrite Ho; reflexivity|].
    split; [reflexivity|exact (Hquiet eq_refl)].
Defined.

(** One file committed on the quiet host. *)
Lemma committed_tree_holds_the_files_witness :
  (env_GITHUB_TOKEN env = Some "t0ken" ∧ JS.truthy "t0ken" = true
   ∧ serves env (host calm) ∧ inbox (host calm) = []
   ∧ refs (host calm) !! BRANCH_NAME env = Some "c0"
   ∧ trees (host calm) !! "t0" = Some {[ "README.md" := "hello" ]}
   ∧ Forall (λ p, is_Some (disk calm !! fullPath env p))
       (strip_leading_slash <$> ["/src/a.ts"]))
  ∧ isError <$> outcome_value rooted_commit = Some false
  ∧ refs (host (final rooted_commit)) !! "claude/issue-7" = Some "commit-2"
  ∧ ∃ t', trees (host (final rooted_commit)) !! "tree-1" = Some t'
          ∧ t' !! "src/a.ts" = Some "export {}"
          ∧ t' !! "README.md" = Some "hello".
Proof.
  assert (Hs : serves env (host calm)) by (repeat split; reflexivity).
  assert (Hd : Forall (λ p, is_Some (disk calm !! fullPath env p))
                 (strip_leading_slash <$> ["/src/a.ts"]))
    by (repeat constructor; eexists; vm_compute; reflexivity).
  destruct (committed_tree_holds_the_files env calm ["/src/a.ts"] "msg"
              "t0ken" "c0"
              {| c_tree := "t0"; c_parents := []; c_message := "init" |}
              {[ "README.md" := "hello" ]}
              eq_refl eq_refl Hs eq_refl eq_refl eq_refl eq_refl Hd)
    as (Hok & Href & _ & _ & t' & Ht & Hin & Hout).
  split; [repeat split; try reflexivity; [apply Hs..|exact Hd]|].
  split; [exact Hok|]. split; [exact Href|].
  exists t'. split; [exact Ht|]. split.
  - rewrite (Hin "src/a.ts"); [reflexivity|]. apply list_elem_of_here.
  - rewrite (Hout "README.md"); [reflexivity|].
    intros Hx. apply list_elem_of_singleton in Hx. discriminate Hx.
Defined.

(** The one file of the repository deleted on the quiet host. *)
Lemma deleted_paths_leave_the_tree_witness :
  Forall (λ p, JS.startsWith p "/" = false) ["README.md"]
  ∧ trees (host calm) !! "t0" = Some {[ "README.md" := "hello" ]}
  ∧ isError <$> outcome_value
                  (exec serve (delete_files env ["README.md"] "msg") calm)
    = Some false
  ∧ ∃ t', trees (host (final (exec serve
                                (delete_files env ["README.md"] "msg") calm)))
            !! "tree-1" = Some t'
          ∧ t' !! "README.md" = None.
Proof.
  assert (Hs : serves env (host calm)) by (repeat split; reflexivity).
  assert (Hp : Forall (λ p, JS.startsWith p "/" = false) ["README.md"])
    by (repeat constructor).
  destruct (deleted_paths_leave_the_tree env calm ["README.md"] "msg"
              "t0ken" "c0"
              {| c_tree := "t0"; c_parents := []; c_message := "init" |}
              {[ "README.md" := "hello" ]}
              eq_refl eq_refl Hs eq_refl eq_refl eq_refl eq_refl Hp)
    as (Hok & _ & _ & t' & Ht & Hin & _).
  split; [exact Hp|]. split; [reflexivity|]. split; [exact Hok|].
  exists t'. split; [exact Ht|]. apply Hin, list_elem_of_here.
Defined.

(** A file committed and then deleted on the quiet host. *)
Lemma delete_after_commit_removes_the_files_witness :
  (Forall (λ p, JS.startsWith p "/" = false) ["src/a.ts"]
   ∧ Forall (λ p, is_Some (disk calm !! fullPath env p)) ["src/a.ts"])
  ∧ refs (host (final (exec serve (delete_files env ["src/a.ts"] "undo")
                         (final (exec serve
                                   (commit_files env ["src/a.ts"] "add")
                                   calm)))))
      !! "claude/issue-7" = Some "commit-4"
  ∧ ∃ t', trees (host (final (exec serve
                                (delete_files env ["src/a.ts"] "undo")
                                (final (exec serve
                                          (commit_files env ["src/a.ts"] "add")
                                          calm)))))
            !! "tree-3" = Some t'
          ∧ t' !! "src/a.ts" = None
          ∧ t' !! "README.md" = Some "hello".
Proof.
  assert (Hs : serves env (host calm)) by (repeat split; reflexivity).
  assert (Hp : Forall (λ p, JS.startsWith p "/" = false) ["src/a.ts"])
    by (repeat constructor).
  assert (Hd : Forall (λ p, is_Some (disk calm !! fullPath env p))
                 ["src/a.ts"])
    by (repeat constructor; eexists; vm_compute; reflexivity).
  destruct (delete_after_commit_removes_the_files env calm ["src/a.ts"]
              "add" "undo" "t0ken" "c0"
              {| c_tree := "t0"; c_parents := []; c_message := "init" |}
              {[ "README.md" := "hello" ]}
              eq_refl eq_refl Hs eq_refl eq_refl eq_refl eq_refl Hp Hd)
    as (_ & Href & _ & _ & t' & Ht & Hin & Hout).
  split; [split; [exact Hp|exact Hd]|]. split; [exact Href|].
  exists t'. split; [exact Ht|]. split.
  - apply Hin, list_elem_of_here.
  - rewrite (Hout "README.md"); [reflexivity|].
    intros Hx. apply list_elem_of_singleton in Hx. discriminate Hx.
Defined.

End EngineRuns.

Section IssueToolRuns.

Import FileOps IssueTools ToolTrace Server Samples.

(** Without a token, listing issues asks for nothing. *)
Lemma missing_token_stops_every_tool_witness :
  JS.truthy_opt (env_GITHUB_TOKEN tokenless) = false
  ∧ trace (exec (answering (answered JNull))
             (call_tool tokenless (issue_tool listing)) tt) = []
  ∧ outcome (exec (answering (answered JNull))
               (call_tool tokenless (issue_tool listing)) tt)
    = Ok (error_result "GITHUB_TOKEN environment variable is required").
Proof.
  destruct (missing_token_stops_every_tool tokenless (issue_tool listing)
              (answering (answered JNull)) tt eq_refl) as (Ht & _ & Ho).
  split; [reflexivity|]. split; [exact Ht|exact Ho].
Defined.

(** A listing that is answered 404. *)
Lemma issue_tools_make_one_request_witness :
  ∃ ev resp, ev ∈ trace issues_not_found
             ∧ response_of ev = Some resp ∧ ok resp = false
             ∧ outcome issues_not_found
               = Ok (error_result "Failed to list issues: 404 - Not Found").
Proof.
  destruct (issue_tools_make_one_request Demo.env listing
              (answering not_found) tt) as (_ & _ & _ & Hfail & _).
  destruct (trace issues_not_found !! 0) as [ev|] eqn:Hev;
    [|vm_compute in Hev; discriminate].
  pose proof (list_elem_of_lookup_2 _ _ _ Hev) as Hin.
  vm_compute in Hev. injection Hev as <-.
  eexists _, _. split; [exact Hin|]. split; [reflexivity|].
  split; [reflexivity|]. exact (Hfail _ _ Hin eq_refl eq_refl).
Defined.

(** An issue created in a repository other than the configured one. *)
Lemma issue_tools_address_the_named_repository_witness :
  ∃ ev req, ev ∈ trace issue_created
            ∧ request_of ev = Some req
            ∧ url req = "https://api.github.com/repos/acme/site/issues"
            ∧ header "Authorization" req = Some "Bearer t0ken"
            ∧ method req ≠ GET.
Proof.
  destruct (trace issue_created !! 0) as [ev|] eqn:Hev;
    [|vm_compute in Hev; discriminate].
  pose proof (list_elem_of_lookup_2 _ _ _ Hev) as Hin.
  vm_compute in Hev. injection Hev as <-.
  destruct (issue_tools_address_the_named_repository Demo.env new_issue
              (answering (answered issue_json)) tt _ _ Hin eq_refl)
    as (_ & _ & _ & Hwrite).
  destruct (Hwrite eq_refl) as (Hm & _).
  eexists _, _. split; [exact Hin|]. split; [reflexivity|].
  split; [reflexivity|]. split; [reflexivity|exact Hm].
Defined.

(** An issue with an empty list of assignees, no labels and milestone 0. *)
Lemma create_issue_sends_what_is_set_witness :
  ∃ ev req, ev ∈ trace issue_created
            ∧ request_of ev = Some req
            ∧ get "assignees" (sent req) = Some (JArr [])
            ∧ get "labels" (sent req) = None
            ∧ get "milestone" (sent req) = None.
Proof.
  destruct (trace issue_created !! 0) as [ev|] eqn:Hev;
    [|vm_compute in Hev; discriminate].
  pose proof (list_elem_of_lookup_2 _ _ _ Hev) as Hin.
  vm_compute in Hev. injection Hev as <-.
  destruct (create_issue_sends_what_is_set Demo.env "acme" "site" "Bug"
              "It does not work" (Some []) None (Some 0%N)
              (answering (answered issue_json)) tt _ _ Hin eq_refl)
    as (_ & _ & _ & _ & Ha & Hl & Hm).
  eexists _, _. split; [exact Hin|]. split; [reflexivity|].
  split; [exact Ha|]. split; [exact Hl|exact Hm].
Defined.

(** A pull request with [draft] given as [false] and the other flag not
    given. *)
Lemma create_pull_request_sends_flags_as_given_witness :
  ∃ ev req, ev ∈ trace pull_created
            ∧ request_of ev = Some req
            ∧ url req = "https://api.github.com/repos/acme/site/pulls"
            ∧ get "draft" (sent req) = Some (JBool false)
            ∧ get "maintainer_can_modify" (sent req) = None.
Proof.
  destruct (trace pull_created !! 0) as [ev|] eqn:Hev;
    [|vm_compute in Hev; discriminate].
  pose proof (list_elem_of_lookup_2 _ _ _ Hev) as Hin.
  vm_compute in Hev. injection Hev as <-.
  destruct (create_pull_request_sends_flags_as_given Demo.env "acme" "site"
              "Fix" "Fixes #8" "fix" "main" (Some false) None
              (answering (answered pull_json)) tt _ _ Hin eq_refl)
    as (_ & Hu & _ & _ & _ & _ & Hd & Hm).
  eexists _, _. split; [exact Hin|]. split; [reflexivity|].
  split; [exact Hu|]. split; [exact Hd|exact Hm].
Defined.

(** A comment edited. *)
Lemma update_issue_comment_patches_the_comment_witness :
  outcome comment_edited = Ok (text_result "Comment 77 updated successfully")
  ∧ existsb answered_ok (trace comment_edited) = true
  ∧ ∃ ev req, ev ∈ trace comment_edited
              ∧ request_of ev = Some req
              ∧ url req
                = "https://api.github.com/repos/acme/site/issues/comments/77"
              ∧ sent req = JObj [ ("body", JStr "done") ].
Proof.
  destruct (update_issue_comment_patches_the_comment Demo.env "acme" "site"
              "77" "done" (answering (answered JNull)) tt) as [Hreq Hres].
  assert (Ho : outcome comment_edited
               = Ok (text_result "Comment 77 updated successfully"))
    by (vm_compute; reflexivity).
  destruct (Hres _ Ho eq_refl) as [_ Hok].
  split; [exact Ho|]. split; [exact Hok|].
  destruct (trace comment_edited !! 0) as [ev|] eqn:Hev;
    [|vm_compute in Hev; discriminate].
  pose proof (list_elem_of_lookup_2 _ _ _ Hev) as Hin.
  vm_compute in Hev. injection Hev as <-.
  destruct (Hreq _ _ Hin eq_refl) as (_ & Hu & Hs).
  eexists _, _. split; [exact Hin|]. split; [reflexivity|].
  split; [exact Hu|exact Hs].
Defined.


(** A listing of one issue, one of whose labels is given as a string. *)
Lemma list_issues_simplifies_every_issue_witness :
  outcome issues_listed
  = Ok (success_result
          (JArr [ JObj [ ("id", JNum 501); ("number", JNum 8);
                         ("title", JStr "Bug"); ("state", JStr "open");
                         ("html_url",
                          JStr "https://github.com/acme/site/issues/8");
                         ("user", JStr "alice");
                         ("labels", JArr [ JStr "bug"; JNull ]);
                         ("assignees", JArr [ JStr "bob" ]);
                         ("created_at", JStr "2025-01-01T00:00:00Z");
                         ("updated_at", JStr "2025-01-02T00:00:00Z");
                         ("comments", JNum 3) ] ]))
  ∧ is_ok (gather (simplify_issue <$> [ issue_json; JObj [] ])) = false.
Proof.
  destruct (list_issues_simplifies_every_issue Demo.env "acme" "site"
              (Some "open") (Some "bug,help wanted") (Some "") None None None
              (Some 50%N) (Some 0%N)
              (answering (answered (JArr [issue_json]))) tt)
    as (Hlist & _ & Huser).
  split.
  - destruct (trace issues_listed !! 0) as [ev|] eqn:Hev;
      [|vm_compute in Hev; discriminate].
    pose proof (list_elem_of_lookup_2 _ _ _ Hev) as Hin.
    vm_compute in Hev. injection Hev as <-.
    pose proof (Hlist _ _ Hin eq_refl eq_refl) as [Ho _].
    exact Ho.
  - apply (Huser _ (JObj [])).
    + apply list_elem_of_further, list_elem_of_here.
    + left. reflexivity.
Defined.

(** An issue and a pull request created. *)
Lemma created_answers_follow_the_response_witness :
  ∃ ev, ev ∈ trace issue_created
        ∧ response_of ev = Some (answered issue_json)
        ∧ outcome issue_created
          = Ok (success_result
                  (JObj [ ("id", JNum 501); ("number", JNum 8);
                          ("title", JStr "Bug"); ("state", JStr "open");
                          ("html_url",
                           JStr "https://github.com/acme/site/issues/8");
                          ("created_at", JStr "2025-01-01T00:00:00Z") ])).
Proof.
  destruct (trace issue_created !! 0) as [ev|] eqn:Hev;
    [|vm_compute in Hev; discriminate].
  pose proof (list_elem_of_lookup_2 _ _ _ Hev) as Hin.
  vm_compute in Hev. injection Hev as <-.
  match type of Hin with
  | ?e ∈ _ =>
      destruct (created_answers_follow_the_response Demo.env
                  (answering (answered issue_json)) tt e (answered issue_json))
        as [Hissue _]
  end.
  eexists. split; [exact Hin|]. split; [reflexivity|].
  exact (Hissue "acme" "site" "Bug" "It does not work" (Some []) None
           (Some 0%N) Hin eq_refl eq_refl).
Defined.

End IssueToolRuns.

Section PipelineRuns.

Import Prepare PipelineTrace PipelineSteps Script Samples.

(** A run that finds no trigger completes without a failure report. *)
Lemma run_exits_exactly_when_it_reports_witness :
  outcome (play no_trigger) = Ok Completed
  ∧ existsb trigger_absent (trace (play no_trigger)) = true
  ∧ outcome (play initial_comment_down) = Ok (Exited 1).
Proof.
  destruct (run_exits_exactly_when_it_reports penv (answer no_trigger) tt)
    as (Ho & _ & _ & _).
  destruct (run_exits_exactly_when_it_reports penv
              (answer initial_comment_down) tt) as (Ho' & _ & _ & _).
  split; [exact Ho|]. split; [reflexivity|exact Ho'].
Defined.


(** The configuration of a run on an issue. *)
Lemma mcp_config_is_built_from_the_run_witness :
  first_of output_set (trace (play with_open_pr))
  = Some ("mcp_config",
          prepareMcpConfig penv "t0ken" "octo" "demo" "claude/issue-7")
  ∧ count is_output (trace (play with_open_pr)) = 1.
Proof.
  assert (H : first_of output_set (trace (play with_open_pr))
              = Some ("mcp_config",
                      prepareMcpConfig penv "t0ken" "octo" "demo"
                        "claude/issue-7"))
    by (vm_compute; reflexivity).
  destruct (mcp_config_is_built_from_the_run penv (answer with_open_pr) tt
              _ _ H) as (_ & Hc & _).
  split; [exact H|exact Hc].
Defined.

(** The prompt of a run that was redirected to the pull request. *)
Lemma prompt_gets_what_the_run_obtained_witness :
  first_of prompt_given (trace (play with_open_pr))
  = Some (200%N, "main", Some "claude/issue-7", JNull, issue7)
  ∧ first_of pr_comment_id (trace (play with_open_pr)) = Some 200%N
  ∧ first_of parsed_context (trace (play with_open_pr)) = Some issue7.
Proof.
  assert (H : first_of prompt_given (trace (play with_open_pr))
              = Some (200%N, "main", Some "claude/issue-7", JNull, issue7))
    by (vm_compute; reflexivity).
  destruct (prompt_gets_what_the_run_obtained penv (answer with_open_pr) tt
              _ _ _ _ _ H) as (_ & Hctx & _).
  split; [exact H|]. split; [reflexivity|exact Hctx].
Defined.

(** The export of a redirected run, and a run whose export fails. *)
Lemma exported_comment_id_is_the_new_comment_witness :
  (first_of PipelineSteps.exported (trace (play with_open_pr))
   = Some ("CLAUDE_COMMENT_ID", "200")
   ∧ first_of pr_comment_id (trace (play with_open_pr)) = Some 200%N)
  ∧ (existsb (failed is_export) (trace (play export_down)) = true
     ∧ existsb is_fallback_log (trace (play export_down)) = true
     ∧ existsb is_link (trace (play export_down)) = false
     ∧ first_of handed_off (trace (play export_down)) = Some 200%N).
Proof.
  split.
  - assert (H : first_of PipelineSteps.exported (trace (play with_open_pr))
                = Some ("CLAUDE_COMMENT_ID", "200"))
      by (vm_compute; reflexivity).
    destruct (exported_comment_id_is_the_new_comment penv
                (answer with_open_pr) tt) as [Hexp _].
    destruct (Hexp _ _ H) as (_ & nid & Hn & _).
    split; [exact H|reflexivity].
  - assert (H : existsb (failed is_export) (trace (play export_down)) = true)
      by (vm_compute; reflexivity).
    destruct (exported_comment_id_is_the_new_comment penv
                (answer export_down) tt) as [_ Hfail].
    destruct (Hfail H) as [Hlog Hids].
    assert (Hne : 200%N ≠ 100%N) by discriminate.
    destruct (Hids 200%N 100%N eq_refl eq_refl Hne) as [Hlink _].
    split; [exact H|]. split; [exact Hlog|]. split; [exact Hlink|reflexivity].
Defined.

End PipelineRuns.

Section ConfigurationRuns.

Import FileOps.

(** The configuration of the sample run starts a server on its branch. *)
Lemma configured_server_works_on_the_given_branch_witness :
  ∃ env,
    (vars ← Server.configured_vars
              (Prepare.prepareMcpConfig Script.penv "t0ken" "octo" "demo"
                 "claude/issue-7");
     Some (Server.startup "https://api.github.com" "/srv"
             (λ a b, a +:+ "/" +:+ b) vars))
    = Some (Server.Registered env)
    ∧ BRANCH_NAME env = "claude/issue-7"
    ∧ REPO_DIR env = "/work".
Proof.
  destruct (configured_server_works_on_the_given_branch Script.penv "t0ken"
              "octo" "demo" "claude/issue-7" "https://api.github.com" "/srv"
              (λ a b, a +:+ "/" +:+ b)) as (vars & Hv & Hs).
  cbn in Hv. injection Hv as <-. cbn in Hs.
  destruct Hs as (_ & _ & _ & _ & _ & Hb & _ & Hd & _).
  eexists. split; [reflexivity|]. split; [exact Hb|exact Hd].
Defined.

End ConfigurationRuns.
